(** * Timetable generator: the assignment engine of [csp2.py] and
      [streamlit_app_v4.py]

    The two source files carry near-identical copies of the engine:
    [compatible_room], the course part of [preprocess],
    [build_vars_domains] and [solve_timetable].  The helpers and the course
    map are textually the same in both files and are embedded once; the
    domain builder and the solver differ (the command-line solver sorts
    each domain by its flags, the web application shuffles the domain when
    it is built and scans it as stored) and are embedded once per file, in
    the modules [Csp2] and [StreamlitApp].

    Data model.
    - Python [str] values are [string]s holding the UTF-8 bytes of the
      text.  [strip] removes every character that Python counts as white
      space.  [lower] folds the ASCII letters only: the patterns searched
      for (lab, lec, classroom, hall, theater) are ASCII and contain
      neither i nor k, the only ASCII letters that a non-ASCII character
      can lower-case to, so the verdict of [compatible_room] does not
      depend on that restriction.
    - A value that may be [None] (or a missing spreadsheet cell) is an
      [option string].
    - Student counts and capacities are Python integers: [Z].
    - [courses], [domains] and [assigned] are dictionaries that the engine
      only reads and writes by key: [gmap].  [rooms] and [instructors] are
      iterated with [.items()], which follows insertion order: association
      lists, whose keys are distinct in a well-formed dictionary
      ([dict_wf]).
    - [used_room_ts], [used_instr_ts], [used_section_ts], [quals] and
      [prefs] are sets: [gset].
    - [LectureVar] defines neither [__eq__] nor [__hash__], so dictionaries
      key it by object identity; the field [vid] stands for that identity
      and [build_vars_domains] allocates a fresh one for every variable. *)

From Stdlib Require Import ZArith Ascii String List Permutation Sorted Bool Lia.
From stdpp Require Import base decidable countable gmap strings list sorting.
From stdpp Require Import pretty.

Local Open Scope Z_scope.
Local Open Scope string_scope.
Local Open Scope list_scope.

(** ** Strings *)

(** [str.lower()], ASCII part. *)
Definition lower_ascii (c : ascii) : ascii :=
  let n := N_of_ascii c in
  if ((65 <=? n) && (n <=? 90))%N then ascii_of_N (n + 32) else c.

Fixpoint lower (s : string) : string :=
  match s with
  | EmptyString => EmptyString
  | String c s' => String (lower_ascii c) (lower s')
  end.

(** [pat in s] on strings. *)
Fixpoint contains (pat s : string) : bool :=
  if String.prefix pat s then true
  else match s with
       | EmptyString => false
       | String _ s' => contains pat s'
       end.

(** White space as [str.strip()] sees it, in UTF-8: the characters for
    which [str.isspace()] holds.  One byte: U+0009..U+000D, U+001C..U+001F
    and U+0020.  Two bytes: U+0085 and U+00A0 (C2 85, C2 A0).  Three bytes:
    U+1680 (E1 9A 80), U+2000..U+200A, U+2028, U+2029, U+202F
    (E2 80 80..8A, A8, A9, AF), U+205F (E2 81 9F) and U+3000 (E3 80 80). *)
Definition byte_in (lo hi : N) (c : ascii) : bool :=
  ((lo <=? N_of_ascii c) && (N_of_ascii c <=? hi))%N.

Definition byte_is (n : N) (c : ascii) : bool := (N_of_ascii c =? n)%N.

Definition is_space1 (a : ascii) : bool := byte_in 9 13 a || byte_in 28 32 a.

Definition is_space2 (a b : ascii) : bool :=
  byte_is 194 a && (byte_is 133 b || byte_is 160 b).

Definition is_space3 (a b c : ascii) : bool :=
  (byte_is 225 a && byte_is 154 b && byte_is 128 c)
  || (byte_is 226 a && byte_is 128 b
      && (byte_in 128 138 c || byte_is 168 c || byte_is 169 c || byte_is 175 c))
  || (byte_is 226 a && byte_is 129 b && byte_is 159 c)
  || (byte_is 227 a && byte_is 128 b && byte_is 128 c).

(** The rest of [s] after one leading white-space character, if [s]
    starts with one. *)
Definition space_prefix (s : string) : option string :=
  match s with
  | String a s1 =>
      if is_space1 a then Some s1
      else match s1 with
           | String b s2 =>
               if is_space2 a b then Some s2
               else match s2 with
                    | String c s3 => if is_space3 a b c then Some s3 else None
                    | EmptyString => None
                    end
           | EmptyString => None
           end
  | EmptyString => None
  end.

(** [str.lstrip()]: drop white-space characters while the text starts with
    one. *)
Fixpoint lstrip (s : string) : string :=
  match s with
  | EmptyString => EmptyString
  | String a s1 =>
      if is_space1 a then lstrip s1
      else match s1 with
           | String b s2 =>
               if is_space2 a b then lstrip s2
               else match s2 with
                    | String c s3 => if is_space3 a b c then lstrip s3 else s
                    | EmptyString => s
                    end
           | EmptyString => s
           end
  end.

(** [str.rstrip()]: cut the text where all that follows is white space.
    The text that follows a position inside a multi-byte character starts
    with a continuation byte, which starts no white-space character, so
    the cut falls between characters. *)
Fixpoint rstrip (s : string) : string :=
  match s with
  | EmptyString => EmptyString
  | String a s1 =>
      if String.eqb (lstrip s) EmptyString then EmptyString
      else String a (rstrip s1)
  end.

Definition strip (s : string) : string := rstrip (lstrip s).

(** A spreadsheet cell: [None] is a missing value ([pd.isna]), [Some s] a
    value whose [str()] is [s]. *)
Definition cell := option string.

Definition safe_str (x : cell) : string :=
  match x with
  | None => ""
  | Some s => strip s
  end.

(** [x or ""] for [x] a string or [None]. *)
Definition or_empty (x : option string) : string :=
  match x with
  | None => ""
  | Some s => if String.eqb s "" then "" else s
  end.

(** ** Room compatibility *)

Definition compatible_room (course_type room_type : option string) : bool :=
  let c := lower (or_empty course_type) in
  let r := lower (or_empty room_type) in
  if contains "lab" c && contains "lab" r then true
  else if contains "lec" c
          && (contains "classroom" r || contains "hall" r || contains "theater" r)
  then true
  else if contains "lab" c
          && (contains "classroom" r || contains "hall" r || contains "theater" r)
  then true
  else if contains "classroom" r || contains "hall" r then true
  else false.

(** *** The cascade in the words of the specification *)

(** What a category "signals", after case normalisation. *)
Definition signals (word category : string) : bool :=
  contains word (lower category).

Definition signals_lab := signals "lab".

(** "Signals lecture" in the words of the specification: the category
    holds the word lecture. *)
Definition signals_lecture := signals "lecture".

(** The test of the code for a lecture course: the category holds "lec". *)
Definition signals_lec := signals "lec".

Definition signals_classroom := signals "classroom".
Definition signals_hall := signals "hall".
Definition signals_theater := signals "theater".

Inductive verdict := Compatible | Incompatible.

(** The five rules, each a guard on (course category, room category) and
    the verdict it gives when it fires; [lecture] is the test for a course
    that signals lecture. *)
Definition cascade_rules (lecture : string → bool)
    : list ((string → string → bool) * verdict) :=
  [ (λ c r, signals_lab c && signals_lab r, Compatible);
    (λ c r, lecture c
            && (signals_classroom r || signals_hall r || signals_theater r),
     Compatible);
    (λ c r, signals_lab c
            && (signals_classroom r || signals_hall r || signals_theater r),
     Compatible);
    (λ c r, signals_classroom r || signals_hall r, Compatible);
    (λ _ _, true, Incompatible) ].

(** First match wins. *)
Fixpoint first_match (rules : list ((string → string → bool) * verdict))
    (c r : string) : option verdict :=
  match rules with
  | [] => None
  | (guard, v) :: rest => if guard c r then Some v else first_match rest c r
  end.

(** The cascade as the specification words it. *)
Definition compatible_spec (c r : string) : option verdict :=
  first_match (cascade_rules signals_lecture) c r.

(** The cascade with the test of the code for a lecture course. *)
Definition compatible_cascade (c r : string) : option verdict :=
  first_match (cascade_rules signals_lec) c r.

Definition verdict_of_bool (b : bool) : verdict :=
  if b then Compatible else Incompatible.

(** ** Entities *)

(** The values of the [courses], [instructors] and [rooms] dictionaries. *)
Record course_info := { c_name : string; c_type : string }.

Record instructor_info :=
  { i_name : string; quals : gset string; prefs : gset string }.

Record room_info := { r_type : string; capacity : Z }.

(** A row of the Courses sheet. *)
Record course_row :=
  { CourseID : cell; CourseName : cell; CourseType : cell }.

(** An insertion-ordered dictionary with string keys. *)
Definition dict (A : Type) : Type := list (string * A).

Fixpoint dict_get {A} (d : dict A) (k : string) : option A :=
  match d with
  | [] => None
  | (k', a) :: d' => if String.eqb k' k then Some a else dict_get d' k
  end.

Definition dict_wf {A} (d : dict A) : Prop := NoDup (d.*1).

(** An option of a domain: the tuple
    [(t, r_id, instr_id, is_qualified, is_preferred)]. *)
Definition opt : Type := string * string * string * bool * bool.

Definition opt_t (o : opt) : string := let '(t, _, _, _, _) := o in t.
Definition opt_r (o : opt) : string := let '(_, r, _, _, _) := o in r.
Definition opt_instr (o : opt) : string := let '(_, _, i, _, _) := o in i.
Definition opt_qualified (o : opt) : bool := let '(_, _, _, q, _) := o in q.
Definition opt_preferred (o : opt) : bool := let '(_, _, _, _, p) := o in p.

(** ** The course map of [preprocess] *)

(** One iteration of the loop over the rows of the Courses sheet. *)
Definition courses_step (courses : gmap string course_info) (r : course_row)
    : gmap string course_info :=
  let cid := safe_str (CourseID r) in
  let ctype := lower (safe_str (CourseType r)) in
  if String.eqb cid "" then courses
  else
    match courses !! cid with
    | Some info =>
        if String.eqb (c_type info) "lecture" then courses
        else <[cid := {| c_name := safe_str (CourseName r); c_type := ctype |}]> courses
    | None =>
        <[cid := {| c_name := safe_str (CourseName r); c_type := ctype |}]> courses
    end.

Definition preprocess_courses (courses_df : list course_row)
    : gmap string course_info :=
  fold_left courses_step courses_df ∅.

(** ** Sorting *)

(** [sorted] is stable, so its result is the one that stable insertion
    computes: an element goes in front of the first later element that does
    not sort strictly before it. *)
Fixpoint insert_sorted {A} (le : A → A → bool) (x : A) (l : list A) : list A :=
  match l with
  | [] => [x]
  | y :: l' => if le x y then x :: y :: l' else y :: insert_sorted le x l'
  end.

Definition sorted {A} (le : A → A → bool) (l : list A) : list A :=
  foldr (insert_sorted le) [] l.

(** Tuple comparison of Python, on pairs of integers and pairs of flags
    ([False < True]). *)
Definition lex_le (a b : Z * Z) : bool :=
  ((a.1 <? b.1) || ((a.1 =? b.1) && (a.2 <=? b.2)))%Z.

Definition flag_lt (a b : bool) : bool := negb a && b.
Definition flag_le (a b : bool) : bool := implb a b.

Definition flags_le (a b : bool * bool) : bool :=
  flag_lt a.1 b.1 || (Bool.eqb a.1 b.1 && flag_le a.2 b.2).

(** [sorted(dom, key=lambda x: (x[3], x[4]), reverse=True)] *)
Definition opt_key (x : opt) : bool * bool := (opt_qualified x, opt_preferred x).

Definition sorted_by_flags (dom : list opt) : list opt :=
  sorted (λ x y, flags_le (opt_key y) (opt_key x)) dom.

(** ** The domain of one variable *)

(** The three nested loops of [build_vars_domains] over timeslots, rooms
    and instructors, for a course [cid] of category [ctype] and a group of
    [students] students. *)
Definition build_domain (instructors : dict instructor_info)
    (rooms : dict room_info) (timeslots : list string)
    (cid ctype : string) (students : Z) : list opt :=
  flat_map (λ t,
    flat_map (λ '(r_id, r_info),
      if negb (compatible_room (Some ctype) (Some (r_type r_info))) then []
      else if (capacity r_info <? students)%Z then []
      else
        flat_map (λ '(instr_id, i_info),
          let is_qualified := bool_decide (cid ∈ quals i_info) in
          let is_preferred := bool_decide (t ∈ prefs i_info) in
          if negb is_qualified then []
          else [(t, r_id, instr_id, is_qualified, is_preferred)])
          instructors)
      rooms)
    timeslots.

(** ** The solver state *)

Record state (V : Type) `{Countable V} := State {
  assigned : gmap V opt;
  failed_assignments : list V;
  used_room_ts : gset (string * string);
  used_instr_ts : gset (string * string);
  used_section_ts : gset (string * string)
}.
Arguments State {V _ _}.
Arguments assigned {V _ _}.
Arguments failed_assignments {V _ _}.
Arguments used_room_ts {V _ _}.
Arguments used_instr_ts {V _ _}.
Arguments used_section_ts {V _ _}.

(** ** The engine, common to both files

    The files differ in the class [LectureVar] (the group key is the
    attribute [section] in one and [group_name] in the other), in the
    record of a lecture group, in what happens to a freshly built domain
    ([finish_domain]: nothing, or [random.shuffle]) and in the order in
    which the solver scans a domain ([order_domain]: sorted by flags, or as
    stored).  Everything else is the same text and is written once. *)
Section Engine.
Context {V G : Type} `{Countable V}.
Variable v_group : V → string.
Variable v_students : V → Z.
Variable g_students : G → Z.
Variable g_courses : G → list string.
(** [LectureVar(cid, group_name, year, students, ...)], with the identity
    of the new object. *)
Variable new_var : nat → string → G → V.
Variable finish_domain : nat → list opt → list opt.
Variable order_domain : list opt → list opt.

(** *** [build_vars_domains] *)

(** Body of [for cid in group.get("courses", [])]. *)
Definition build_course (courses : gmap string course_info)
    (instructors : dict instructor_info) (rooms : dict room_info)
    (timeslots : list string) (group : G)
    (acc : list V * gmap V (list opt)) (cid : string)
    : list V * gmap V (list opt) :=
  let '(variables, domains) := acc in
  match courses !! cid with
  | None => (variables, domains)
  | Some course_info =>
      let ctype := c_type course_info in
      let v := new_var (length variables) cid group in
      let dom :=
        build_domain instructors rooms timeslots cid ctype (g_students group) in
      (variables ++ [v], <[v := finish_domain (length variables) dom]> domains)
  end.

Definition build_group courses instructors rooms timeslots
    (acc : list V * gmap V (list opt)) (group : G) :=
  fold_left (build_course courses instructors rooms timeslots group)
    (g_courses group) acc.

Definition build_vars_domains (courses : gmap string course_info)
    (instructors : dict instructor_info) (rooms : dict room_info)
    (timeslots : list string) (lecture_groups : list G)
    : list V * gmap V (list opt) :=
  fold_left (build_group courses instructors rooms timeslots)
    lecture_groups ([], ∅).

(** *** [solve_timetable] *)

(** [domains.get(v, [])] *)
Definition domain_of (domains : gmap V (list opt)) (v : V) : list opt :=
  default [] (domains !! v).

(** [key=lambda v: (-v.students, len(domains.get(v, [])))] *)
Definition var_key (domains : gmap V (list opt)) (v : V) : Z * Z :=
  (- v_students v, Z.of_nat (length (domain_of domains v))).

Definition sorted_vars (variables : list V) (domains : gmap V (list opt))
    : list V :=
  sorted (λ a b, lex_le (var_key domains a) (var_key domains b)) variables.

Definition initial_state : state V :=
  State ∅ [] ∅ ∅ ∅.

(** The four statements that assign an option. *)
Definition commit (st : state V) (v : V) (o : opt) : state V :=
  let '(t, r, instr, _, _) := o in
  State (<[v := o]> (assigned st))
        (failed_assignments st)
        ({[ (t, r) ]} ∪ used_room_ts st)
        ({[ (t, instr) ]} ∪ used_instr_ts st)
        ({[ (t, v_group v) ]} ∪ used_section_ts st).

(** The loop over the options; the flag is [assigned_slot]. *)
Fixpoint scan_domain (st : state V) (v : V) (options : list opt)
    : state V * bool :=
  match options with
  | [] => (st, false)
  | o :: rest =>
      let '(t, r, instr, _, _) := o in
      if bool_decide ((t, r) ∈ used_room_ts st) then scan_domain st v rest
      else if bool_decide ((t, instr) ∈ used_instr_ts st) then scan_domain st v rest
      else if bool_decide ((t, v_group v) ∈ used_section_ts st)
      then scan_domain st v rest
      else (commit st v o, true)
  end.

Definition record_failed (st : state V) (v : V) : state V :=
  State (assigned st) (failed_assignments st ++ [v])
        (used_room_ts st) (used_instr_ts st) (used_section_ts st).

(** Body of [for v in sorted_vars]. *)
Definition process_var (domains : gmap V (list opt)) (st : state V) (v : V)
    : state V :=
  let dom := domain_of domains v in
  match dom with
  | [] => record_failed st v
  | _ :: _ =>
      let '(st', assigned_slot) := scan_domain st v (order_domain dom) in
      if assigned_slot then st' else record_failed st' v
  end.

Definition run (domains : gmap V (list opt)) (vs : list V) (st : state V)
    : state V :=
  fold_left (process_var domains) vs st.

Definition solve_state (variables : list V) (domains : gmap V (list opt))
    : state V :=
  run domains (sorted_vars variables domains) initial_state.

Definition solve_timetable (variables : list V) (domains : gmap V (list opt))
    : gmap V opt * list V :=
  let st := solve_state variables domains in
  (assigned st, failed_assignments st).
End Engine.

(** ** [csp2.py] *)
Module Csp2.
Record lecture_group := {
  g_group_name : string;
  g_year : Z;
  g_students : Z;
  g_courses : list string
}.

Record LectureVar := {
  vid : nat;
  course : string;
  section : string;
  year : Z;
  students : Z;
  name : string
}.

(** [LectureVar.__init__] *)
Definition new_LectureVar (id : nat) (course section : string)
    (year students : Z) : LectureVar :=
  {| vid := id; course := course; section := section; year := year;
     students := students; name := (course ++ "_" ++ section)%string |}.

#[global] Instance LectureVar_eq_dec : EqDecision LectureVar.
Proof. solve_decision. Defined.

#[global] Instance LectureVar_countable : Countable LectureVar.
Proof.
  refine (inj_countable'
    (λ v, (vid v, course v, section v, year v, students v, name v))
    (λ '(i, c, s, y, n, nm), Build_LectureVar i c s y n nm) _).
  by intros [].
Defined.

Definition new_var (id : nat) (cid : string) (group : lecture_group)
    : LectureVar :=
  new_LectureVar id cid (g_group_name group) (g_year group) (g_students group).

Definition build_vars_domains :=
  build_vars_domains g_students g_courses new_var (λ _ dom, dom).

(** The solver tries the options sorted by (qualified, preferred),
    largest first. *)
Definition solve_timetable :=
  solve_timetable section students sorted_by_flags.

Definition solve_state := solve_state section students sorted_by_flags.
Definition process_var := process_var section sorted_by_flags.
End Csp2.

(** ** [streamlit_app_v4.py] *)
Module StreamlitApp.
Record lecture_group := {
  g_group_name : string;
  g_section_display_name : string;
  g_year : Z;
  g_students : Z;
  g_courses : list string
}.

Record LectureVar := {
  vid : nat;
  course : string;
  group_name : string;
  year : Z;
  students : Z;
  section_display_name : string;
  name : string
}.

Definition new_LectureVar (id : nat) (course group_name : string)
    (year students : Z) (section_display_name : string) : LectureVar :=
  {| vid := id; course := course; group_name := group_name; year := year;
     students := students; section_display_name := section_display_name;
     name := (course ++ "_" ++ group_name)%string |}.

#[global] Instance LectureVar_eq_dec : EqDecision LectureVar.
Proof. solve_decision. Defined.

#[global] Instance LectureVar_countable : Countable LectureVar.
Proof.
  refine (inj_countable'
    (λ v, (vid v, course v, group_name v, year v, students v,
           section_display_name v, name v))
    (λ '(i, c, g, y, n, d, nm), Build_LectureVar i c g y n d nm) _).
  by intros [].
Defined.

Definition new_var (id : nat) (cid : string) (group : lecture_group)
    : LectureVar :=
  new_LectureVar id cid (g_group_name group) (g_year group)
    (g_students group) (g_section_display_name group).

(** [shuffle n dom] is the order in which the [n]-th call of
    [random.shuffle] leaves [dom]. *)
Definition build_vars_domains (shuffle : nat → list opt → list opt) :=
  build_vars_domains g_students g_courses new_var shuffle.

(** The solver scans the domain as stored. *)
Definition solve_timetable :=
  solve_timetable group_name students (λ dom, dom).

Definition solve_state := solve_state group_name students (λ dom, dom).
Definition process_var := process_var group_name (λ dom : list opt, dom).
End StreamlitApp.

(** ** Notions used to state the properties *)

Section Notions.
Context {V : Type} `{Countable V}.
Variable v_group : V → string.
Variable v_students : V → Z.

(** An option clears the three clash checks in a state. *)
Definition clears (st : state V) (v : V) (o : opt) : bool :=
  negb (bool_decide ((opt_t o, opt_r o) ∈ used_room_ts st))
  && negb (bool_decide ((opt_t o, opt_instr o) ∈ used_instr_ts st))
  && negb (bool_decide ((opt_t o, v_group v) ∈ used_section_ts st)).

(** Two assignments do not share a timeslot together with a room, an
    instructor or a group key. *)
Definition no_clash (v1 : V) (o1 : opt) (v2 : V) (o2 : opt) : Prop :=
  (opt_t o1, opt_r o1) ≠ (opt_t o2, opt_r o2)
  ∧ (opt_t o1, opt_instr o1) ≠ (opt_t o2, opt_instr o2)
  ∧ (opt_t o1, v_group v1) ≠ (opt_t o2, v_group v2).

(** The invariant of the pass: every assignment has its three pairs in
    the used sets, and two assignments of different variables do not
    clash. *)
Definition booked (st : state V) : Prop :=
  (∀ v o, assigned st !! v = Some o →
     (opt_t o, opt_r o) ∈ used_room_ts st
     ∧ (opt_t o, opt_instr o) ∈ used_instr_ts st
     ∧ (opt_t o, v_group v) ∈ used_section_ts st)
  ∧ (∀ v1 v2 o1 o2, v1 ≠ v2 →
       assigned st !! v1 = Some o1 → assigned st !! v2 = Some o2 →
       no_clash v1 o1 v2 o2).

(** The invariant of coverage: only the variables processed so far
    ([seen]) are classified, none of them both ways, and none is listed
    as failed twice. *)
Definition classified_once (seen : list V) (st : state V) : Prop :=
  (∀ v, is_Some (assigned st !! v) ∨ v ∈ failed_assignments st → v ∈ seen)
  ∧ (∀ v, is_Some (assigned st !! v) → v ∉ failed_assignments st)
  ∧ NoDup (failed_assignments st).

(** Only variables with a non-empty domain are assigned. *)
Definition assigned_have_options (domains : gmap V (list opt)) (st : state V)
    : Prop :=
  ∀ v, is_Some (assigned st !! v) → domain_of domains v ≠ [].

(** The same state with another list of failures. *)
Definition with_failed (f : list V) (st : state V) : state V :=
  State (assigned st) f (used_room_ts st) (used_instr_ts st)
        (used_section_ts st).

(** The order of the variables in the words of the specification:
    student count descending, then domain size descending. *)
Definition before_as_specified (domains : gmap V (list opt)) (a b : V) : Prop :=
  (v_students a > v_students b)%Z
  ∨ (v_students a = v_students b
     ∧ (length (domain_of domains a) ≥ length (domain_of domains b))%nat).

(** The order the sort key gives: student count descending, then domain
    size ascending. *)
Definition before_as_sorted (domains : gmap V (list opt)) (a b : V) : Prop :=
  (v_students a > v_students b)%Z
  ∨ (v_students a = v_students b
     ∧ (length (domain_of domains a) ≤ length (domain_of domains b))%nat).
End Notions.

(** (qualification, preference) descending. *)
Definition flags_descending (a b : opt) : Prop :=
  flags_le (opt_key b) (opt_key a) = true.

(** Among options with the same qualification flag, [a] may come before
    [b] only if [b] being preferred makes [a] preferred too. *)
Definition preferred_first (a b : opt) : Prop :=
  opt_qualified a = opt_qualified b →
  opt_preferred b = true → opt_preferred a = true.

(** The hard filters on a triple (timeslot, room, instructor) for a course
    [cid] of category [ctype] and a group of [students] students: the room
    is compatible, it is large enough, and the instructor is qualified. *)
Definition legal_triple (instructors : dict instructor_info)
    (rooms : dict room_info) (timeslots : list string)
    (cid ctype : string) (students : Z) (t r i : string) : Prop :=
  t ∈ timeslots
  ∧ ∃ r_info i_info,
      dict_get rooms r = Some r_info
      ∧ dict_get instructors i = Some i_info
      ∧ compatible_room (Some ctype) (Some (r_type r_info)) = true
      ∧ (students ≤ capacity r_info)%Z
      ∧ cid ∈ quals i_info.

(** Whether timeslot [t] is in the preferred set of instructor [i]. *)
Definition prefers (instructors : dict instructor_info) (t i : string) : bool :=
  match dict_get instructors i with
  | Some i_info => bool_decide (t ∈ prefs i_info)
  | None => false
  end.

Section BuildNotions.
Context {V G : Type} `{Countable V}.
Variable g_students : G → Z.
Variable g_courses : G → list string.
Variable new_var : nat → string → G → V.
Variable finish_domain : nat → list opt → list opt.

(** The invariant of [build_vars_domains]: the [n]-th variable was made
    for a course of a group whose id the course map knows, and its entry
    in [domains] is the domain built for that pair. *)
Definition built (courses : gmap string course_info)
    (instructors : dict instructor_info) (rooms : dict room_info)
    (timeslots : list string) (lecture_groups : list G)
    (acc : list V * gmap V (list opt)) : Prop :=
  ∀ n v, acc.1 !! n = Some v →
    ∃ group cid info,
      group ∈ lecture_groups ∧ cid ∈ g_courses group
      ∧ courses !! cid = Some info
      ∧ v = new_var n cid group
      ∧ acc.2 !! v
        = Some (finish_domain n
                  (build_domain instructors rooms timeslots cid (c_type info)
                     (g_students group))).
End BuildNotions.

(** ** Concrete data for the examples *)
Module Examples.
Definition o_T1 : opt := ("T1", "R1", "I1", true, false).
Definition o_T2 : opt := ("T2", "R1", "I1", true, true).

Definition rooms : dict room_info :=
  [("R1", {| r_type := "classroom"; capacity := 40 |});
   ("R2", {| r_type := "lab"; capacity := 25 |})].

Definition instructors : dict instructor_info :=
  [("I1", {| i_name := "Ada"; quals := {["CS101"]}; prefs := {["T2"]} |});
   ("I2", {| i_name := "Bob"; quals := {["CS102"]}; prefs := ∅ |})].

Definition courses : gmap string course_info :=
  {[ "CS101" := {| c_name := "Programming"; c_type := "lecture" |} ]}.

Definition timeslots : list string := ["T1"; "T2"].

Definition course_rows : list course_row :=
  [ {| CourseID := Some "CNC311"; CourseName := Some "Networks";
       CourseType := Some "Lecture" |} ].

Definition course_rows_later : list course_row :=
  [ {| CourseID := Some "CNC311"; CourseName := Some "Networks Lab";
       CourseType := Some "Lab" |} ].

Module C.
Import Csp2.
Definition groups : list lecture_group :=
  [ {| g_group_name := "1_1"; g_year := 1; g_students := 30;
       g_courses := ["CS101"; "CS999"] |};
    {| g_group_name := "1_2"; g_year := 1; g_students := 35;
       g_courses := ["CS101"] |} ].
Definition va := new_LectureVar 0 "CS101" "1_1" 1 30.
Definition vb := new_LectureVar 1 "CS101" "1_2" 1 30.
Definition vc := new_LectureVar 1 "CS101" "1_2" 1 35.
Definition domains : gmap LectureVar (list opt) :=
  {[ va := [o_T1; o_T2]; vb := [o_T1] ]}.
Definition domains1 : gmap LectureVar (list opt) :=
  {[ va := [o_T1] ]}.
Definition domains2 : gmap LectureVar (list opt) :=
  {[ va := [o_T1]; vb := [o_T1] ]}.
(** The state after [vb] took the only option. *)
Definition st_vb : state LectureVar :=
  process_var domains2 initial_state vb.
End C.

(** The scenarios of the specification: one course, one room, one
    instructor, one timeslot. *)
Module Scenario.
Import Csp2.
Definition courses : gmap string course_info :=
  {[ "CS101" := {| c_name := "Intro"; c_type := "lecture" |} ]}.
Definition instructors : dict instructor_info :=
  [("I1", {| i_name := "Ada"; quals := {["CS101"]}; prefs := ∅ |})].
Definition room (cap : Z) : dict room_info :=
  [("R1", {| r_type := "classroom"; capacity := cap |})].
Definition group (key : string) (n : Z) (cids : list string) : lecture_group :=
  {| g_group_name := key; g_year := 1; g_students := n; g_courses := cids |}.
Definition only_option : opt := ("T1", "R1", "I1", true, false).
Definition run_all (rooms : dict room_info) (groups : list lecture_group)
    : gmap LectureVar opt * list LectureVar :=
  let vd := build_vars_domains courses instructors rooms ["T1"] groups in
  solve_timetable vd.1 vd.2.
End Scenario.

Module S.
Import StreamlitApp.
Definition groups : list lecture_group :=
  [ {| g_group_name := "1_1"; g_section_display_name := "(Sec 1, 2)";
       g_year := 1; g_students := 30; g_courses := ["CS101"; "CS999"] |};
    {| g_group_name := "1_2"; g_section_display_name := "(Sec 3)";
       g_year := 1; g_students := 35; g_courses := ["CS101"] |} ].
Definition va := new_LectureVar 0 "CS101" "1_1" 1 30 "(Sec 1, 2)".
Definition vb := new_LectureVar 1 "CS101" "1_2" 1 30 "(Sec 3)".
Definition vc := new_LectureVar 1 "CS101" "1_2" 1 35 "(Sec 3)".
Definition domains : gmap LectureVar (list opt) :=
  {[ va := [o_T1; o_T2]; vb := [o_T1] ]}.
Definition domains1 : gmap LectureVar (list opt) :=
  {[ va := [o_T1] ]}.
Definition domains2 : gmap LectureVar (list opt) :=
  {[ va := [o_T1]; vb := [o_T1] ]}.
Definition st_vb : state LectureVar :=
  process_var domains2 initial_state vb.
Definition shuffle (n : nat) (dom : list opt) : list opt := reverse dom.
End S.
End Examples.

(** ** The rest of [preprocess]

    The data frames are lists of rows.  A text cell is a [cell]; the
    [Capacity] cell is given by what [int()] makes of it, [None] when
    [int()] raises (a missing value, text that is no number). *)

(** [s.split(sep)] for a separator of one character. *)
Fixpoint split_on (sep : ascii) (s : string) : list string :=
  match s with
  | EmptyString => [EmptyString]
  | String c s' =>
      if Ascii.eqb c sep then EmptyString :: split_on sep s'
      else match split_on sep s' with
           | [] => [String c EmptyString]
           | piece :: pieces => String c piece :: pieces
           end
  end.

(** [[q.strip() for q in raw.split(',') if q.strip()]] *)
Definition parse_list (raw : string) : list string :=
  filter (λ q, q ≠ "") (strip <$> split_on "," raw).

(** [try: return int(x) except: return default] *)
Definition int_safe (x : option Z) (default : Z) : Z :=
  match x with
  | Some n => n
  | None => default
  end.

(** [d[k] = a] on an insertion-ordered dictionary: a key that is there
    keeps its place, a new key goes to the end. *)
Fixpoint dict_set {A} (d : dict A) (k : string) (a : A) : dict A :=
  match d with
  | [] => [(k, a)]
  | (k', a') :: d' =>
      if String.eqb k' k then (k', a) :: d' else (k', a') :: dict_set d' k a
  end.

Record instructor_row := {
  InstructorID : cell;
  InstructorName : cell;
  QualifiedCourses : cell;
  preferred_slots : cell
}.

Record room_row := { RoomID : cell; RoomType : cell; Capacity : option Z }.

Record timeslot_row :=
  { TimeSlotID : cell; Day : cell; StartTime : cell; EndTime : cell }.

(** The values of [timeslot_info]. *)
Record timeslot_entry := { ts_day : string; ts_start : string; ts_end : string }.

Definition instructors_step (instructors : dict instructor_info)
    (r : instructor_row) : dict instructor_info :=
  let iid := safe_str (InstructorID r) in
  if String.eqb iid "" then instructors
  else
    let quals_raw := safe_str (QualifiedCourses r) in
    let prefs_raw := safe_str (preferred_slots r) in
    dict_set instructors iid
      {| i_name := safe_str (InstructorName r);
         quals := list_to_set (parse_list quals_raw);
         prefs := list_to_set (parse_list prefs_raw) |}.

Definition preprocess_instructors (instructors_df : list instructor_row)
    : dict instructor_info :=
  fold_left instructors_step instructors_df [].

Definition rooms_step (rooms : dict room_info) (r : room_row)
    : dict room_info :=
  let rid := safe_str (RoomID r) in
  if String.eqb rid "" then rooms
  else
    dict_set rooms rid
      {| r_type := lower (safe_str (RoomType r));
         capacity := int_safe (Capacity r) 0 |}.

Definition preprocess_rooms (rooms_df : list room_row) : dict room_info :=
  fold_left rooms_step rooms_df [].

Definition timeslots_step (acc : list string * dict timeslot_entry)
    (r : timeslot_row) : list string * dict timeslot_entry :=
  let '(timeslots, timeslot_info) := acc in
  let tid := safe_str (TimeSlotID r) in
  let day := safe_str (Day r) in
  let start := safe_str (StartTime r) in
  let end_ := safe_str (EndTime r) in
  if String.eqb tid "" then (timeslots, timeslot_info)
  else
    (timeslots ++ [tid],
     dict_set timeslot_info tid
       {| ts_day := day; ts_start := start; ts_end := end_ |}).

Definition preprocess_timeslots (timeslots_df : list timeslot_row)
    : list string * dict timeslot_entry :=
  fold_left timeslots_step timeslots_df ([], []).

(** *** Notions for the properties of [preprocess] *)

(** Three of the white-space characters beyond ASCII, as UTF-8. *)
Definition no_break_space : string :=
  String (ascii_of_N 194) (String (ascii_of_N 160) "").

Definition em_space : string :=
  String (ascii_of_N 226) (String (ascii_of_N 128) (String (ascii_of_N 131) "")).

Definition next_line : string :=
  String (ascii_of_N 194) (String (ascii_of_N 133) "").

(** The first character of [s] is white space. *)
Definition starts_with_space (s : string) : bool :=
  match space_prefix s with
  | Some _ => true
  | None => false
  end.

(** The last character of [s] is white space: some end of [s] is exactly
    one white-space character. *)
Fixpoint ends_with_space (s : string) : bool :=
  match s with
  | EmptyString => false
  | String _ s1 =>
      match space_prefix s with
      | Some EmptyString => true
      | _ => ends_with_space s1
      end
  end.

(** The ASCII character [c] occurs in [s]. *)
Fixpoint mentions (c : ascii) (s : string) : bool :=
  match s with
  | EmptyString => false
  | String c' s' => Ascii.eqb c' c || mentions c s'
  end.

(** [",".join(l)] *)
Definition join_commas (l : list string) : string := String.concat "," l.

(** An item as [parse_list] returns it: not empty, no white space around
    it, no comma in it. *)
Definition clean_item (q : string) : Prop :=
  q ≠ "" ∧ starts_with_space q = false ∧ ends_with_space q = false
  ∧ mentions "," q = false.

(** What a row of the Courses sheet stores. *)
Definition course_of_row (r : course_row) : course_info :=
  {| c_name := safe_str (CourseName r);
     c_type := lower (safe_str (CourseType r)) |}.

(** Among the rows of one course id, the row whose entry the map ends up
    with: the first that says "lecture", else the last. *)
Definition winning_row (rows : list course_row) : option course_row :=
  match find (λ r, String.eqb (c_type (course_of_row r)) "lecture") rows with
  | Some r => Some r
  | None => last rows
  end.

(** What a row of the Rooms, Instructors and TimeSlots sheets stores. *)
Definition room_of_row (r : room_row) : room_info :=
  {| r_type := lower (safe_str (RoomType r));
     capacity := int_safe (Capacity r) 0 |}.

Definition instructor_of_row (r : instructor_row) : instructor_info :=
  {| i_name := safe_str (InstructorName r);
     quals := list_to_set (parse_list (safe_str (QualifiedCourses r)));
     prefs := list_to_set (parse_list (safe_str (preferred_slots r))) |}.

Definition timeslot_of_row (r : timeslot_row) : timeslot_entry :=
  {| ts_day := safe_str (Day r); ts_start := safe_str (StartTime r);
     ts_end := safe_str (EndTime r) |}.

(** A sheet loaded into a dictionary: rows without an id are skipped and
    each of the others is stored under its id. *)
Definition load_rows {R A} (key : R → string) (value : R → A)
    (d : dict A) (rows : list R) : dict A :=
  fold_left (λ d r, if String.eqb (key r) "" then d
                    else dict_set d (key r) (value r)) rows d.

(** ** Notions for further properties of the engine *)

(** The (course id, group) pairs for which [build_vars_domains] makes a
    variable: for every group in order, its course ids in order, those
    that the course map knows. *)
Definition known_pairs {G} (g_courses : G → list string)
    (courses : gmap string course_info) (groups : list G)
    : list (string * G) :=
  flat_map (λ g, (λ cid, (cid, g))
                   <$> filter (λ cid, is_Some (courses !! cid)) (g_courses g))
    groups.

Section MoreNotions.
Context {V : Type} `{Countable V}.
Variable v_group : V → string.

(** Two assignments share a timeslot together with the room, the
    instructor or the group key. *)
Definition clash (v1 : V) (o1 : opt) (v2 : V) (o2 : opt) : Prop :=
  (opt_t o1, opt_r o1) = (opt_t o2, opt_r o2)
  ∨ (opt_t o1, opt_instr o1) = (opt_t o2, opt_instr o2)
  ∨ (opt_t o1, v_group v1) = (opt_t o2, v_group v2).

(** Option [o] cannot be given to [v] because of what another variable
    holds in [assigned]. *)
Definition blocked (assigned : gmap V opt) (v : V) (o : opt) : Prop :=
  ∃ v' o', v' ≠ v ∧ assigned !! v' = Some o' ∧ clash v o v' o'.

(** Every pair in a used set comes from an assignment. *)
Definition tracked (st : state V) : Prop :=
  (∀ t r, (t, r) ∈ used_room_ts st →
     ∃ v o, assigned st !! v = Some o ∧ (opt_t o, opt_r o) = (t, r))
  ∧ (∀ t i, (t, i) ∈ used_instr_ts st →
       ∃ v o, assigned st !! v = Some o ∧ (opt_t o, opt_instr o) = (t, i))
  ∧ (∀ t g, (t, g) ∈ used_section_ts st →
       ∃ v o, assigned st !! v = Some o ∧ (opt_t o, v_group v) = (t, g)).

(** The invariant of a pass over distinct variables: the used sets are
    tracked, every option of a failed variable is blocked, and so is every
    option that comes, in the scan order, before the first occurrence of
    the option a variable got. *)
Definition settled (order_domain : list opt → list opt)
    (domains : gmap V (list opt)) (st : state V) : Prop :=
  tracked st
  ∧ (∀ v o, v ∈ failed_assignments st → o ∈ domain_of domains v →
            blocked (assigned st) v o)
  ∧ (∀ v o before after,
       assigned st !! v = Some o →
       order_domain (domain_of domains v) = before ++ o :: after →
       o ∉ before →
       ∀ o', o' ∈ before → blocked (assigned st) v o').

(** No pair has been used yet. *)
Definition untouched (st : state V) : Prop :=
  used_room_ts st = ∅ ∧ used_instr_ts st = ∅ ∧ used_section_ts st = ∅.
End MoreNotions.

(** ** More concrete data *)
Module MoreExamples.
Module C.
Import Csp2.
(** [va] has the preferred option only, [vb] both: [va] goes first. *)
Definition domains3 : gmap LectureVar (list opt) :=
  {[ Examples.C.va := [Examples.o_T2];
     Examples.C.vb := [Examples.o_T1; Examples.o_T2] ]}.
End C.
Module S.
Import StreamlitApp.
Definition domains3 : gmap LectureVar (list opt) :=
  {[ Examples.S.va := [Examples.o_T2];
     Examples.S.vb := [Examples.o_T2; Examples.o_T1] ]}.
End S.
End MoreExamples.

(** ** The lecture groups of [preprocess]

    The Sections sheet as pandas holds it.  [Level] and [StudentCount] are
    complete columns of integers, which pandas holds as 64-bit integers
    ([int64]): a sheet with a missing cell in one of them is held as
    floating point, one with an integer beyond 64 bits as Python objects,
    and neither is covered.  The column of the group key is [Group], or
    [SectionID] when the sheet has no column [Group]; [K] is the type of
    the values it holds and [key_text] gives the text that an f-string
    prints for such a value.  A missing key is [None].

    [sections_df.groupby(['Level', group_column])] is taken for what
    pandas documents: the rows that have a key are partitioned by the pair
    of the level and the key, the rows of a part keep their order, and
    every part is visited once.  The order in which the parts are visited
    is left open: [arrange] is any rearrangement of the distinct pairs. *)
Record section_row {K : Type} := {
  Level : Z;
  GroupKey : option K;
  SectionID : string;
  StudentCount : Z;
  SectionCourses : cell
}.
Arguments section_row : clear implicits.

(** A 64-bit signed integer, and the value that 64-bit arithmetic gives
    for an integer: it wraps around. *)
Definition int64 (z : Z) : Prop := (- 2 ^ 63 ≤ z < 2 ^ 63)%Z.

Definition wrap64 (z : Z) : Z := ((z + 2 ^ 63) mod 2 ^ 64 - 2 ^ 63)%Z.

(** The sum of a list of integers. *)
Definition sum_Z (l : list Z) : Z := foldr Z.add 0 l.

Section LectureGroups.
Context {K : Type} `{EqDecision K}.
Variable key_text : K → string.

Definition row_key (r : section_row K) : option (Z * K) :=
  match GroupKey r with
  | Some group_id => Some (Level r, group_id)
  | None => None
  end.

(** The distinct keys, and the rows of one key. *)
Definition group_keys (sections_df : list (section_row K)) : list (Z * K) :=
  remove_dups (omap row_key sections_df).

Definition group_data (sections_df : list (section_row K)) (k : Z * K)
    : list (section_row K) :=
  filter (λ r, row_key r = Some k) sections_df.

(** [group_data['StudentCount'].sum()], a sum of 64-bit integers. *)
Definition total_students (group_data : list (section_row K)) : Z :=
  wrap64 (sum_Z (StudentCount <$> group_data)).

(** [safe_str(group_data['Courses'].iloc[0])], split into course ids. *)
Definition course_list (group_data : list (section_row K)) : list string :=
  parse_list (safe_str (match group_data with
                        | r :: _ => SectionCourses r
                        | [] => None
                        end)).

(** [f"{level}_{group_id}"] *)
Definition group_name_of (k : Z * K) : string :=
  (pretty k.1 ++ "_" ++ key_text k.2)%string.

Definition csp2_group (sections_df : list (section_row K)) (k : Z * K)
    : Csp2.lecture_group :=
  let group_data := group_data sections_df k in
  {| Csp2.g_group_name := group_name_of k;
     Csp2.g_year := k.1;
     Csp2.g_students := total_students group_data;
     Csp2.g_courses := course_list group_data |}.

Definition csp2_lecture_groups (arrange : list (Z * K) → list (Z * K))
    (sections_df : list (section_row K)) : list Csp2.lecture_group :=
  csp2_group sections_df <$> arrange (group_keys sections_df).

(** [f"(Sec {', '.join(sec_ids)})"], [SectionID] being the text that
    [astype(str)] gives. *)
Definition section_display_name_of (group_data : list (section_row K))
    : string :=
  ("(Sec " ++ String.concat ", " (SectionID <$> group_data) ++ ")")%string.

Definition streamlit_group (sections_df : list (section_row K)) (k : Z * K)
    : StreamlitApp.lecture_group :=
  let group_data := group_data sections_df k in
  {| StreamlitApp.g_group_name := group_name_of k;
     StreamlitApp.g_section_display_name := section_display_name_of group_data;
     StreamlitApp.g_year := k.1;
     StreamlitApp.g_students := total_students group_data;
     StreamlitApp.g_courses := course_list group_data |}.

Definition streamlit_lecture_groups (arrange : list (Z * K) → list (Z * K))
    (sections_df : list (section_row K)) : list StreamlitApp.lecture_group :=
  streamlit_group sections_df <$> arrange (group_keys sections_df).

End LectureGroups.

(** A sheet whose column [Group] holds integers. *)
Module GroupExamples.
Definition sections : list (section_row Z) :=
  [ {| Level := 1; GroupKey := Some 1; SectionID := "1";
       StudentCount := 20; SectionCourses := Some "CS101, MTH101" |};
    {| Level := 1; GroupKey := Some 1; SectionID := "2";
       StudentCount := 15; SectionCourses := Some "CS101, MTH101" |};
    {| Level := 3; GroupKey := Some 2; SectionID := "7";
       StudentCount := 30; SectionCourses := Some "AI301" |} ].
Definition key_text (group_id : Z) : string := pretty group_id.
Definition arrange (keys : list (Z * Z)) : list (Z * Z) := keys.
Definition lecture_groups : list Csp2.lecture_group :=
  [ {| Csp2.g_group_name := "1_1"; Csp2.g_year := 1; Csp2.g_students := 35;
       Csp2.g_courses := ["CS101"; "MTH101"] |};
    {| Csp2.g_group_name := "3_2"; Csp2.g_year := 3; Csp2.g_students := 30;
       Csp2.g_courses := ["AI301"] |} ].
End GroupExamples.

(** ** The result rows of [export_results] and [format_results]

    Only the rows are modelled; writing them to a file or a data frame is
    not. *)
Record solution_row := {
  out_Course : string;
  out_Group : string;
  out_Year : Z;
  out_Students : Z;
  out_Day : string;
  out_Start : string;
  out_End : string;
  out_Room : string;
  out_Instructor : string;
  out_InstructorQualified : bool;
  out_TimeslotIsPreferred : bool;
  out_Type : option string
}.

Record failure_row := {
  fail_Course : string;
  fail_Group : string;
  fail_Year : Z;
  fail_Students : Z
}.

(** [timeslot_info.get(t, {"day": "N/A", "start": "N/A", "end": "N/A"})] *)
Definition timeslot_or_NA (timeslot_info : dict timeslot_entry) (t : string)
    : timeslot_entry :=
  default {| ts_day := "N/A"; ts_start := "N/A"; ts_end := "N/A" |}
    (dict_get timeslot_info t).

(** [instructors.get(instr_id, {}).get("name", "N/A")] *)
Definition instructor_name_or_NA (instructors : dict instructor_info)
    (instr_id : string) : string :=
  match dict_get instructors instr_id with
  | Some i_info => i_name i_info
  | None => "N/A"
  end.

(** The row that [export_results] of [csp2.py] appends for one item of
    [assigned]; it has the columns Section and no column Type. *)
Definition export_row (timeslot_info : dict timeslot_entry)
    (instructors : dict instructor_info) (v : Csp2.LectureVar) (val : opt)
    : solution_row :=
  let '(t, r, instr_id, qual, pref) := val in
  let info := timeslot_or_NA timeslot_info t in
  let instr_name := instructor_name_or_NA instructors instr_id in
  {| out_Course := Csp2.course v; out_Group := Csp2.section v;
     out_Year := Csp2.year v; out_Students := Csp2.students v;
     out_Day := ts_day info; out_Start := ts_start info;
     out_End := ts_end info; out_Room := r; out_Instructor := instr_name;
     out_InstructorQualified := qual; out_TimeslotIsPreferred := pref;
     out_Type := None |}.

(** The row that [format_results] of [streamlit_app_v4.py] appends. *)
Definition format_row (timeslot_info : dict timeslot_entry)
    (instructors : dict instructor_info) (courses : gmap string course_info)
    (v : StreamlitApp.LectureVar) (val : opt) : solution_row :=
  let '(t, r, instr_id, qual, pref) := val in
  let info := timeslot_or_NA timeslot_info t in
  let instr_name := instructor_name_or_NA instructors instr_id in
  let ctype := match courses !! StreamlitApp.course v with
               | Some course_info => c_type course_info
               | None => "unknown"
               end in
  {| out_Course := StreamlitApp.course v;
     out_Group := StreamlitApp.section_display_name v;
     out_Year := StreamlitApp.year v; out_Students := StreamlitApp.students v;
     out_Day := ts_day info; out_Start := ts_start info;
     out_End := ts_end info; out_Room := r; out_Instructor := instr_name;
     out_InstructorQualified := qual; out_TimeslotIsPreferred := pref;
     out_Type := Some ctype |}.

(** The rows of the failed assignments, in the order of the failed list. *)
Definition export_failed_rows (failed : list Csp2.LectureVar)
    : list failure_row :=
  (λ v, {| fail_Course := Csp2.course v; fail_Group := Csp2.section v;
           fail_Year := Csp2.year v; fail_Students := Csp2.students v |})
    <$> failed.

Definition format_failed_rows (failed : list StreamlitApp.LectureVar)
    : list failure_row :=
  (λ v, {| fail_Course := StreamlitApp.course v;
           fail_Group := StreamlitApp.section_display_name v;
           fail_Year := StreamlitApp.year v;
           fail_Students := StreamlitApp.students v |})
    <$> failed.

(** The run from the sheets of the courses, instructors, rooms and
    timeslots and from the lecture groups up to the solver, as [main] and
    the button handler of the web application chain the functions.  [main]
    returns early, writing nothing, when the Courses sheet is empty or no
    variable was made; these returns are not modelled. *)
Definition csp2_run
    (courses_df : list course_row) (instructors_df : list instructor_row)
    (rooms_df : list room_row) (timeslots_df : list timeslot_row)
    (lecture_groups : list Csp2.lecture_group)
    : gmap Csp2.LectureVar opt * list Csp2.LectureVar :=
  let courses := preprocess_courses courses_df in
  let instructors := preprocess_instructors instructors_df in
  let rooms := preprocess_rooms rooms_df in
  let timeslots := (preprocess_timeslots timeslots_df).1 in
  let vd :=
    Csp2.build_vars_domains courses instructors rooms timeslots lecture_groups in
  Csp2.solve_timetable vd.1 vd.2.

Definition streamlit_run (shuffle : nat → list opt → list opt)
    (courses_df : list course_row) (instructors_df : list instructor_row)
    (rooms_df : list room_row) (timeslots_df : list timeslot_row)
    (lecture_groups : list StreamlitApp.lecture_group)
    : gmap StreamlitApp.LectureVar opt * list StreamlitApp.LectureVar :=
  let courses := preprocess_courses courses_df in
  let instructors := preprocess_instructors instructors_df in
  let rooms := preprocess_rooms rooms_df in
  let timeslots := (preprocess_timeslots timeslots_df).1 in
  let vd :=
    StreamlitApp.build_vars_domains shuffle courses instructors rooms
      timeslots lecture_groups in
  StreamlitApp.solve_timetable vd.1 vd.2.

Module RunExamples.
Definition courses_df : list course_row :=
  [ {| CourseID := Some "CS101"; CourseName := Some "Programming";
       CourseType := Some "Lecture" |};
    {| CourseID := Some "MTH101"; CourseName := Some "Calculus";
       CourseType := Some "Lecture" |} ].
Definition instructors_df : list instructor_row :=
  [ {| InstructorID := Some "I1"; InstructorName := Some "Ada";
       QualifiedCourses := Some "CS101, MTH101";
       preferred_slots := Some "T2" |} ].
Definition rooms_df : list room_row :=
  [ {| RoomID := Some "R1"; RoomType := Some "Classroom";
       Capacity := Some 40 |} ].
Definition timeslots_df : list timeslot_row :=
  [ {| TimeSlotID := Some "T1"; Day := Some "Sunday";
       StartTime := Some "09:00"; EndTime := Some "10:30" |};
    {| TimeSlotID := Some "T2"; Day := Some "Sunday";
       StartTime := Some "10:45"; EndTime := Some "12:15" |} ].
Definition v0 : Csp2.LectureVar := Csp2.new_LectureVar 0 "CS101" "1_1" 1 35.
Definition val0 : opt := ("T2", "R1", "I1", true, true).
End RunExamples.

(** * Properties *)

(** ** Strings and room compatibility *)

Lemma or_empty_Some s : or_empty (Some s) = s.
Proof.
  unfold or_empty. destruct (String.eqb_spec s ""); congruence.
Qed.

Lemma contains_empty pat :
  pat ≠ "" → contains pat "" = false.
Proof. destruct pat; [congruence | reflexivity]. Qed.

Lemma compatible_room_strings c r :
  compatible_room (Some c) (Some r) =
  (signals_lab c && signals_lab r)
  || (signals_lec c
      && (signals_classroom r || signals_hall r || signals_theater r))
  || (signals_lab c
      && (signals_classroom r || signals_hall r || signals_theater r))
  || (signals_classroom r || signals_hall r).
Proof.
  unfold compatible_room, signals_lab, signals_lec, signals_classroom,
    signals_hall, signals_theater, signals.
  rewrite !or_empty_Some.
  destruct (contains "lab" (lower c)), (contains "lab" (lower r)),
    (contains "lec" (lower c)), (contains "classroom" (lower r)),
    (contains "hall" (lower r)), (contains "theater" (lower r)); reflexivity.
Qed.

Lemma string_app_cons a s t : (String a s ++ t)%string = String a (s ++ t)%string.
Proof. reflexivity. Qed.

Lemma prefix_spec pat s :
  String.prefix pat s = true ↔ ∃ post, s = (pat ++ post)%string.
Proof.
  revert s. induction pat as [|a pat IH]; intros s.
  - split; [by exists s|]. by destruct s.
  - destruct s as [|b s]; cbn [String.prefix].
    + split; [done|]. by intros [post ?].
    + destruct (ascii_dec a b) as [->|Hab].
      * rewrite IH. split; intros [post Hs]; exists post.
        -- rewrite string_app_cons. by rewrite <- Hs.
        -- rewrite string_app_cons in Hs. by injection Hs.
      * split; [done|]. intros [post Hs]. rewrite string_app_cons in Hs.
        injection Hs as Hba _. by destruct Hab.
Qed.

Lemma contains_cons pat a s :
  contains pat (String a s)
  = if String.prefix pat (String a s) then true else contains pat s.
Proof. reflexivity. Qed.

(** [pat in s]: [s] holds [pat] as a run of consecutive characters. *)
Lemma contains_spec pat s :
  contains pat s = true ↔ ∃ pre post, s = (pre ++ pat ++ post)%string.
Proof.
  split.
  - induction s as [|a s IH].
    + cbn [contains]. destruct (String.prefix pat "") eqn:Hp; [|done].
      intros _. apply prefix_spec in Hp as [post Hs]. by exists "", post.
    + rewrite contains_cons.
      destruct (String.prefix pat (String a s)) eqn:Hp.
      * intros _. apply prefix_spec in Hp as [post Hs]. by exists "", post.
      * intros Hc. destruct (IH Hc) as (pre & post & ->).
        by exists (String a pre), post.
  - intros (pre & post & ->). induction pre as [|a pre IH].
    + assert (String.prefix pat (pat ++ post) = true) as Hp
        by (apply prefix_spec; by exists post).
      change ("" ++ pat ++ post)%string with (pat ++ post)%string.
      destruct (pat ++ post)%string; [cbn [contains]|rewrite contains_cons];
        by rewrite Hp.
    + rewrite string_app_cons, contains_cons.
      by destruct (String.prefix _ _).
Qed.

(** [str.lower()] on the ASCII letters and their neighbours. *)
Example lower_folds_ascii_letters :
  lower "AZ az @[`{ 09 LECTURE Hall" = "az az @[`{ 09 lecture hall".
Proof. reflexivity. Qed.

(** C5.  [compatible_room] on two strings is the five-rule first-match
    cascade in which a course signals lecture when its lower-cased category
    holds "lec", and a category signals any other word when its lower-cased
    text holds that word as a run of consecutive characters.  The verdict
    depends on the two categories only through their lower-cased text.  A
    room that signals only theater is incompatible with a course that
    signals neither lab nor "lec".  A category that holds the word lecture
    holds "lec", and for a course on which the two tests agree the cascade
    read with the word lecture gives the verdict of the code as well. *)
Theorem compatible_room_is_cascade :
  (∀ c r : string,
     compatible_cascade c r
     = Some (verdict_of_bool (compatible_room (Some c) (Some r))))
  ∧ (∀ word category : string,
       signals word category = true
       ↔ ∃ pre post, lower category = (pre ++ word ++ post)%string)
  ∧ (∀ c c' r r' : string,
       lower c = lower c' → lower r = lower r' →
       compatible_room (Some c) (Some r) = compatible_room (Some c') (Some r'))
  ∧ (∀ c r : string,
       signals_theater r = true →
       signals_classroom r = false → signals_hall r = false →
       signals_lec c = false → signals_lab c = false →
       compatible_room (Some c) (Some r) = false)
  ∧ (∀ c : string, signals_lecture c = true → signals_lec c = true)
  ∧ (∀ c r : string,
       signals_lecture c = signals_lec c →
       compatible_spec c r
       = Some (verdict_of_bool (compatible_room (Some c) (Some r)))).
Proof.
  assert (∀ c r : string,
     compatible_cascade c r
     = Some (verdict_of_bool (compatible_room (Some c) (Some r)))) as Hcascade.
  { intros c r. rewrite compatible_room_strings.
    unfold compatible_cascade, cascade_rules, first_match.
    destruct (signals_lab c), (signals_lab r), (signals_lec c),
      (signals_classroom r), (signals_hall r), (signals_theater r);
      reflexivity. }
  split; [exact Hcascade|]. split; [|split; [|split; [|split]]].
  - intros word category. unfold signals. apply contains_spec.
  - intros c c' r r' Hc Hr. rewrite !compatible_room_strings.
    unfold signals_lab, signals_lec, signals_classroom, signals_hall,
      signals_theater, signals.
    by rewrite Hc, Hr.
  - intros c r _ Hcl Hh Hlec Hlab. rewrite compatible_room_strings.
    by rewrite Hcl, Hh, Hlec, Hlab.
  - intros c. unfold signals_lecture, signals_lec, signals.
    rewrite !contains_spec. intros (pre & post & ->).
    by exists pre, ("ture" ++ post)%string.
  - intros c r Hsame. rewrite <- Hcascade.
    unfold compatible_spec, compatible_cascade, cascade_rules, first_match.
    by rewrite Hsame.
Qed.

Lemma compatible_room_is_cascade_witness :
  compatible_room (Some "LECTURE") (Some "Lecture Hall")
  = compatible_room (Some "lecture") (Some "lecture hall")
  ∧ compatible_room (Some "Seminar") (Some "Theater") = false
  ∧ signals_lec "Lecture" = true
  ∧ compatible_spec "Lecture" "Theater" = Some Compatible.
Proof.
  destruct compatible_room_is_cascade
    as (_ & _ & Hlower & Htheater & Hword & Hspec).
  split; [|split; [|split]].
  - apply Hlower; reflexivity.
  - apply Htheater; reflexivity.
  - apply Hword; reflexivity.
  - apply (Hspec "Lecture" "Theater"); reflexivity.
Defined.

(** C5, as the specification words it, fails on a course whose category
    holds "lec" outside the word lecture: an elective signals neither
    lecture nor lab and a theater signals only theater, so the cascade of
    the specification gives incompatible, yet [compatible_room] accepts the
    pair. *)
Lemma elective_in_theater_compatible :
  signals_theater "theater" = true
  ∧ signals_classroom "theater" = false
  ∧ signals_hall "theater" = false
  ∧ signals_lab "theater" = false
  ∧ signals_lecture "elective" = false
  ∧ signals_lab "elective" = false
  ∧ compatible_spec "elective" "theater" = Some Incompatible
  ∧ compatible_room (Some "elective") (Some "theater") = true.
Proof. repeat split; reflexivity. Qed.

(** C10. [compatible_room] is total on [None]: [None] is read as the empty
    string, so a missing room category is never compatible and a missing
    course category is compatible exactly with rooms that signal classroom
    or hall. *)
Theorem compatible_room_None :
  (∀ r : option string,
     compatible_room None r = compatible_room (Some "") r)
  ∧ (∀ c : option string,
       compatible_room c None = compatible_room c (Some ""))
  ∧ (∀ c : option string, compatible_room c None = false)
  ∧ (∀ r : string,
       compatible_room None (Some r) = signals_classroom r || signals_hall r).
Proof.
  split; [|split; [|split]].
  - reflexivity.
  - reflexivity.
  - intros c. unfold compatible_room. cbn [or_empty lower].
    rewrite !contains_empty by discriminate.
    by rewrite !andb_false_r.
  - intros r. unfold compatible_room, signals_classroom, signals_hall, signals.
    rewrite or_empty_Some. cbn [or_empty lower].
    rewrite !contains_empty by discriminate. cbn [andb].
    by destruct (contains "classroom" (lower r) || contains "hall" (lower r)).
Qed.

(** ** The course map *)

Lemma courses_step_keeps_lecture (courses : gmap string course_info) r cid info :
  courses !! cid = Some info → c_type info = "lecture" →
  courses_step courses r !! cid = Some info.
Proof.
  intros Hget Hty. unfold courses_step.
  destruct (String.eqb (safe_str (CourseID r)) ""); [done|].
  destruct (decide (safe_str (CourseID r) = cid)) as [->|Hne].
  - rewrite Hget, Hty. done.
  - destruct (courses !! safe_str (CourseID r)) as [info'|].
    + destruct (String.eqb (c_type info') "lecture"); [done|].
      by rewrite lookup_insert_ne.
    + by rewrite lookup_insert_ne.
Qed.

Lemma fold_courses_step_keeps_lecture rows (courses : gmap string course_info) cid info :
  courses !! cid = Some info → c_type info = "lecture" →
  fold_left courses_step rows courses !! cid = Some info.
Proof.
  revert courses. induction rows as [|r rows IH]; intros courses Hget Hty.
  - done.
  - cbn [fold_left]. apply IH; [|done].
    by apply courses_step_keeps_lecture.
Qed.

(** C9. Once the course map holds the category "lecture" for a course id,
    no later row with that id changes the stored name or category: the
    entry after any further rows is the entry that was there. *)
Theorem first_lecture_wins (rows later : list course_row) cid info :
  preprocess_courses rows !! cid = Some info →
  c_type info = "lecture" →
  preprocess_courses (rows ++ later) !! cid = Some info.
Proof.
  intros Hget Hty. unfold preprocess_courses in *.
  rewrite fold_left_app. by apply fold_courses_step_keeps_lecture.
Qed.

Lemma first_lecture_wins_witness :
  preprocess_courses (Examples.course_rows ++ Examples.course_rows_later)
    !! "CNC311"
  = Some {| c_name := "Networks"; c_type := "lecture" |}.
Proof.
  apply first_lecture_wins; reflexivity.
Defined.

(** ** Sorting *)

Section SortFacts.
Context {A : Type} (le : A → A → bool).

Lemma insert_sorted_perm x l : insert_sorted le x l ≡ₚ x :: l.
Proof.
  induction l as [|y l IH]; cbn [insert_sorted]; [done|].
  destruct (le x y); [done|].
  rewrite IH. apply perm_swap.
Qed.

Lemma sorted_perm l : sorted le l ≡ₚ l.
Proof.
  induction l as [|x l IH]; [done|].
  unfold sorted in *. cbn [foldr]. rewrite insert_sorted_perm.
  by constructor.
Qed.

Hypothesis le_total : ∀ a b, le a b = false → le b a = true.
Hypothesis le_trans : ∀ a b c, le a b = true → le b c = true → le a c = true.

Lemma insert_sorted_sorted x l :
  StronglySorted (λ a b, le a b = true) l →
  StronglySorted (λ a b, le a b = true) (insert_sorted le x l).
Proof.
  induction 1 as [|y l Hl IH Hy]; cbn [insert_sorted].
  - repeat constructor.
  - destruct (le x y) eqn:Hxy.
    + constructor; [by constructor|].
      constructor; [done|].
      eapply Forall_impl; [exact Hy|]. intros z Hz. by eapply le_trans.
    + constructor; [done|].
      rewrite insert_sorted_perm. constructor; [|done].
      by apply le_total.
Qed.

Lemma sorted_sorted l : StronglySorted (λ a b, le a b = true) (sorted le l).
Proof.
  induction l as [|x l IH]; [constructor|].
  unfold sorted in *. cbn [foldr]. by apply insert_sorted_sorted.
Qed.
End SortFacts.

Lemma StronglySorted_mono {A} (R1 R2 : A → A → Prop) l :
  (∀ a b, R1 a b → R2 a b) → StronglySorted R1 l → StronglySorted R2 l.
Proof.
  intros HR. induction 1 as [|x l Hl IH Hx]; constructor; [done|].
  eapply Forall_impl; [exact Hx|]. auto.
Qed.

Lemma lex_le_total a b : lex_le a b = false → lex_le b a = true.
Proof.
  destruct a as [a1 a2], b as [b1 b2]. unfold lex_le. cbn [fst snd].
  rewrite !orb_false_iff, andb_false_iff, orb_true_iff, andb_true_iff.
  rewrite !Z.ltb_ge, !Z.ltb_lt, !Z.eqb_eq, Z.eqb_neq, Z.leb_gt, Z.leb_le. lia.
Qed.

Lemma lex_le_trans a b c :
  lex_le a b = true → lex_le b c = true → lex_le a c = true.
Proof.
  destruct a as [a1 a2], b as [b1 b2], c as [c1 c2]. unfold lex_le.
  cbn [fst snd].
  rewrite !orb_true_iff, !andb_true_iff, !Z.ltb_lt, !Z.eqb_eq, !Z.leb_le. lia.
Qed.

Lemma flags_le_total a b : flags_le a b = false → flags_le b a = true.
Proof. by destruct a as [[] []], b as [[] []]. Qed.

Lemma flags_le_trans a b c :
  flags_le a b = true → flags_le b c = true → flags_le a c = true.
Proof. by destruct a as [[] []], b as [[] []], c as [[] []]. Qed.

Lemma sorted_by_flags_perm dom : sorted_by_flags dom ≡ₚ dom.
Proof. apply sorted_perm. Qed.

Lemma sorted_by_flags_sorted dom :
  StronglySorted flags_descending (sorted_by_flags dom).
Proof.
  unfold sorted_by_flags, flags_descending.
  apply (sorted_sorted (λ x y, flags_le (opt_key y) (opt_key x))).
  - intros a b. apply flags_le_total.
  - intros a b c Hab Hbc. by eapply flags_le_trans.
Qed.

Section SortedVars.
Context {V : Type} `{Countable V}.
Variable v_students : V → Z.

Lemma sorted_vars_perm (variables : list V) domains :
  sorted_vars v_students variables domains ≡ₚ variables.
Proof. apply sorted_perm. Qed.

Lemma sorted_vars_sorted (variables : list V) domains :
  StronglySorted (before_as_sorted v_students domains)
    (sorted_vars v_students variables domains).
Proof.
  eapply StronglySorted_mono; [|apply sorted_sorted].
  - intros a b. unfold lex_le, var_key, before_as_sorted. cbn [fst snd].
    rewrite orb_true_iff, andb_true_iff, Z.ltb_lt, Z.eqb_eq, Z.leb_le. lia.
  - intros a b. apply lex_le_total.
  - intros a b c. apply lex_le_trans.
Qed.
End SortedVars.

(** C4 (as the code has it). [solve_timetable] sorts the variables once,
    before the pass, and runs the pass over the sorted list; the sorted
    list is a rearrangement of the input, descending by student count and,
    among equal student counts, ascending by domain size. *)
Theorem variables_sorted_once :
  (∀ (variables : list Csp2.LectureVar) domains,
     Csp2.solve_state variables domains
     = run Csp2.section sorted_by_flags domains
         (sorted_vars Csp2.students variables domains) initial_state
     ∧ sorted_vars Csp2.students variables domains ≡ₚ variables
     ∧ StronglySorted (before_as_sorted Csp2.students domains)
         (sorted_vars Csp2.students variables domains))
  ∧ (∀ (variables : list StreamlitApp.LectureVar) domains,
       StreamlitApp.solve_state variables domains
       = run StreamlitApp.group_name (λ dom, dom) domains
           (sorted_vars StreamlitApp.students variables domains) initial_state
       ∧ sorted_vars StreamlitApp.students variables domains ≡ₚ variables
       ∧ StronglySorted (before_as_sorted StreamlitApp.students domains)
           (sorted_vars StreamlitApp.students variables domains)).
Proof.
  split; intros variables domains.
  - split; [reflexivity|]. split; [apply sorted_vars_perm|apply sorted_vars_sorted].
  - split; [reflexivity|]. split; [apply sorted_vars_perm|apply sorted_vars_sorted].
Qed.

(** C4, counterexample.  Two variables of 30 students, the first with two
    options and the second with one: the sort puts the one with the smaller
    domain first, so the list is not descending by domain size. *)
Lemma variables_not_sorted_as_specified :
  sorted_vars Csp2.students [Examples.C.va; Examples.C.vb] Examples.C.domains
  = [Examples.C.vb; Examples.C.va]
  ∧ ¬ StronglySorted (before_as_specified Csp2.students Examples.C.domains)
        (sorted_vars Csp2.students [Examples.C.va; Examples.C.vb]
           Examples.C.domains).
Proof.
  split; [reflexivity|].
  intros Hs. apply StronglySorted_inv in Hs as [_ Hs].
  apply Forall_inv in Hs. unfold before_as_specified in Hs.
  vm_compute in Hs. destruct Hs as [Hs|[_ Hs]]; [discriminate|lia].
Qed.

(** ** The per-variable step *)

Section StepFacts.
Context {V : Type} `{Countable V}.
Variable v_group : V → string.
Variable order_domain : list opt → list opt.

Local Abbreviation commit_v := (commit v_group).
Local Abbreviation scan := (scan_domain v_group).
Local Abbreviation clears_v := (clears v_group).
Local Abbreviation step := (process_var v_group order_domain).
Local Abbreviation pass := (run v_group order_domain).
Local Abbreviation booked_v := (booked v_group).

(** The loop stops at the first option that clears the checks. *)
Lemma scan_domain_find (st : state V) v options :
  scan st v options =
  match find (clears_v st v) options with
  | Some o => (commit_v st v o, true)
  | None => (st, false)
  end.
Proof.
  induction options as [|o rest IH]; [done|].
  destruct o as [[[[t r] i] q] p].
  cbn [scan_domain find]. unfold clears at 1.
  cbn [opt_t opt_r opt_instr].
  repeat (case_bool_decide; cbn [negb andb]; [exact IH|]).
  done.
Qed.

Lemma process_var_empty domains (st : state V) v :
  domain_of domains v = [] → step domains st v = record_failed st v.
Proof. unfold process_var. by intros ->. Qed.

Lemma process_var_find domains (st : state V) v :
  domain_of domains v ≠ [] →
  step domains st v =
  match find (clears_v st v) (order_domain (domain_of domains v)) with
  | Some o => commit_v st v o
  | None => record_failed st v
  end.
Proof.
  intros Hne. unfold process_var.
  destruct (domain_of domains v) as [|o dom] eqn:Hdom; [done|].
  rewrite scan_domain_find.
  by destruct (find _ _).
Qed.

(** What one step does, in every case. *)
Lemma process_var_cases domains (st : state V) v :
  step domains st v = record_failed st v
  ∨ ∃ o, o ∈ order_domain (domain_of domains v)
         ∧ domain_of domains v ≠ []
         ∧ clears_v st v o = true
         ∧ step domains st v = commit_v st v o.
Proof.
  destruct (domain_of domains v) as [|o0 dom] eqn:Hdom.
  - left. by apply process_var_empty.
  - rewrite process_var_find by (rewrite Hdom; done).
    rewrite Hdom.
    destruct (find _ _) as [o|] eqn:Hfind; [|by left].
    right. exists o. apply find_some in Hfind as [Hin Hcl].
    split; [by apply list_elem_of_In|]. done.
Qed.

Lemma assigned_commit (st : state V) v o :
  assigned (commit_v st v o) = <[v := o]> (assigned st).
Proof. by destruct o as [[[[t r] i] q] p]. Qed.

Lemma failed_commit (st : state V) v o :
  failed_assignments (commit_v st v o) = failed_assignments st.
Proof. by destruct o as [[[[t r] i] q] p]. Qed.

Lemma used_room_commit (st : state V) v o :
  used_room_ts (commit_v st v o)
  = ({[ (opt_t o, opt_r o) ]} ∪ used_room_ts st).
Proof. by destruct o as [[[[t r] i] q] p]. Qed.

Lemma used_instr_commit (st : state V) v o :
  used_instr_ts (commit_v st v o)
  = ({[ (opt_t o, opt_instr o) ]} ∪ used_instr_ts st).
Proof. by destruct o as [[[[t r] i] q] p]. Qed.

Lemma used_section_commit (st : state V) v o :
  used_section_ts (commit_v st v o)
  = ({[ (opt_t o, v_group v) ]} ∪ used_section_ts st).
Proof. by destruct o as [[[[t r] i] q] p]. Qed.

Lemma clears_true (st : state V) v o :
  clears_v st v o = true ↔
  ((opt_t o, opt_r o) ∉ used_room_ts st)
  ∧ ((opt_t o, opt_instr o) ∉ used_instr_ts st)
  ∧ ((opt_t o, v_group v) ∉ used_section_ts st).
Proof.
  unfold clears.
  rewrite !andb_true_iff, !negb_true_iff, !bool_decide_eq_false. tauto.
Qed.

(** *** No double booking *)

Lemma booked_initial : booked_v initial_state.
Proof. split; intros *; cbn; by rewrite ?lookup_empty. Qed.

Lemma booked_record_failed st v : booked_v st → booked_v (record_failed st v).
Proof. done. Qed.

Lemma booked_commit st v o :
  clears_v st v o = true → booked_v st → booked_v (commit_v st v o).
Proof.
  rewrite clears_true. intros (Hr & Hi & Hg) [Hused Hcl]. split.
  - intros w o' Hw. rewrite assigned_commit in Hw.
    rewrite used_room_commit, used_instr_commit, used_section_commit.
    rewrite !elem_of_union, !elem_of_singleton.
    destruct (decide (w = v)) as [->|Hne].
    + rewrite lookup_insert_eq in Hw. injection Hw as <-. auto.
    + rewrite lookup_insert_ne in Hw by done.
      pose proof (Hused _ _ Hw) as (? & ? & ?). auto.
  - intros v1 v2 o1 o2 Hne H1 H2. rewrite assigned_commit in H1, H2.
    destruct (decide (v1 = v)) as [->|Hne1];
      destruct (decide (v2 = v)) as [->|Hne2]; [done| | |].
    + rewrite lookup_insert_eq in H1. injection H1 as <-.
      rewrite lookup_insert_ne in H2 by done.
      pose proof (Hused _ _ H2) as (? & ? & ?).
      unfold no_clash. repeat split; congruence.
    + rewrite lookup_insert_eq in H2. injection H2 as <-.
      rewrite lookup_insert_ne in H1 by done.
      pose proof (Hused _ _ H1) as (? & ? & ?).
      unfold no_clash. repeat split; congruence.
    + rewrite lookup_insert_ne in H1, H2 by done. by eapply Hcl.
Qed.

Lemma booked_process_var domains st v :
  booked_v st → booked_v (step domains st v).
Proof.
  intros Hb. destruct (process_var_cases domains st v)
    as [->|(o & _ & _ & Hcl & ->)].
  - by apply booked_record_failed.
  - by apply booked_commit.
Qed.

Lemma booked_run domains vs st : booked_v st → booked_v (pass domains vs st).
Proof.
  revert st. induction vs as [|v vs IH]; intros st Hb; [done|].
  cbn [run fold_left]. apply IH. by apply booked_process_var.
Qed.
End StepFacts.

Section PassFacts.
Context {V : Type} `{Countable V}.
Variable v_group : V → string.
Variable order_domain : list opt → list opt.

Local Abbreviation commit_v := (commit v_group).
Local Abbreviation scan := (scan_domain v_group).
Local Abbreviation clears_v := (clears v_group).
Local Abbreviation step := (process_var v_group order_domain).
Local Abbreviation pass := (run v_group order_domain).
Local Abbreviation booked_v := (booked v_group).

(** *** Coverage *)

Lemma process_var_classifies domains (st : state V) v :
  is_Some (assigned (step domains st v) !! v)
  ∨ v ∈ failed_assignments (step domains st v).
Proof.
  destruct (process_var_cases v_group order_domain domains st v)
    as [->|(o & _ & _ & _ & ->)].
  - right. cbn [record_failed assigned failed_assignments]. apply elem_of_app. right. by apply list_elem_of_singleton.
  - left. rewrite assigned_commit, lookup_insert_eq. by eexists.
Qed.

Lemma process_var_keeps domains (st : state V) v w :
  is_Some (assigned st !! w) ∨ w ∈ failed_assignments st →
  is_Some (assigned (step domains st v) !! w)
  ∨ w ∈ failed_assignments (step domains st v).
Proof.
  intros Hw.
  destruct (process_var_cases v_group order_domain domains st v)
    as [->|(o & _ & _ & _ & ->)].
  - destruct Hw as [Hw|Hw]; [by left|].
    right. cbn [record_failed assigned failed_assignments]. apply elem_of_app. by left.
  - rewrite assigned_commit, failed_commit.
    destruct Hw as [Hw|Hw]; [|by right].
    left. rewrite lookup_insert. by case_decide.
Qed.

Lemma run_keeps domains vs (st : state V) w :
  is_Some (assigned st !! w) ∨ w ∈ failed_assignments st →
  is_Some (assigned (pass domains vs st) !! w)
  ∨ w ∈ failed_assignments (pass domains vs st).
Proof.
  revert st. induction vs as [|v vs IH]; intros st Hw; [done|].
  cbn [run fold_left]. apply IH. by apply process_var_keeps.
Qed.

Lemma run_classifies domains vs (st : state V) v :
  v ∈ vs →
  is_Some (assigned (pass domains vs st) !! v)
  ∨ v ∈ failed_assignments (pass domains vs st).
Proof.
  revert st. induction vs as [|w vs IH]; intros st Hv.
  - by apply elem_of_nil in Hv.
  - cbn [run fold_left].
    apply elem_of_cons in Hv as [->|Hv].
    + apply run_keeps, process_var_classifies.
    + by apply IH.
Qed.

Lemma classified_once_weaken (seen seen' : list V) st :
  (∀ v, v ∈ seen → v ∈ seen') →
  classified_once seen st → classified_once seen' st.
Proof. intros Hsub (Hd & Hx & Hn). split; [|done]. intros v Hv. auto. Qed.

Lemma classified_once_step domains (seen : list V) st v :
  v ∉ seen → classified_once seen st →
  classified_once (v :: seen) (step domains st v).
Proof.
  intros Hv (Hd & Hx & Hn).
  assert (assigned st !! v = None) as Hnone.
  { destruct (assigned st !! v) eqn:E; [|done].
    exfalso. apply Hv, Hd. left. by eexists. }
  assert (v ∉ failed_assignments st) as Hnf.
  { intros Hf. apply Hv, Hd. by right. }
  destruct (process_var_cases v_group order_domain domains st v)
    as [->|(o & _ & _ & _ & ->)].
  - unfold classified_once.
    cbn [record_failed assigned failed_assignments]. split; [|split].
    + intros w [Hw|Hw].
      * apply elem_of_cons. right. apply Hd. by left.
      * apply elem_of_app in Hw as [Hw|Hw].
        -- apply elem_of_cons. right. apply Hd. by right.
        -- apply list_elem_of_singleton in Hw as ->. by apply elem_of_cons; left.
    + intros w Hw Hf. apply elem_of_app in Hf as [Hf|Hf].
      * by apply (Hx w).
      * apply list_elem_of_singleton in Hf. subst w.
        rewrite Hnone in Hw. by destruct Hw.
    + apply NoDup_app. split; [done|]. split; [|apply NoDup_singleton].
      intros w Hw Hw'. by apply list_elem_of_singleton in Hw' as ->.
  - unfold classified_once. rewrite assigned_commit, failed_commit.
    split; [|split; [|done]].
    + intros w [Hw|Hw].
      * rewrite lookup_insert in Hw. case_decide as E.
        -- subst. by apply elem_of_cons; left.
        -- apply elem_of_cons. right. apply Hd. by left.
      * apply elem_of_cons. right. apply Hd. by right.
    + intros w Hw. rewrite lookup_insert in Hw. case_decide as E.
      * by subst.
      * by apply Hx.
Qed.

Lemma classified_once_run domains vs : ∀ (seen : list V) st,
  NoDup vs → (∀ v, v ∈ vs → v ∉ seen) →
  classified_once seen st →
  classified_once (vs ++ seen) (pass domains vs st).
Proof.
  induction vs as [|v vs IH]; intros seen st Hnd Hfresh Hc; [done|].
  apply NoDup_cons in Hnd as [Hv Hnd].
  cbn [run fold_left].
  eapply classified_once_weaken; last first.
  - apply (IH (v :: seen)); [done| |].
    + intros w Hw Hin. apply elem_of_cons in Hin as [->|Hin]; [done|].
      eapply Hfresh; [|done]. by apply elem_of_cons; right.
    + apply classified_once_step; [|done].
      apply Hfresh. by apply elem_of_cons; left.
  - intros w. rewrite !elem_of_app, !elem_of_cons. tauto.
Qed.

Lemma classified_once_initial : classified_once [] (initial_state (V:=V)).
Proof.
  split; [|split].
  - intros v [Hv|Hv]; cbn [record_failed assigned failed_assignments initial_state] in Hv.
    + rewrite lookup_empty in Hv. by destruct Hv.
    + by apply elem_of_nil in Hv.
  - intros v Hv. cbn [record_failed assigned failed_assignments initial_state] in Hv. rewrite lookup_empty in Hv. by destruct Hv.
  - apply NoDup_nil_2.
Qed.

(** Only processed variables are classified, whatever the input. *)
Lemma run_classified_in domains vs : ∀ (seen : list V) st,
  (∀ v, is_Some (assigned st !! v) ∨ v ∈ failed_assignments st → v ∈ seen) →
  ∀ v, is_Some (assigned (pass domains vs st) !! v)
       ∨ v ∈ failed_assignments (pass domains vs st) → v ∈ vs ++ seen.
Proof.
  induction vs as [|w vs IH]; intros seen st Hd v Hv; [by apply Hd|].
  cbn [run fold_left] in Hv.
  apply (IH (w :: seen)) in Hv.
  - revert Hv. rewrite !elem_of_app, !elem_of_cons. tauto.
  - clear v Hv. intros v Hv. apply elem_of_cons.
    destruct (process_var_cases v_group order_domain domains st w)
      as [E|(o & _ & _ & _ & E)]; rewrite E in Hv.
    + cbn [record_failed assigned failed_assignments initial_state] in Hv. destruct Hv as [Hv|Hv]; [right; apply Hd; by left|].
      apply elem_of_app in Hv as [Hv|Hv]; [right; apply Hd; by right|].
      apply list_elem_of_singleton in Hv. by left.
    + rewrite assigned_commit, failed_commit in Hv.
      destruct Hv as [Hv|Hv]; [|right; apply Hd; by right].
      rewrite lookup_insert in Hv. case_decide; [by left|].
      right. apply Hd. by left.
Qed.

(** *** Empty domains *)

Lemma assigned_have_options_step domains (st : state V) v :
  assigned_have_options domains st →
  assigned_have_options domains (step domains st v).
Proof.
  intros Hst w Hw.
  destruct (process_var_cases v_group order_domain domains st v)
    as [E|(o & _ & Hne & _ & E)]; rewrite E in Hw.
  - by apply Hst.
  - rewrite assigned_commit, lookup_insert in Hw.
    case_decide; [by subst|by apply Hst].
Qed.

Lemma assigned_have_options_run domains vs (st : state V) :
  assigned_have_options domains st →
  assigned_have_options domains (pass domains vs st).
Proof.
  revert st. induction vs as [|v vs IH]; intros st Hst; [done|].
  cbn [run fold_left]. by apply IH, assigned_have_options_step.
Qed.

Lemma failed_grows_step domains (st : state V) v w :
  w ∈ failed_assignments st →
  w ∈ failed_assignments (step domains st v).
Proof.
  intros Hw.
  destruct (process_var_cases v_group order_domain domains st v)
    as [->|(o & _ & _ & _ & ->)].
  - cbn [record_failed assigned failed_assignments]. apply elem_of_app. by left.
  - by rewrite failed_commit.
Qed.

Lemma failed_grows_run domains vs (st : state V) w :
  w ∈ failed_assignments st → w ∈ failed_assignments (pass domains vs st).
Proof.
  revert st. induction vs as [|v vs IH]; intros st Hw; [done|].
  cbn [run fold_left]. by apply IH, failed_grows_step.
Qed.

Lemma run_empty_domain_failed domains vs (st : state V) v :
  v ∈ vs → domain_of domains v = [] →
  v ∈ failed_assignments (pass domains vs st).
Proof.
  revert st. induction vs as [|w vs IH]; intros st Hv Hdom.
  - by apply elem_of_nil in Hv.
  - cbn [run fold_left].
    apply elem_of_cons in Hv as [->|Hv]; [|by apply IH].
    apply failed_grows_run.
    rewrite (process_var_empty v_group order_domain) by done.
    cbn [record_failed assigned failed_assignments]. apply elem_of_app. right. by apply list_elem_of_singleton.
Qed.
End PassFacts.

(** ** Which option is committed, and failures *)

Lemma find_first {A} (f : A → bool) (before : list A) (x : A) (after : list A) :
  Forall (λ y, f y = false) before → f x = true →
  find f (before ++ x :: after) = Some x.
Proof.
  induction 1 as [|y before Hy _ IH]; intros Hx; cbn [app find].
  - by rewrite Hx.
  - rewrite Hy. by apply IH.
Qed.

Lemma find_none {A} (f : A → bool) (l : list A) :
  (∀ x, x ∈ l → f x = false) → find f l = None.
Proof.
  induction l as [|y l IH]; intros Hall; [done|]. cbn [find].
  rewrite Hall by (by apply elem_of_cons; left).
  apply IH. intros x Hx. apply Hall. by apply elem_of_cons; right.
Qed.

Section ChoiceFacts.
Context {V : Type} `{Countable V}.
Variable v_group : V → string.
Variable order_domain : list opt → list opt.
Hypothesis order_domain_perm : ∀ dom, order_domain dom ≡ₚ dom.

Local Abbreviation commit_v := (commit v_group).
Local Abbreviation clears_v := (clears v_group).
Local Abbreviation step := (process_var v_group order_domain).
Local Abbreviation pass := (run v_group order_domain).

(** The first option of the scan order that clears the checks is the one
    committed. *)
Lemma step_commits_first domains (st : state V) v before o after :
  domain_of domains v ≠ [] →
  order_domain (domain_of domains v) = before ++ o :: after →
  Forall (λ x, clears_v st v x = false) before →
  clears_v st v o = true →
  step domains st v = commit_v st v o.
Proof.
  intros Hne Hsplit Hbefore Ho.
  rewrite (process_var_find v_group order_domain) by done.
  rewrite Hsplit. by rewrite find_first.
Qed.

(** When every option clashes the variable is recorded as failed and
    nothing else changes. *)
Lemma step_all_clash domains (st : state V) v :
  (∀ o, o ∈ domain_of domains v → clears_v st v o = false) →
  step domains st v = record_failed st v.
Proof.
  intros Hall.
  destruct (domain_of domains v) as [|o0 dom] eqn:Hdom.
  - by apply process_var_empty.
  - rewrite (process_var_find v_group order_domain) by (by rewrite Hdom).
    rewrite Hdom, find_none; [done|].
    intros x Hx. apply Hall. by rewrite <- (order_domain_perm (o0 :: dom)).
Qed.

(** An assignment is an option of the variable's domain. *)
Lemma step_assigned_in_domain domains (st : state V) v :
  (∀ w o, assigned st !! w = Some o → o ∈ domain_of domains w) →
  ∀ w o, assigned (step domains st v) !! w = Some o →
         o ∈ domain_of domains w.
Proof.
  intros Hst w o Hw.
  destruct (process_var_cases v_group order_domain domains st v)
    as [E|(o' & Hin & _ & _ & E)]; rewrite E in Hw.
  - by apply Hst.
  - rewrite assigned_commit, lookup_insert in Hw. case_decide.
    + subst w. injection Hw as <-. by rewrite <- (order_domain_perm _).
    + by apply Hst.
Qed.

Lemma pass_assigned_in_domain domains vs : ∀ (st : state V),
  (∀ w o, assigned st !! w = Some o → o ∈ domain_of domains w) →
  ∀ w o, assigned (pass domains vs st) !! w = Some o →
         o ∈ domain_of domains w.
Proof.
  induction vs as [|v vs IH]; intros st Hst; [done|].
  cbn [run fold_left]. by apply IH, step_assigned_in_domain.
Qed.
End ChoiceFacts.

Section FailureFacts.
Context {V : Type} `{Countable V}.
Variable v_group : V → string.
Variable order_domain : list opt → list opt.

Local Abbreviation commit_v := (commit v_group).
Local Abbreviation clears_v := (clears v_group).
Local Abbreviation step := (process_var v_group order_domain).
Local Abbreviation pass := (run v_group order_domain).

Lemma with_failed_same (st : state V) : with_failed (failed_assignments st) st = st.
Proof. by destruct st. Qed.

(** A step reads the list of failures only to append to it. *)
Lemma step_with_failed domains (st : state V) v :
  ∃ extra, ∀ f,
    step domains (with_failed f st) v
    = with_failed (f ++ extra) (step domains st v).
Proof.
  destruct (domain_of domains v) as [|o0 dom] eqn:Hdom.
  - exists [v]. intros f.
    by rewrite !(process_var_empty v_group order_domain).
  - assert (domain_of domains v ≠ []) as Hne by (by rewrite Hdom).
    destruct (find (clears_v st v) (order_domain (domain_of domains v)))
      as [o|] eqn:Hfind.
    + exists []. intros f.
      rewrite !(process_var_find v_group order_domain) by done.
      change (clears_v (with_failed f st) v) with (clears_v st v).
      rewrite Hfind, app_nil_r. by destruct o as [[[[t r] i] q] p].
    + exists [v]. intros f.
      rewrite !(process_var_find v_group order_domain) by done.
      change (clears_v (with_failed f st) v) with (clears_v st v).
      by rewrite Hfind.
Qed.

Lemma pass_with_failed domains vs : ∀ (st : state V),
  ∃ extra, ∀ f,
    pass domains vs (with_failed f st)
    = with_failed (f ++ extra) (pass domains vs st).
Proof.
  induction vs as [|v vs IH]; intros st.
  - exists []. intros f. by rewrite app_nil_r.
  - destruct (step_with_failed domains st v) as [e1 He1].
    destruct (IH (step domains st v)) as [e2 He2].
    exists (e1 ++ e2). intros f. cbn [run fold_left].
    fold (pass domains vs (step domains (with_failed f st) v)).
    fold (pass domains vs (step domains st v)).
    by rewrite He1, He2, app_assoc.
Qed.

(** The variables after a failed one are processed as if it had not been
    there: same assignments, same used sets, same later failures. *)
Lemma pass_after_failure domains later (st : state V) v :
  ∃ extra,
    failed_assignments (pass domains later st)
    = failed_assignments st ++ extra
    ∧ pass domains later (record_failed st v)
      = with_failed (failed_assignments st ++ [v] ++ extra)
          (pass domains later st).
Proof.
  destruct (pass_with_failed domains later st) as [extra Hextra].
  exists extra. split.
  - pose proof (Hextra (failed_assignments st)) as Hsame.
    rewrite with_failed_same in Hsame. by rewrite Hsame at 1.
  - change (record_failed st v)
      with (with_failed (failed_assignments st ++ [v]) st).
    by rewrite Hextra, <- app_assoc.
Qed.
End FailureFacts.

(** ** Domains *)

Lemma dict_get_elem_of {A} (d : dict A) k a :
  dict_wf d → (k, a) ∈ d ↔ dict_get d k = Some a.
Proof.
  unfold dict_wf. induction d as [|[k' a'] d IH]; intros Hwf.
  - split; [intros Hin; by apply elem_of_nil in Hin|done].
  - cbn [fmap list_fmap fst] in Hwf. apply NoDup_cons in Hwf as [Hk' Hwf].
    cbn [dict_get]. rewrite elem_of_cons.
    destruct (String.eqb_spec k' k) as [->|Hne].
    + split.
      * intros [[= <-]|Hin]; [done|].
        exfalso. apply Hk'. apply list_elem_of_fmap. by exists (k, a).
      * intros [= <-]. by left.
    + rewrite <- IH by done. split; [|by right].
      intros [[= -> ->]|Hin]; [done|done].
Qed.

Lemma elem_of_flat_map {A B} (f : A → list B) (l : list A) (y : B) :
  y ∈ flat_map f l ↔ ∃ x, x ∈ l ∧ y ∈ f x.
Proof.
  induction l as [|a l IH]; cbn [flat_map].
  - split; [intros Hy; by apply elem_of_nil in Hy|].
    intros (x & Hx & _). by apply elem_of_nil in Hx.
  - rewrite elem_of_app, IH. split.
    + intros [Hy|(x & Hx & Hy)].
      * exists a. split; [by apply elem_of_cons; left|done].
      * exists x. split; [by apply elem_of_cons; right|done].
    + intros (x & Hx & Hy). apply elem_of_cons in Hx as [->|Hx]; [by left|].
      right. by exists x.
Qed.

Lemma elem_of_build_domain instructors rooms timeslots cid ctype students
    t r i q p :
  (t, r, i, q, p) ∈ build_domain instructors rooms timeslots cid ctype students
  ↔ t ∈ timeslots
    ∧ ∃ r_info i_info,
        (r, r_info) ∈ rooms ∧ (i, i_info) ∈ instructors
        ∧ compatible_room (Some ctype) (Some (r_type r_info)) = true
        ∧ (students ≤ capacity r_info)%Z
        ∧ cid ∈ quals i_info
        ∧ q = true ∧ p = bool_decide (t ∈ prefs i_info).
Proof.
  unfold build_domain. rewrite elem_of_flat_map. split.
  - intros (t' & Ht' & Hin).
    apply elem_of_flat_map in Hin as ([r' r_info] & Hr & Hin).
    destruct (compatible_room _ _) eqn:Hcompat; cbn [negb] in Hin;
      [|by apply elem_of_nil in Hin].
    destruct (Z.ltb_spec (capacity r_info) students) as [|Hcap];
      [by apply elem_of_nil in Hin|].
    apply elem_of_flat_map in Hin as ([i' i_info] & Hi & Hin).
    case_bool_decide as Hq; cbn [negb] in Hin; [|by apply elem_of_nil in Hin].
    apply list_elem_of_singleton in Hin. injection Hin as -> -> -> -> ->.
    split; [done|]. exists r_info, i_info. by repeat split.
  - intros (Ht & r_info & i_info & Hr & Hi & Hcompat & Hcap & Hq & -> & ->).
    exists t. split; [done|].
    apply elem_of_flat_map. exists (r, r_info). split; [done|].
    rewrite Hcompat. cbn [negb].
    destruct (Z.ltb_spec (capacity r_info) students) as [|_]; [lia|].
    apply elem_of_flat_map. exists (i, i_info). split; [done|].
    cbv beta iota zeta.
    rewrite (bool_decide_eq_true_2 (cid ∈ quals i_info)) by done. cbn [negb].
    by apply list_elem_of_singleton.
Qed.

(** An option is in the built domain exactly when its triple passes the
    three hard filters; its flags are then determined. *)
Lemma elem_of_build_domain_wf instructors rooms timeslots cid ctype students
    t r i q p :
  dict_wf rooms → dict_wf instructors →
  (t, r, i, q, p) ∈ build_domain instructors rooms timeslots cid ctype students
  ↔ legal_triple instructors rooms timeslots cid ctype students t r i
    ∧ q = true ∧ p = prefers instructors t i.
Proof.
  intros Hrooms Hinstr. rewrite elem_of_build_domain.
  unfold legal_triple, prefers. split.
  - intros (Ht & r_info & i_info & Hr & Hi & Hcompat & Hcap & Hq & -> & ->).
    apply dict_get_elem_of in Hr, Hi; [|done..].
    rewrite Hi. split; [|done]. split; [done|]. by exists r_info, i_info.
  - intros [(Ht & r_info & i_info & Hr & Hi & Hcompat & Hcap & Hq) [-> ->]].
    rewrite Hi. split; [done|]. exists r_info, i_info.
    rewrite !dict_get_elem_of by done. done.
Qed.

Section BuilderFacts.
Context {V G : Type} `{Countable V}.
Variable g_students : G → Z.
Variable g_courses : G → list string.
Variable new_var : nat → string → G → V.
Variable finish_domain : nat → list opt → list opt.
Hypothesis new_var_fresh :
  ∀ n n' cid cid' group group',
    new_var n cid group = new_var n' cid' group' → n = n'.

Local Abbreviation build_course_v :=
  (build_course g_students new_var finish_domain).
Local Abbreviation build_group_v :=
  (build_group g_students g_courses new_var finish_domain).
Local Abbreviation build_v :=
  (build_vars_domains g_students g_courses new_var finish_domain).
Local Abbreviation built_v :=
  (built g_students g_courses new_var finish_domain).

Lemma built_course courses instructors rooms timeslots groups group acc cid :
  group ∈ groups → cid ∈ g_courses group →
  built_v courses instructors rooms timeslots groups acc →
  built_v courses instructors rooms timeslots groups
    (build_course_v courses instructors rooms timeslots group acc cid).
Proof.
  intros Hgroup Hcid Hacc. destruct acc as [variables domains].
  unfold build_course. destruct (courses !! cid) as [info|] eqn:Hinfo; [|done].
  intros n v Hn. cbn [fst snd] in *.
  apply lookup_snoc_Some in Hn as [[Hlt Hn]|[-> <-]].
  - destruct (Hacc n v Hn) as (g & c & i & Hg & Hc & Hi & Hv & Hdom).
    exists g, c, i. repeat split; try done.
    cbn [fst snd] in Hdom. rewrite lookup_insert_ne; [done|].
    rewrite Hv. intros Heq. apply new_var_fresh in Heq. lia.
  - exists group, cid, info. repeat split; try done.
    by rewrite lookup_insert_eq.
Qed.

Lemma built_courses courses instructors rooms timeslots groups group cids :
  ∀ acc,
  group ∈ groups → (∀ cid, cid ∈ cids → cid ∈ g_courses group) →
  built_v courses instructors rooms timeslots groups acc →
  built_v courses instructors rooms timeslots groups
    (fold_left (build_course_v courses instructors rooms timeslots group)
       cids acc).
Proof.
  induction cids as [|cid cids IH]; intros acc Hgroup Hsub Hacc; [done|].
  cbn [fold_left]. apply IH; [done| |].
  - intros c Hc. apply Hsub. by apply elem_of_cons; right.
  - apply built_course; [done| |done]. apply Hsub. by apply elem_of_cons; left.
Qed.

Lemma built_groups courses instructors rooms timeslots groups gs :
  ∀ acc,
  (∀ g, g ∈ gs → g ∈ groups) →
  built_v courses instructors rooms timeslots groups acc →
  built_v courses instructors rooms timeslots groups
    (fold_left (build_group_v courses instructors rooms timeslots) gs acc).
Proof.
  induction gs as [|g gs IH]; intros acc Hsub Hacc; [done|].
  cbn [fold_left]. apply IH.
  - intros g' Hg'. apply Hsub. by apply elem_of_cons; right.
  - unfold build_group. apply built_courses; [|done|done].
    apply Hsub. by apply elem_of_cons; left.
Qed.

(** Every variable that [build_vars_domains] returns was made for a
    course of a group, and [domains] maps it to the domain built for that
    pair. *)
Lemma build_vars_domains_built courses instructors rooms timeslots groups :
  built_v courses instructors rooms timeslots groups
    (build_v courses instructors rooms timeslots groups).
Proof.
  unfold build_vars_domains. apply built_groups; [done|].
  intros n v Hn. cbn [fst] in Hn. by rewrite lookup_nil in Hn.
Qed.
End BuilderFacts.

(** ** The whole pass, and the pipeline *)

Section SolveFacts.
Context {V : Type} `{Countable V}.
Variable v_group : V → string.
Variable v_students : V → Z.
Variable order_domain : list opt → list opt.

Local Abbreviation solve := (solve_timetable v_group v_students order_domain).
Local Abbreviation solve_st := (solve_state v_group v_students order_domain).

Lemma solve_no_clash (variables : list V) domains v1 v2 o1 o2 :
  v1 ≠ v2 →
  (solve variables domains).1 !! v1 = Some o1 →
  (solve variables domains).1 !! v2 = Some o2 →
  no_clash v_group v1 o1 v2 o2.
Proof.
  intros Hne H1 H2.
  assert (booked v_group (solve_st variables domains)) as [_ Hb].
  { apply booked_run, booked_initial. }
  by eapply Hb.
Qed.

Lemma solve_covers (variables : list V) domains :
  (∀ v, v ∈ variables →
     is_Some ((solve variables domains).1 !! v)
     ∨ v ∈ (solve variables domains).2)
  ∧ (∀ v, is_Some ((solve variables domains).1 !! v)
          ∨ v ∈ (solve variables domains).2 → v ∈ variables)
  ∧ (∀ v, v ∈ variables → domain_of domains v = [] →
          v ∈ (solve variables domains).2
          ∧ (solve variables domains).1 !! v = None).
Proof.
  unfold solve_timetable, solve_state. cbn [fst snd].
  split; [|split].
  - intros v Hv. apply run_classifies.
    by rewrite (sorted_vars_perm v_students variables domains).
  - intros v Hv.
    apply (run_classified_in v_group order_domain domains _ [] initial_state)
      in Hv.
    + rewrite app_nil_r in Hv.
      by rewrite (sorted_vars_perm v_students variables domains) in Hv.
    + intros w Hw. by apply (classified_once_initial (V:=V)).
  - intros v Hv Hdom. split.
    + apply run_empty_domain_failed; [|done].
      by rewrite (sorted_vars_perm v_students variables domains).
    + destruct (_ !! v) eqn:E; [|done]. exfalso.
      refine (assigned_have_options_run v_group order_domain domains _
                initial_state _ v _ Hdom); [|by rewrite E].
      intros w Hw. cbn in Hw. rewrite lookup_empty in Hw. by destruct Hw.
Qed.

Lemma solve_exactly_once (variables : list V) domains :
  NoDup variables →
  NoDup (solve variables domains).2
  ∧ ∀ v, is_Some ((solve variables domains).1 !! v) →
         v ∉ (solve variables domains).2.
Proof.
  intros Hnd. unfold solve_timetable, solve_state. cbn [fst snd].
  destruct (classified_once_run v_group order_domain domains
              (sorted_vars v_students variables domains) [] initial_state)
    as (_ & Hx & Hn); [| |apply classified_once_initial|done].
  - by rewrite (sorted_vars_perm v_students variables domains).
  - intros v _ Hv. by apply elem_of_nil in Hv.
Qed.

Hypothesis order_domain_perm : ∀ dom, order_domain dom ≡ₚ dom.

Lemma solve_assigned_in_domain (variables : list V) domains v o :
  (solve variables domains).1 !! v = Some o →
  v ∈ variables ∧ o ∈ domain_of domains v.
Proof.
  intros Hv. split.
  - apply (solve_covers variables domains). left. by rewrite Hv.
  - revert Hv. unfold solve_timetable, solve_state. cbn [fst].
    apply pass_assigned_in_domain; [done|].
    intros w o'. cbn. by rewrite lookup_empty.
Qed.
End SolveFacts.

Section PipelineFacts.
Context {V G : Type} `{Countable V}.
Variable g_students : G → Z.
Variable g_courses : G → list string.
Variable new_var : nat → string → G → V.
Variable finish_domain : nat → list opt → list opt.
Hypothesis new_var_fresh :
  ∀ n n' cid cid' group group',
    new_var n cid group = new_var n' cid' group' → n = n'.
Hypothesis finish_domain_perm : ∀ n dom, finish_domain n dom ≡ₚ dom.

Local Abbreviation build_v :=
  (build_vars_domains g_students g_courses new_var finish_domain).

(** A variable of the result stands for a course of a group, and its
    domain holds exactly the options built for that pair. *)
Lemma build_domain_of courses instructors rooms timeslots groups v :
  v ∈ (build_v courses instructors rooms timeslots groups).1 →
  ∃ n group cid info,
    group ∈ groups ∧ cid ∈ g_courses group ∧ courses !! cid = Some info
    ∧ v = new_var n cid group
    ∧ ∀ o, o ∈ domain_of (build_v courses instructors rooms timeslots groups).2 v
           ↔ o ∈ build_domain instructors rooms timeslots cid (c_type info)
                   (g_students group).
Proof.
  intros Hv. apply list_elem_of_lookup in Hv as [n Hn].
  destruct (build_vars_domains_built g_students g_courses new_var
              finish_domain new_var_fresh courses instructors rooms timeslots
              groups n v Hn)
    as (group & cid & info & Hg & Hc & Hi & Hveq & Hdom).
  exists n, group, cid, info. repeat split; try done.
  - unfold domain_of. rewrite Hdom. cbn [default].
    by rewrite finish_domain_perm.
  - unfold domain_of. rewrite Hdom. cbn [default].
    by rewrite finish_domain_perm.
Qed.

Variable v_group : V → string.
Variable v_students : V → Z.
Variable order_domain : list opt → list opt.
Hypothesis order_domain_perm : ∀ dom, order_domain dom ≡ₚ dom.

(** What the solver assigns after the builder is an option built for the
    variable's course and group. *)
Lemma pipeline_assigned courses instructors rooms timeslots groups v o :
  (solve_timetable v_group v_students order_domain
     (build_v courses instructors rooms timeslots groups).1
     (build_v courses instructors rooms timeslots groups).2).1 !! v = Some o →
  ∃ n group cid info,
    group ∈ groups ∧ cid ∈ g_courses group ∧ courses !! cid = Some info
    ∧ v = new_var n cid group
    ∧ o ∈ build_domain instructors rooms timeslots cid (c_type info)
            (g_students group).
Proof.
  intros Hv.
  apply (solve_assigned_in_domain v_group v_students order_domain
           order_domain_perm) in Hv as [Hin Ho].
  destruct (build_domain_of courses instructors rooms timeslots groups v Hin)
    as (n & group & cid & info & Hg & Hc & Hi & Hveq & Hdom).
  exists n, group, cid, info. repeat split; try done. by apply Hdom.
Qed.
End PipelineFacts.

Lemma Csp2_new_var_fresh n n' cid cid' group group' :
  Csp2.new_var n cid group = Csp2.new_var n' cid' group' → n = n'.
Proof. intros Heq. by apply (f_equal Csp2.vid) in Heq. Qed.

Lemma StreamlitApp_new_var_fresh n n' cid cid' group group' :
  StreamlitApp.new_var n cid group = StreamlitApp.new_var n' cid' group' →
  n = n'.
Proof. intros Heq. by apply (f_equal StreamlitApp.vid) in Heq. Qed.

(** * The properties of the engine *)

(** C1. In the result of [solve_timetable], for every input, two different
    assigned variables never share (timeslot, room), (timeslot,
    instructor) or (timeslot, group key). *)
Theorem no_double_booking :
  (∀ (variables : list Csp2.LectureVar) domains v1 v2 o1 o2,
     v1 ≠ v2 →
     (Csp2.solve_timetable variables domains).1 !! v1 = Some o1 →
     (Csp2.solve_timetable variables domains).1 !! v2 = Some o2 →
     no_clash Csp2.section v1 o1 v2 o2)
  ∧ (∀ (variables : list StreamlitApp.LectureVar) domains v1 v2 o1 o2,
       v1 ≠ v2 →
       (StreamlitApp.solve_timetable variables domains).1 !! v1 = Some o1 →
       (StreamlitApp.solve_timetable variables domains).1 !! v2 = Some o2 →
       no_clash StreamlitApp.group_name v1 o1 v2 o2).
Proof.
  split; intros variables domains v1 v2 o1 o2; apply solve_no_clash.
Qed.

Lemma no_double_booking_witness :
  no_clash Csp2.section Examples.C.va Examples.o_T2 Examples.C.vb Examples.o_T1
  ∧ no_clash StreamlitApp.group_name
      Examples.S.va Examples.o_T2 Examples.S.vb Examples.o_T1.
Proof.
  split.
  - apply (proj1 no_double_booking
             [Examples.C.va; Examples.C.vb] Examples.C.domains);
      [discriminate|reflexivity|reflexivity].
  - apply (proj2 no_double_booking
             [Examples.S.vb; Examples.S.va]
             ({[ Examples.S.va := [Examples.o_T2];
                 Examples.S.vb := [Examples.o_T1] ]}));
      [discriminate|reflexivity|reflexivity].
Defined.



Lemma Examples_shuffle_perm n dom : Examples.S.shuffle n dom ≡ₚ dom.
Proof. apply reverse_Permutation. Qed.



(** C7 (as the code has it). For a variable with a non-empty domain,
    [csp2.py] scans the domain sorted by (qualification flag, preference
    flag) descending, so that among options with the same qualification
    flag the preferred ones come first, and commits the variable to the
    first option in that order that clears the three clash checks.
    [streamlit_app_v4.py] scans the domain in the order in which it is
    stored and commits the variable to the first option in that order that
    clears the checks. *)
Theorem first_clear_option_committed :
  (∀ domains (st : state Csp2.LectureVar) v,
     domain_of domains v ≠ [] →
     sorted_by_flags (domain_of domains v) ≡ₚ domain_of domains v
     ∧ StronglySorted flags_descending (sorted_by_flags (domain_of domains v))
     ∧ StronglySorted preferred_first (sorted_by_flags (domain_of domains v))
     ∧ ∀ before o after,
         sorted_by_flags (domain_of domains v) = before ++ o :: after →
         Forall (λ x, clears Csp2.section st v x = false) before →
         clears Csp2.section st v o = true →
         Csp2.process_var domains st v = commit Csp2.section st v o
         ∧ assigned (Csp2.process_var domains st v) !! v = Some o)
  ∧ (∀ domains (st : state StreamlitApp.LectureVar) v,
       domain_of domains v ≠ [] →
       ∀ before o after,
         domain_of domains v = before ++ o :: after →
         Forall (λ x, clears StreamlitApp.group_name st v x = false) before →
         clears StreamlitApp.group_name st v o = true →
         StreamlitApp.process_var domains st v
         = commit StreamlitApp.group_name st v o
         ∧ assigned (StreamlitApp.process_var domains st v) !! v = Some o).
Proof.
  split.
  - intros domains st v Hne.
    split; [apply sorted_by_flags_perm|].
    split; [apply sorted_by_flags_sorted|].
    split.
    + eapply StronglySorted_mono; [|apply sorted_by_flags_sorted].
      intros [[[[t r] i] q] p] [[[[t' r'] i'] q'] p'].
      unfold flags_descending, preferred_first, opt_key. cbn.
      intros Hle -> ->. by destruct q', p.
    + intros before o after Hsplit Hbefore Ho.
      assert (Csp2.process_var domains st v = commit Csp2.section st v o) as E.
      { by eapply (step_commits_first Csp2.section sorted_by_flags). }
      split; [done|]. by rewrite E, assigned_commit, lookup_insert_eq.
  - intros domains st v Hne before o after Hsplit Hbefore Ho.
    assert (StreamlitApp.process_var domains st v
            = commit StreamlitApp.group_name st v o) as E.
    { by eapply (step_commits_first StreamlitApp.group_name (λ dom, dom)). }
    split; [done|]. by rewrite E, assigned_commit, lookup_insert_eq.
Qed.

Lemma first_clear_option_committed_witness :
  assigned (Csp2.process_var Examples.C.domains initial_state Examples.C.va)
    !! Examples.C.va = Some Examples.o_T2
  ∧ assigned (StreamlitApp.process_var Examples.S.domains initial_state
                Examples.S.va)
      !! Examples.S.va = Some Examples.o_T1.
Proof.
  split.
  - destruct (proj1 first_clear_option_committed Examples.C.domains
                initial_state Examples.C.va) as (_ & _ & _ & Hfirst);
      [vm_compute; discriminate|].
    apply (Hfirst [] Examples.o_T2 [Examples.o_T1]);
      [reflexivity|constructor|reflexivity].
  - apply (proj2 first_clear_option_committed Examples.S.domains
             initial_state Examples.S.va) with [] [Examples.o_T2];
      [vm_compute; discriminate|reflexivity|constructor|reflexivity].
Defined.

(** C7, counterexample.  The stored domain has a non-preferred option in
    front of a preferred one and both clear the checks: in (qualification,
    preference) descending order the preferred option is the first that
    clears, yet the web application commits the non-preferred one. *)
Lemma streamlit_commits_non_preferred_option :
  domain_of Examples.S.domains Examples.S.va = [Examples.o_T1; Examples.o_T2]
  ∧ sorted_by_flags (domain_of Examples.S.domains Examples.S.va)
    = [Examples.o_T2; Examples.o_T1]
  ∧ clears StreamlitApp.group_name initial_state Examples.S.va Examples.o_T2
    = true
  ∧ (StreamlitApp.solve_timetable [Examples.S.va] Examples.S.domains).1
      !! Examples.S.va = Some Examples.o_T1
  ∧ Examples.o_T1 ≠ Examples.o_T2.
Proof. repeat split; [reflexivity..|discriminate]. Qed.

(** C8. When the domain is not empty and none of its options clears the
    three clash checks, the step records the variable as failed and leaves
    the assignment map and the three used sets as they were; the variables
    processed afterwards get the same assignments, the same used sets and
    the same failures as if that variable had not been processed. *)
Theorem failure_leaves_state_unchanged :
  (∀ domains (st : state Csp2.LectureVar) v,
     domain_of domains v ≠ [] →
     Forall (λ o, clears Csp2.section st v o = false) (domain_of domains v) →
     failed_assignments (Csp2.process_var domains st v)
     = failed_assignments st ++ [v]
     ∧ used_room_ts (Csp2.process_var domains st v) = used_room_ts st
     ∧ used_instr_ts (Csp2.process_var domains st v) = used_instr_ts st
     ∧ used_section_ts (Csp2.process_var domains st v) = used_section_ts st
     ∧ assigned (Csp2.process_var domains st v) = assigned st
     ∧ ∀ later, ∃ extra,
         failed_assignments (run Csp2.section sorted_by_flags domains later st)
         = failed_assignments st ++ extra
         ∧ run Csp2.section sorted_by_flags domains later
             (Csp2.process_var domains st v)
           = with_failed (failed_assignments st ++ [v] ++ extra)
               (run Csp2.section sorted_by_flags domains later st))
  ∧ (∀ domains (st : state StreamlitApp.LectureVar) v,
       domain_of domains v ≠ [] →
       Forall (λ o, clears StreamlitApp.group_name st v o = false)
         (domain_of domains v) →
       failed_assignments (StreamlitApp.process_var domains st v)
       = failed_assignments st ++ [v]
       ∧ used_room_ts (StreamlitApp.process_var domains st v) = used_room_ts st
       ∧ used_instr_ts (StreamlitApp.process_var domains st v)
         = used_instr_ts st
       ∧ used_section_ts (StreamlitApp.process_var domains st v)
         = used_section_ts st
       ∧ assigned (StreamlitApp.process_var domains st v) = assigned st
       ∧ ∀ later, ∃ extra,
           failed_assignments
             (run StreamlitApp.group_name (λ dom, dom) domains later st)
           = failed_assignments st ++ extra
           ∧ run StreamlitApp.group_name (λ dom, dom) domains later
               (StreamlitApp.process_var domains st v)
             = with_failed (failed_assignments st ++ [v] ++ extra)
                 (run StreamlitApp.group_name (λ dom, dom) domains later st)).
Proof.
  split.
  - intros domains st v _ Hall.
    assert (Csp2.process_var domains st v = record_failed st v) as E.
    { apply (step_all_clash Csp2.section sorted_by_flags sorted_by_flags_perm).
      by apply Forall_forall. }
    rewrite E. repeat (split; [reflexivity|]).
    intros later. apply pass_after_failure.
  - intros domains st v _ Hall.
    assert (StreamlitApp.process_var domains st v = record_failed st v) as E.
    { apply (step_all_clash StreamlitApp.group_name (λ dom, dom)
               (λ dom, reflexivity dom)).
      by apply Forall_forall. }
    rewrite E. repeat (split; [reflexivity|]).
    intros later. apply pass_after_failure.
Qed.

Lemma failure_leaves_state_unchanged_witness :
  (failed_assignments
     (Csp2.process_var Examples.C.domains2 Examples.C.st_vb Examples.C.va)
   = failed_assignments Examples.C.st_vb ++ [Examples.C.va]
   ∧ used_room_ts
       (Csp2.process_var Examples.C.domains2 Examples.C.st_vb Examples.C.va)
     = used_room_ts Examples.C.st_vb)
  ∧ (failed_assignments
       (StreamlitApp.process_var Examples.S.domains2 Examples.S.st_vb
          Examples.S.va)
     = failed_assignments Examples.S.st_vb ++ [Examples.S.va]
     ∧ used_room_ts
         (StreamlitApp.process_var Examples.S.domains2 Examples.S.st_vb
            Examples.S.va)
       = used_room_ts Examples.S.st_vb).
Proof.
  split.
  - destruct (proj1 failure_leaves_state_unchanged Examples.C.domains2
                Examples.C.st_vb Examples.C.va) as (Hf & Hr & _);
      [vm_compute; discriminate|vm_compute; repeat constructor|].
    by split.
  - destruct (proj2 failure_leaves_state_unchanged Examples.S.domains2
                Examples.S.st_vb Examples.S.va) as (Hf & Hr & _);
      [vm_compute; discriminate|vm_compute; repeat constructor|].
    by split.
Defined.

(** * The scenarios of the specification, evaluated *)

(** One group of 30, a classroom of 40: one assignment, no failure. *)
Example scenario_single_assignment :
  Examples.Scenario.run_all (Examples.Scenario.room 40)
    [Examples.Scenario.group "1_1" 30 ["CS101"]]
  = ({[ Csp2.new_LectureVar 0 "CS101" "1_1" 1 30
        := Examples.Scenario.only_option ]}, []).
Proof. reflexivity. Qed.

(** The room holds 20 only: the domain is empty and the variable fails. *)
Example scenario_room_too_small :
  Examples.Scenario.run_all (Examples.Scenario.room 20)
    [Examples.Scenario.group "1_1" 30 ["CS101"]]
  = (∅, [Csp2.new_LectureVar 0 "CS101" "1_1" 1 30]).
Proof. reflexivity. Qed.

(** Two groups and a single option: the larger group is served first and
    the other one fails although its domain is not empty. *)
Example scenario_larger_group_first :
  Examples.Scenario.run_all (Examples.Scenario.room 40)
    [Examples.Scenario.group "1_1" 25 ["CS101"];
     Examples.Scenario.group "1_2" 30 ["CS101"]]
  = ({[ Csp2.new_LectureVar 1 "CS101" "1_2" 1 30
        := Examples.Scenario.only_option ]},
     [Csp2.new_LectureVar 0 "CS101" "1_1" 1 25]).
Proof. reflexivity. Qed.

(** A course id that the course map does not know yields no variable. *)
Example scenario_unknown_course :
  Csp2.build_vars_domains Examples.Scenario.courses
    Examples.Scenario.instructors (Examples.Scenario.room 40) ["T1"]
    [Examples.Scenario.group "1_1" 30 ["CS999"]]
  = ([], ∅).
Proof. reflexivity. Qed.

(** * More of the code: [preprocess] *)

(** ** White space *)

Lemma append_assoc_string (s t u : string) :
  (s ++ (t ++ u))%string = ((s ++ t) ++ u)%string.
Proof.
  induction s as [|a s IH]; [done|]. rewrite !string_app_cons. by rewrite IH.
Qed.

Lemma string_length_ind (P : string → Prop) :
  (∀ s, (∀ t, (String.length t < String.length s)%nat → P t) → P s) →
  ∀ s, P s.
Proof.
  intros step s. remember (String.length s) as n eqn:Hn. revert s Hn.
  induction n as [n IHn] using lt_wf_ind. intros s ->.
  apply step. intros t Ht. by eapply IHn.
Qed.

Lemma space_prefix_split s rest :
  space_prefix s = Some rest →
  ∃ w, s = (w ++ rest)%string ∧ space_prefix w = Some "" ∧ w ≠ "".
Proof.
  destruct s as [|a s1]; [done|]. cbn [space_prefix].
  destruct (is_space1 a) eqn:E1.
  { intros [= <-]. exists (String a "").
    cbn [space_prefix]. by rewrite E1. }
  destruct s1 as [|b s2]; [done|].
  destruct (is_space2 a b) eqn:E2.
  { intros [= <-]. exists (String a (String b "")).
    cbn [space_prefix]. by rewrite E1, E2. }
  destruct s2 as [|c s3]; [done|].
  destruct (is_space3 a b c) eqn:E3; [|done].
  intros [= <-]. exists (String a (String b (String c ""))).
  cbn [space_prefix]. by rewrite E1, E2, E3.
Qed.

Lemma space_prefix_shorter s rest :
  space_prefix s = Some rest → (String.length rest < String.length s)%nat.
Proof.
  destruct s as [|a s1]; [done|]. cbn [space_prefix].
  destruct (is_space1 a).
  { intros [= <-]. cbn. lia. }
  destruct s1 as [|b s2]; [done|].
  destruct (is_space2 a b).
  { intros [= <-]. cbn. lia. }
  destruct s2 as [|c s3]; [done|].
  destruct (is_space3 a b c); [|done].
  intros [= <-]. cbn. lia.
Qed.

Lemma space_prefix_app s rest t :
  space_prefix s = Some rest →
  space_prefix (s ++ t) = Some (rest ++ t)%string.
Proof.
  destruct s as [|a s1]; [done|]. rewrite string_app_cons. cbn [space_prefix].
  destruct (is_space1 a).
  { by intros [= <-]. }
  destruct s1 as [|b s2]; [done|]. rewrite string_app_cons.
  destruct (is_space2 a b).
  { by intros [= <-]. }
  destruct s2 as [|c s3]; [done|]. rewrite string_app_cons.
  destruct (is_space3 a b c); [|done].
  by intros [= <-].
Qed.

Lemma lstrip_cons a s1 :
  lstrip (String a s1)
  = if is_space1 a then lstrip s1
    else match s1 with
         | String b s2 =>
             if is_space2 a b then lstrip s2
             else match s2 with
                  | String c s3 =>
                      if is_space3 a b c then lstrip s3 else String a s1
                  | EmptyString => String a s1
                  end
         | EmptyString => String a s1
         end.
Proof. reflexivity. Qed.

(** [lstrip] removes one leading white-space character after the other. *)
Lemma lstrip_unfold s :
  lstrip s = match space_prefix s with
             | Some rest => lstrip rest
             | None => s
             end.
Proof.
  destruct s as [|a s1]; [done|]. rewrite lstrip_cons. cbn [space_prefix].
  destruct (is_space1 a); [done|].
  destruct s1 as [|b s2]; [done|].
  destruct (is_space2 a b); [done|].
  destruct s2 as [|c s3]; [done|].
  by destruct (is_space3 a b c).
Qed.

Lemma lstrip_no_lead s : starts_with_space (lstrip s) = false.
Proof.
  induction s as [s IH] using string_length_ind.
  rewrite lstrip_unfold. destruct (space_prefix s) as [rest|] eqn:E.
  - by apply IH, space_prefix_shorter.
  - unfold starts_with_space. by rewrite E.
Qed.

Lemma lstrip_id s : starts_with_space s = false → lstrip s = s.
Proof.
  unfold starts_with_space. rewrite lstrip_unfold.
  by destruct (space_prefix s).
Qed.

Lemma lstrip_prefix s : ∃ pre, s = (pre ++ lstrip s)%string.
Proof.
  induction s as [s IH] using string_length_ind.
  rewrite lstrip_unfold. destruct (space_prefix s) as [rest|] eqn:E.
  - destruct (space_prefix_split s rest E) as (w & Hs & _).
    destruct (IH rest (space_prefix_shorter s rest E)) as [pre Hrest].
    exists (w ++ pre)%string.
    rewrite <- append_assoc_string. by rewrite <- Hrest.
  - by exists "".
Qed.

Lemma rstrip_cons a s1 :
  rstrip (String a s1)
  = if String.eqb (lstrip (String a s1)) "" then "" else String a (rstrip s1).
Proof. reflexivity. Qed.

(** What [rstrip] cuts off is white space only. *)
Lemma rstrip_split s : ∃ tail, s = (rstrip s ++ tail)%string ∧ lstrip tail = "".
Proof.
  induction s as [|a s IH]; [by exists ""|]. rewrite rstrip_cons.
  destruct (String.eqb_spec (lstrip (String a s)) "") as [Hl|Hl].
  - by exists (String a s).
  - destruct IH as (tail & Hs & Ht). exists tail. split; [|done].
    rewrite string_app_cons. by rewrite <- Hs.
Qed.

Lemma ends_with_space_cons a s :
  ends_with_space (String a s)
  = match space_prefix (String a s) with
    | Some EmptyString => true
    | _ => ends_with_space s
    end.
Proof. reflexivity. Qed.

Lemma ends_with_space_app p t :
  ends_with_space t = true → ends_with_space (p ++ t) = true.
Proof.
  intros Ht. induction p as [|a p IH]; [done|].
  rewrite string_app_cons, ends_with_space_cons.
  by destruct (space_prefix _) as [[|]|].
Qed.

Lemma all_space_ends s : s ≠ "" → lstrip s = "" → ends_with_space s = true.
Proof.
  induction s as [s IH] using string_length_ind. intros Hne Hl.
  rewrite lstrip_unfold in Hl.
  destruct (space_prefix s) as [rest|] eqn:E; [|done].
  destruct rest as [|b rest].
  - destruct s as [|a s]; [done|]. by rewrite ends_with_space_cons, E.
  - specialize (IH _ (space_prefix_shorter _ _ E)).
    destruct (space_prefix_split s _ E) as (w & -> & _).
    apply ends_with_space_app. by apply IH.
Qed.

Lemma rstrip_no_trail s : ends_with_space (rstrip s) = false.
Proof.
  induction s as [|a s IH]; [done|]. rewrite rstrip_cons.
  destruct (String.eqb_spec (lstrip (String a s)) "") as [Hl|Hl]; [done|].
  rewrite ends_with_space_cons.
  destruct (space_prefix (String a (rstrip s))) as [[|]|] eqn:E; try exact IH.
  exfalso. apply Hl. destruct (rstrip_split s) as (tail & Hs & Ht).
  rewrite lstrip_unfold.
  assert (space_prefix (String a s) = Some tail) as ->; [|done].
  rewrite Hs. exact (space_prefix_app (String a (rstrip s)) "" tail E).
Qed.

Lemma rstrip_id s : ends_with_space s = false → rstrip s = s.
Proof.
  induction s as [|a s IH]; [done|].
  rewrite ends_with_space_cons, rstrip_cons. intros Hs.
  destruct (String.eqb_spec (lstrip (String a s)) "") as [Hl|Hl].
  - apply all_space_ends in Hl; [|done].
    rewrite ends_with_space_cons in Hl. congruence.
  - f_equal. apply IH. by destruct (space_prefix _) as [[|]|].
Qed.

Lemma rstrip_keeps_lead s :
  starts_with_space s = false → starts_with_space (rstrip s) = false.
Proof.
  unfold starts_with_space. intros Hs.
  destruct (space_prefix (rstrip s)) as [rest|] eqn:E; [|done].
  destruct (rstrip_split s) as (tail & Htail & _).
  apply (space_prefix_app _ _ tail) in E. rewrite <- Htail in E.
  by rewrite E in Hs.
Qed.

Lemma strip_no_lead s : starts_with_space (strip s) = false.
Proof. apply rstrip_keeps_lead, lstrip_no_lead. Qed.

Lemma strip_no_trail s : ends_with_space (strip s) = false.
Proof. apply rstrip_no_trail. Qed.

Lemma strip_id s :
  starts_with_space s = false → ends_with_space s = false → strip s = s.
Proof. intros Hl Ht. unfold strip. by rewrite (lstrip_id s Hl), rstrip_id. Qed.

(** A no-break space (U+00A0), an em space (U+2003) and a next-line
    character (U+0085) around a text are removed like blanks and tabs;
    white space inside the text stays. *)
Example strip_unicode_white_space :
  strip (no_break_space ++ em_space ++ "A  B" ++ next_line ++ " ")%string
  = "A  B".
Proof. reflexivity. Qed.

(** X1. [safe_str] gives the empty string for a missing cell and otherwise
    text with no white space at either end; applying it to its own result
    changes nothing. *)
Theorem safe_str_normal (x : cell) :
  safe_str None = ""
  ∧ starts_with_space (safe_str x) = false
  ∧ ends_with_space (safe_str x) = false
  ∧ safe_str (Some (safe_str x)) = safe_str x.
Proof.
  split; [done|].
  assert (starts_with_space (safe_str x) = false) as Hl.
  { destruct x; [apply strip_no_lead|done]. }
  assert (ends_with_space (safe_str x) = false) as Ht.
  { destruct x; [apply strip_no_trail|done]. }
  repeat split; try done. cbn [safe_str]. by apply strip_id.
Qed.

(** ** Comma-separated lists *)

Lemma mentions_app c p t :
  mentions c (p ++ t) = mentions c p || mentions c t.
Proof.
  induction p as [|a p IH]; [done|]. rewrite string_app_cons. cbn [mentions].
  by rewrite IH, orb_assoc.
Qed.

Lemma mentions_lstrip c s : mentions c (lstrip s) = true → mentions c s = true.
Proof.
  intros Hm. destruct (lstrip_prefix s) as [pre Hs].
  rewrite Hs, mentions_app, Hm. apply orb_true_r.
Qed.

Lemma mentions_rstrip c s : mentions c (rstrip s) = true → mentions c s = true.
Proof.
  intros Hm. destruct (rstrip_split s) as (tail & Hs & _).
  by rewrite Hs, mentions_app, Hm.
Qed.

Lemma mentions_strip c s : mentions c s = false → mentions c (strip s) = false.
Proof.
  intros Hs. destruct (mentions c (strip s)) eqn:E; [|done].
  apply mentions_rstrip, mentions_lstrip in E. congruence.
Qed.

Lemma split_on_pieces sep s :
  Forall (λ piece, mentions sep piece = false) (split_on sep s).
Proof.
  induction s as [|c s IH]; cbn [split_on]; [by repeat constructor|].
  destruct (Ascii.eqb c sep) eqn:Ec.
  - by constructor.
  - destruct (split_on sep s) as [|piece pieces].
    + repeat constructor. cbn. by rewrite Ec.
    + apply Forall_cons in IH as [Hp Hps]. constructor; [|done].
      cbn. by rewrite Ec, Hp.
Qed.

Lemma split_on_clean sep s : mentions sep s = false → split_on sep s = [s].
Proof.
  induction s as [|c s IH]; [done|]. cbn [mentions split_on].
  intros Hm. apply orb_false_iff in Hm as [-> Hm]. by rewrite (IH Hm).
Qed.

Lemma split_on_app sep s rest :
  mentions sep s = false →
  split_on sep (s ++ String sep rest) = s :: split_on sep rest.
Proof.
  induction s as [|c s IH]; intros Hm.
  - change (split_on sep (String sep rest) = "" :: split_on sep rest).
    cbn [split_on]. by rewrite Ascii.eqb_refl.
  - cbn [mentions] in Hm. apply orb_false_iff in Hm as [Hc Hm].
    change (split_on sep (String c (s ++ String sep rest))
            = String c s :: split_on sep rest).
    cbn [split_on]. by rewrite Hc, (IH Hm).
Qed.

Lemma split_on_join l :
  l ≠ [] → Forall (λ q, mentions "," q = false) l →
  split_on "," (join_commas l) = l.
Proof.
  induction l as [|q l IH]; [done|]. intros _ Hl.
  apply Forall_cons in Hl as [Hq Hl]. destruct l as [|q' l].
  - by apply split_on_clean.
  - unfold join_commas in *.
    change (String.concat "," (q :: q' :: l))
      with (q ++ String "," (String.concat "," (q' :: l)))%string.
    rewrite split_on_app by done. by rewrite IH.
Qed.

(** X2. Every item that [parse_list] returns is not empty, has no white
    space around it and holds no comma. *)
Theorem parse_list_items_clean (raw : string) :
  Forall clean_item (parse_list raw).
Proof.
  unfold parse_list. apply Forall_forall. intros q Hq.
  apply list_elem_of_filter in Hq as [Hne Hq].
  apply list_elem_of_fmap in Hq as (piece & -> & Hpiece).
  split; [done|]. split; [apply strip_no_lead|]. split; [apply strip_no_trail|].
  apply mentions_strip.
  by apply (proj1 (Forall_forall _ _) (split_on_pieces "," raw)).
Qed.

(** X3. Parsing the comma-joined text of a list of clean items gives the
    list back. *)
Theorem parse_list_join (l : list string) :
  Forall clean_item l → parse_list (join_commas l) = l.
Proof.
  intros Hl. destruct (decide (l = [])) as [->|Hne]; [done|].
  unfold parse_list. rewrite split_on_join; [|done|].
  - induction Hl as [|q l (Hq & Hlead & Htrail & _) _ IH]; [done|].
    cbn [fmap list_fmap]. rewrite (strip_id q) by done.
    rewrite filter_cons_True by done. f_equal.
    destruct (decide (l = [])) as [->|Hl']; [done|]. by apply IH.
  - eapply Forall_impl; [exact Hl|]. by intros q (_ & _ & _ & Hq).
Qed.

Lemma parse_list_join_witness :
  parse_list (join_commas ["CS101"; "MTH 2"]) = ["CS101"; "MTH 2"].
Proof.
  apply parse_list_join. repeat constructor; discriminate.
Defined.

(** An item behind a no-break space is not clean, and [parse_list] strips
    it. *)
Example parse_list_no_break_space :
  parse_list ("CS101," ++ no_break_space ++ "A")%string = ["CS101"; "A"]
  ∧ ¬ clean_item (no_break_space ++ "A")%string.
Proof. split; [reflexivity|]. by intros (_ & Hlead & _). Qed.

(** ** The course map, completely *)

Lemma preprocess_courses_snoc rows r :
  preprocess_courses (rows ++ [r]) = courses_step (preprocess_courses rows) r.
Proof. unfold preprocess_courses. by rewrite fold_left_app. Qed.

Lemma find_append {A} (f : A → bool) (l1 l2 : list A) :
  find f (l1 ++ l2)
  = match find f l1 with Some x => Some x | None => find f l2 end.
Proof.
  induction l1 as [|x l1 IH]; [done|]. cbn [app find].
  by destruct (f x).
Qed.

Lemma winning_row_snoc rows r :
  winning_row (rows ++ [r])
  = match find (λ r, String.eqb (c_type (course_of_row r)) "lecture") rows with
    | Some r' => Some r'
    | None => Some r
    end.
Proof.
  unfold winning_row. rewrite find_append.
  destruct (find _ rows) as [r'|]; [done|]. cbn [find].
  destruct (String.eqb _ _); [done|]. apply last_snoc.
Qed.

Lemma winning_row_lecture rows r :
  winning_row rows = Some r →
  (c_type (course_of_row r) = "lecture"
   ↔ is_Some (find (λ r, String.eqb (c_type (course_of_row r)) "lecture") rows)).
Proof.
  unfold winning_row.
  destruct (find _ rows) as [r'|] eqn:Hfind.
  - intros [= ->]. apply find_some in Hfind as [_ Hty].
    apply String.eqb_eq in Hty. split; [by eexists|done].
  - intros Hlast. split; [|by intros [? ?]].
    intros Hty. apply last_Some_elem_of in Hlast.
    apply list_elem_of_In in Hlast.
    apply (List.find_none _ _ Hfind) in Hlast.
    apply String.eqb_neq in Hlast. done.
Qed.

(** X4. The course map holds no entry under the empty id, and under any
    other id it holds, of the rows with that id, the first whose category
    is "lecture" or, when there is none, the last one; an id that no row
    has is absent. *)
Theorem preprocess_courses_lookup (rows : list course_row) (cid : string) :
  preprocess_courses rows !! cid
  = if decide (cid = "") then None
    else course_of_row
           <$> winning_row (filter (λ r, safe_str (CourseID r) = cid) rows).
Proof.
  induction rows as [|r rows IH] using rev_ind.
  - unfold preprocess_courses. cbn. rewrite lookup_empty. by case_decide.
  - rewrite preprocess_courses_snoc, filter_app. unfold courses_step.
    fold (course_of_row r).
    destruct (String.eqb_spec (safe_str (CourseID r)) "") as [Hempty|Hid].
    + rewrite IH. case_decide; [done|].
      rewrite filter_cons_False by congruence. by rewrite app_nil_r.
    + destruct (decide (safe_str (CourseID r) = cid)) as [<-|Hne].
      * rewrite decide_False by done. rewrite decide_False in IH by done.
        rewrite filter_cons_True by done. rewrite filter_nil, winning_row_snoc.
        rewrite IH.
        destruct (winning_row _) as [w|] eqn:Hw; cbn [fmap option_fmap option_map].
        -- pose proof (winning_row_lecture _ _ Hw) as Hlec.
           destruct (String.eqb_spec (c_type (course_of_row w)) "lecture")
             as [Hty|Hty].
           ++ apply Hlec in Hty as [w' Hw']. rewrite IH, Hw'.
              unfold winning_row in Hw. rewrite Hw' in Hw. by injection Hw as ->.
           ++ rewrite lookup_insert_eq.
              destruct (find _ _) as [w'|] eqn:Hw'; [|done].
              exfalso. apply Hty, Hlec. by eexists.
        -- rewrite lookup_insert_eq. unfold winning_row in Hw.
           destruct (find _ _); [done|done].
      * rewrite filter_cons_False by done. rewrite filter_nil, app_nil_r.
        destruct (preprocess_courses rows !! safe_str (CourseID r)) as [info|].
        -- destruct (String.eqb (c_type info) "lecture"); [done|].
           by rewrite lookup_insert_ne.
        -- by rewrite lookup_insert_ne.
Qed.

(** ** Dictionaries filled row by row *)

Lemma dict_get_set_eq {A} (d : dict A) k a : dict_get (dict_set d k a) k = Some a.
Proof.
  induction d as [|[k' a'] d IH]; cbn [dict_set dict_get].
  - by rewrite String.eqb_refl.
  - destruct (String.eqb k' k) eqn:E; cbn [dict_get]; by rewrite E.
Qed.

Lemma dict_get_set_ne {A} (d : dict A) k k' a :
  k ≠ k' → dict_get (dict_set d k a) k' = dict_get d k'.
Proof.
  intros Hne. induction d as [|[k0 a0] d IH]; cbn [dict_set dict_get].
  - by rewrite (proj2 (String.eqb_neq k k')).
  - destruct (String.eqb_spec k0 k) as [->|Hk]; cbn [dict_get].
    + by rewrite (proj2 (String.eqb_neq k k')).
    + by rewrite IH.
Qed.

Lemma dict_set_keys {A} (d : dict A) k a :
  (dict_set d k a).*1 = if decide (k ∈ d.*1) then d.*1 else d.*1 ++ [k].
Proof.
  induction d as [|[k0 a0] d IH]; cbn [dict_set fmap list_fmap fst].
  - rewrite decide_False; [done|]. by intros ?%elem_of_nil.
  - destruct (String.eqb_spec k0 k) as [->|Hk]; cbn [fmap list_fmap fst].
    + rewrite decide_True; [done|]. by apply elem_of_cons; left.
    + change (list_fmap _ _ fst ?l) with (l.*1). rewrite IH.
      destruct (decide (k ∈ d.*1)) as [Hin|Hin].
      * rewrite decide_True; [done|]. by apply elem_of_cons; right.
      * rewrite decide_False; [done|].
        intros [?|?]%elem_of_cons; congruence.
Qed.

Lemma dict_wf_set {A} (d : dict A) k a : dict_wf d → dict_wf (dict_set d k a).
Proof.
  unfold dict_wf. intros Hd. rewrite dict_set_keys. case_decide; [done|].
  apply NoDup_app. split; [done|]. split; [|apply NoDup_singleton].
  intros x Hx Hx'. apply list_elem_of_singleton in Hx'. by subst.
Qed.

Lemma dict_get_None_keys {A} (d : dict A) k :
  dict_get d k = None ↔ k ∉ d.*1.
Proof.
  induction d as [|[k0 a0] d IH]; cbn [dict_get fmap list_fmap fst].
  - split; [intros _ ?%elem_of_nil; done|done].
  - change (list_fmap _ _ fst ?l) with (l.*1). rewrite not_elem_of_cons, <- IH.
    destruct (String.eqb_spec k0 k) as [->|Hk]; split; try done.
    + by intros [? _].
    + by intros [_ ?].
Qed.

Section LoadRows.
Context {R A : Type} (key : R → string) (value : R → A).

Lemma load_rows_snoc d rows r :
  load_rows key value d (rows ++ [r])
  = if String.eqb (key r) "" then load_rows key value d rows
    else dict_set (load_rows key value d rows) (key r) (value r).
Proof. unfold load_rows. by rewrite fold_left_app. Qed.

Lemma load_rows_wf d rows : dict_wf d → dict_wf (load_rows key value d rows).
Proof.
  intros Hd. induction rows as [|r rows IH] using rev_ind; [done|].
  rewrite load_rows_snoc. destruct (String.eqb _ _); [done|].
  by apply dict_wf_set.
Qed.

(** Last write wins. *)
Lemma load_rows_lookup rows k :
  dict_get (load_rows key value [] rows) k
  = if decide (k = "") then None
    else value <$> last (filter (λ r, key r = k) rows).
Proof.
  induction rows as [|r rows IH] using rev_ind.
  - cbn. by case_decide.
  - rewrite load_rows_snoc, filter_app.
    destruct (String.eqb_spec (key r) "") as [Hempty|Hid].
    + rewrite IH. case_decide; [done|].
      rewrite filter_cons_False by congruence. by rewrite app_nil_r.
    + destruct (decide (key r = k)) as [<-|Hne].
      * rewrite dict_get_set_eq, decide_False by done.
        rewrite filter_cons_True by done. by rewrite filter_nil, last_snoc.
      * rewrite dict_get_set_ne by done. rewrite IH.
        rewrite filter_cons_False by done. by rewrite filter_nil, app_nil_r.
Qed.

End LoadRows.

Lemma preprocess_rooms_load rows :
  preprocess_rooms rows = load_rows (λ r, safe_str (RoomID r)) room_of_row [] rows.
Proof. reflexivity. Qed.

Lemma preprocess_instructors_load rows :
  preprocess_instructors rows
  = load_rows (λ r, safe_str (InstructorID r)) instructor_of_row [] rows.
Proof. reflexivity. Qed.

(** X5. The rooms dictionary has no repeated key and no empty key; under
    an id it holds the type (lower-cased) and capacity of the last row with
    that id, the capacity being 0 when the cell is no integer; an id that
    no row has is absent. *)
Theorem preprocess_rooms_lookup (rows : list room_row) :
  dict_wf (preprocess_rooms rows)
  ∧ ∀ rid,
      dict_get (preprocess_rooms rows) rid
      = if decide (rid = "") then None
        else room_of_row <$> last (filter (λ r, safe_str (RoomID r) = rid) rows).
Proof.
  rewrite preprocess_rooms_load. split.
  - apply load_rows_wf, NoDup_nil_2.
  - intros rid. apply load_rows_lookup.
Qed.

(** X6. The instructors dictionary has no repeated key and no empty key;
    under an id it holds the name and the parsed qualification and
    preference sets of the last row with that id. *)
Theorem preprocess_instructors_lookup (rows : list instructor_row) :
  dict_wf (preprocess_instructors rows)
  ∧ ∀ iid,
      dict_get (preprocess_instructors rows) iid
      = if decide (iid = "") then None
        else instructor_of_row
               <$> last (filter (λ r, safe_str (InstructorID r) = iid) rows).
Proof.
  rewrite preprocess_instructors_load. split.
  - apply load_rows_wf, NoDup_nil_2.
  - intros iid. apply load_rows_lookup.
Qed.

Lemma preprocess_timeslots_snoc rows r :
  preprocess_timeslots (rows ++ [r])
  = timeslots_step (preprocess_timeslots rows) r.
Proof. unfold preprocess_timeslots. by rewrite fold_left_app. Qed.

Lemma preprocess_timeslots_parts rows :
  preprocess_timeslots rows
  = (filter (λ t, t ≠ "") ((λ r, safe_str (TimeSlotID r)) <$> rows),
     load_rows (λ r, safe_str (TimeSlotID r)) timeslot_of_row [] rows).
Proof.
  induction rows as [|r rows IH] using rev_ind; [done|].
  rewrite preprocess_timeslots_snoc, IH, load_rows_snoc, fmap_app, filter_app.
  unfold timeslots_step. fold (timeslot_of_row r). cbn [fmap list_fmap].
  destruct (String.eqb_spec (safe_str (TimeSlotID r)) "") as [Hempty|Hid].
  - rewrite filter_cons_False by (by intros ?). by rewrite filter_nil, app_nil_r.
  - by rewrite filter_cons_True, filter_nil by done.
Qed.

(** X7. The timeslot list holds the non-empty ids of the TimeSlots rows in
    row order, a repeated id as often as it is repeated; [timeslot_info]
    has no repeated key and has an entry exactly for the ids in the list. *)
Theorem preprocess_timeslots_consistent (rows : list timeslot_row) :
  (preprocess_timeslots rows).1
  = filter (λ t, t ≠ "") ((λ r, safe_str (TimeSlotID r)) <$> rows)
  ∧ dict_wf (preprocess_timeslots rows).2
  ∧ ∀ t, t ∈ (preprocess_timeslots rows).1
         ↔ is_Some (dict_get (preprocess_timeslots rows).2 t).
Proof.
  rewrite preprocess_timeslots_parts. cbn [fst snd].
  split; [done|]. split; [apply load_rows_wf, NoDup_nil_2|].
  intros t. rewrite load_rows_lookup, list_elem_of_filter, list_elem_of_fmap.
  case_decide as Ht.
  - split; [by intros [? _]|by intros [? ?]].
  - rewrite fmap_is_Some, last_is_Some. split.
    + intros (_ & r & Hkey & Hr) Hnil.
      exact (filter_nil_not_elem_of _ rows r Hnil (eq_sym Hkey) Hr).
    + intros Hne. split; [done|].
      destruct (filter _ rows) as [|r l] eqn:E; [done|].
      assert (r ∈ filter (λ r, safe_str (TimeSlotID r) = t) rows) as Hr
        by (rewrite E; by apply elem_of_cons; left).
      apply list_elem_of_filter in Hr as [? ?]. by exists r.
Qed.

(** * More of the code: [build_vars_domains] *)

Lemma length_flat_map_le {A B} (f : A → list B) (l : list A) (k : nat) :
  (∀ x, length (f x) ≤ k)%nat → (length (flat_map f l) ≤ length l * k)%nat.
Proof.
  intros Hf. induction l as [|x l IH]; cbn [flat_map length]; [lia|].
  rewrite length_app. specialize (Hf x). lia.
Qed.

Lemma length_build_domain instructors rooms timeslots cid ctype students :
  (length (build_domain instructors rooms timeslots cid ctype students)
   ≤ length timeslots * (length rooms * length instructors))%nat.
Proof.
  unfold build_domain. apply length_flat_map_le. intros t.
  apply length_flat_map_le. intros [r_id r_info].
  destruct (negb _); [cbn; lia|]. destruct (_ <? _)%Z; [cbn; lia|].
  etransitivity; [apply (length_flat_map_le _ _ 1)|lia].
  intros [i_id i_info]. cbv zeta. destruct (negb _); cbn; lia.
Qed.

Section BuilderShape.
Context {V G : Type} `{Countable V}.
Variable g_students : G → Z.
Variable g_courses : G → list string.
Variable new_var : nat → string → G → V.
Variable finish_domain : nat → list opt → list opt.

Local Abbreviation build_course_v :=
  (build_course g_students new_var finish_domain).
Local Abbreviation build_group_v :=
  (build_group g_students g_courses new_var finish_domain).
Local Abbreviation build_v :=
  (build_vars_domains g_students g_courses new_var finish_domain).

Lemma build_courses_variables courses instructors rooms timeslots group cids :
  ∀ acc,
  (fold_left (build_course_v courses instructors rooms timeslots group)
     cids acc).1
  = acc.1
    ++ imap (λ n p, new_var (length acc.1 + n) p.1 p.2)
         ((λ cid, (cid, group))
            <$> filter (λ cid, is_Some (courses !! cid)) cids).
Proof.
  induction cids as [|cid cids IH]; intros [variables domains].
  - cbn. by rewrite app_nil_r.
  - cbn [fold_left]. rewrite IH. unfold build_course.
    destruct (courses !! cid) as [info|] eqn:Hinfo; cbn [fst].
    + rewrite filter_cons_True by (by rewrite Hinfo).
      cbn [fmap list_fmap]. rewrite imap_cons, <- app_assoc. cbn [app fst snd].
      rewrite Nat.add_0_r. do 2 f_equal. apply imap_ext. intros n p _.
      cbn. rewrite length_app. cbn [length]. f_equal. lia.
    + rewrite filter_cons_False; [done|]. rewrite Hinfo. by intros [? ?].
Qed.

Lemma build_groups_variables courses instructors rooms timeslots groups :
  ∀ acc,
  (fold_left (build_group_v courses instructors rooms timeslots) groups acc).1
  = acc.1
    ++ imap (λ n p, new_var (length acc.1 + n) p.1 p.2)
         (known_pairs g_courses courses groups).
Proof.
  induction groups as [|g groups IH]; intros acc.
  - cbn. by rewrite app_nil_r.
  - cbn [fold_left]. rewrite IH. unfold build_group.
    rewrite build_courses_variables. unfold known_pairs. cbn [flat_map].
    rewrite imap_app, <- app_assoc. do 2 f_equal.
    apply imap_ext. intros n p _. cbn.
    rewrite length_app, length_imap. f_equal. lia.
Qed.

(** One variable for each known (course, group) pair, in order, the
    [n]-th being the [n]-th object made. *)
Lemma build_vars_domains_variables courses instructors rooms timeslots groups :
  (build_v courses instructors rooms timeslots groups).1
  = imap (λ n p, new_var n p.1 p.2) (known_pairs g_courses courses groups).
Proof.
  unfold build_vars_domains. by rewrite build_groups_variables.
Qed.

(** The dictionary of domains has no key but the variables. *)
Lemma build_course_keys courses instructors rooms timeslots group acc cid :
  (∀ v, is_Some (acc.2 !! v) → v ∈ acc.1) →
  ∀ v, is_Some
         ((build_course_v courses instructors rooms timeslots group acc cid).2
            !! v) →
       v ∈ (build_course_v courses instructors rooms timeslots group acc cid).1.
Proof.
  intros Hacc v. destruct acc as [variables domains]. unfold build_course.
  destruct (courses !! cid); [|apply Hacc]. cbn [fst snd].
  rewrite lookup_insert. case_decide as Hv.
  - intros _. subst v. apply elem_of_app. right. by apply list_elem_of_singleton.
  - intros Hsome. apply elem_of_app. left. by apply Hacc.
Qed.

Lemma build_vars_domains_keys courses instructors rooms timeslots groups v :
  is_Some ((build_v courses instructors rooms timeslots groups).2 !! v) →
  v ∈ (build_v courses instructors rooms timeslots groups).1.
Proof.
  unfold build_vars_domains.
  assert (∀ gs acc, (∀ v, is_Some (acc.2 !! v) → v ∈ acc.1) →
    ∀ v, is_Some ((fold_left (build_group_v courses instructors rooms
                               timeslots) gs acc).2 !! v) →
         v ∈ (fold_left (build_group_v courses instructors rooms timeslots)
                gs acc).1) as Hgroups.
  { induction gs as [|g gs IH]; intros acc Hacc; [done|].
    cbn [fold_left]. apply IH. unfold build_group.
    generalize (g_courses g). intros cids. revert acc Hacc.
    induction cids as [|cid cids IHc]; intros acc Hacc; [done|].
    cbn [fold_left]. apply IHc. by apply build_course_keys. }
  apply Hgroups. intros w. cbn. rewrite lookup_empty. by intros [? ?].
Qed.

Hypothesis new_var_fresh :
  ∀ n n' cid cid' group group',
    new_var n cid group = new_var n' cid' group' → n = n'.

Lemma build_vars_domains_NoDup courses instructors rooms timeslots groups :
  NoDup (build_v courses instructors rooms timeslots groups).1.
Proof.
  apply NoDup_alt. intros i j v Hi Hj.
  destruct (build_vars_domains_built g_students g_courses new_var
              finish_domain new_var_fresh courses instructors rooms timeslots
              groups i v Hi) as (? & ? & ? & _ & _ & _ & Hvi & _).
  destruct (build_vars_domains_built g_students g_courses new_var
              finish_domain new_var_fresh courses instructors rooms timeslots
              groups j v Hj) as (? & ? & ? & _ & _ & _ & Hvj & _).
  rewrite Hvi in Hvj. by apply new_var_fresh in Hvj.
Qed.

Lemma build_vars_domains_dom courses instructors rooms timeslots groups v :
  is_Some ((build_v courses instructors rooms timeslots groups).2 !! v)
  ↔ v ∈ (build_v courses instructors rooms timeslots groups).1.
Proof.
  split; [apply build_vars_domains_keys|].
  intros Hv. apply list_elem_of_lookup in Hv as [n Hn].
  destruct (build_vars_domains_built g_students g_courses new_var
              finish_domain new_var_fresh courses instructors rooms timeslots
              groups n v Hn) as (? & ? & ? & _ & _ & _ & _ & Hdom).
  by rewrite Hdom.
Qed.

Hypothesis finish_domain_perm : ∀ n dom, finish_domain n dom ≡ₚ dom.

Lemma build_vars_domains_size courses instructors rooms timeslots groups v :
  (length (domain_of (build_v courses instructors rooms timeslots groups).2 v)
   ≤ length timeslots * (length rooms * length instructors))%nat.
Proof.
  unfold domain_of.
  destruct (_ !! v) as [dom|] eqn:Hdom; cbn [default length]; [|lia].
  assert (v ∈ (build_v courses instructors rooms timeslots groups).1) as Hv
    by (apply build_vars_domains_keys; by rewrite Hdom).
  apply list_elem_of_lookup in Hv as [n Hn].
  destruct (build_vars_domains_built g_students g_courses new_var
              finish_domain new_var_fresh courses instructors rooms timeslots
              groups n v Hn) as (? & ? & ? & _ & _ & _ & _ & Hdom').
  rewrite Hdom in Hdom'. injection Hdom' as ->.
  rewrite finish_domain_perm. apply length_build_domain.
Qed.
End BuilderShape.

(** * More of the code: [solve_timetable] *)

Lemma find_some_split {A} (f : A → bool) (l : list A) (x : A) :
  find f l = Some x →
  ∃ before after,
    l = before ++ x :: after ∧ Forall (λ y, f y = false) before ∧ f x = true.
Proof.
  induction l as [|y l IH]; [done|]. cbn [find].
  destruct (f y) eqn:Hy.
  - intros [= ->]. by exists [], l.
  - intros Hfind. destruct (IH Hfind) as (before & after & -> & Hb & Hx).
    exists (y :: before), after. repeat split; [|done]. by constructor.
Qed.

Lemma first_occurrence_unique {A} (x : A) (b1 b2 a1 a2 : list A) :
  b1 ++ x :: a1 = b2 ++ x :: a2 → x ∉ b1 → x ∉ b2 → b1 = b2.
Proof.
  revert b2. induction b1 as [|y b1 IH]; intros [|z b2] Heq H1 H2.
  - done.
  - injection Heq as -> _. exfalso. apply H2. by apply elem_of_cons; left.
  - injection Heq as -> _. exfalso. apply H1. by apply elem_of_cons; left.
  - injection Heq as -> Heq. f_equal. apply (IH b2 Heq).
    + intros ?. apply H1. by apply elem_of_cons; right.
    + intros ?. apply H2. by apply elem_of_cons; right.
Qed.

Section MorePassFacts.
Context {V : Type} `{Countable V}.
Variable v_group : V → string.
Variable order_domain : list opt → list opt.

Local Abbreviation commit_v := (commit v_group).
Local Abbreviation clears_v := (clears v_group).
Local Abbreviation step := (process_var v_group order_domain).
Local Abbreviation pass := (run v_group order_domain).
Local Abbreviation blocked_v := (blocked v_group).
Local Abbreviation tracked_v := (tracked v_group).
Local Abbreviation settled_v := (settled v_group order_domain).

(** *** When every domain is empty *)

Lemma pass_all_empty domains vs : ∀ (st : state V),
  (∀ v, v ∈ vs → domain_of domains v = []) →
  pass domains vs st = with_failed (failed_assignments st ++ vs) st.
Proof.
  induction vs as [|v vs IH]; intros st Hempty.
  - by rewrite app_nil_r, with_failed_same.
  - cbn [run fold_left].
    rewrite (process_var_empty v_group order_domain)
      by (apply Hempty; by apply elem_of_cons; left).
    fold (pass domains vs (record_failed st v)).
    rewrite IH by (intros w Hw; apply Hempty; by apply elem_of_cons; right).
    unfold with_failed, record_failed. cbn. by rewrite <- app_assoc.
Qed.

(** *** The order of the failures *)

Lemma pass_failed_sublist domains vs : ∀ (st : state V),
  ∃ extra,
    failed_assignments (pass domains vs st) = failed_assignments st ++ extra
    ∧ extra `sublist_of` vs.
Proof.
  induction vs as [|v vs IH]; intros st.
  - exists []. by rewrite app_nil_r.
  - cbn [run fold_left]. fold (pass domains vs (step domains st v)).
    destruct (IH (step domains st v)) as (extra & Hf & Hsub). rewrite Hf.
    destruct (process_var_cases v_group order_domain domains st v)
      as [->|(o & _ & _ & _ & ->)].
    + exists (v :: extra). cbn [record_failed failed_assignments].
      rewrite <- app_assoc. split; [done|]. by constructor.
    + exists extra. rewrite failed_commit. split; [done|]. by constructor.
Qed.

(** *** Counting *)

Lemma pass_count domains vs : ∀ (seen : list V) (st : state V),
  NoDup vs → (∀ v, v ∈ vs → v ∉ seen) →
  classified_once seen st →
  (size (assigned st) + length (failed_assignments st) = length seen)%nat →
  (size (assigned (pass domains vs st))
   + length (failed_assignments (pass domains vs st))
   = length vs + length seen)%nat.
Proof.
  induction vs as [|v vs IH]; intros seen st Hnd Hfresh Hc Hcount; [done|].
  apply NoDup_cons in Hnd as [Hv Hnd]. cbn [run fold_left].
  fold (pass domains vs (step domains st v)).
  assert (v ∉ seen) as Hvs by (apply Hfresh; by apply elem_of_cons; left).
  rewrite (IH (v :: seen)); [cbn [length]; lia|done| | |].
  - intros w Hw Hin. apply elem_of_cons in Hin as [->|Hin]; [done|].
    eapply Hfresh; [|done]. by apply elem_of_cons; right.
  - by apply classified_once_step.
  - assert (assigned st !! v = None) as Hnone.
    { destruct Hc as (Hd & _ & _).
      destruct (assigned st !! v) eqn:E; [|done].
      exfalso. apply Hvs, Hd. left. by eexists. }
    destruct (process_var_cases v_group order_domain domains st v)
      as [->|(o & _ & _ & _ & ->)].
    + cbn [record_failed assigned failed_assignments length].
      rewrite length_app. cbn [length]. lia.
    + rewrite assigned_commit, failed_commit, map_size_insert_None by done.
      cbn [length]. lia.
Qed.

(** *** Progress *)

Lemma step_keeps_assigned domains (st : state V) v w :
  is_Some (assigned st !! w) → is_Some (assigned (step domains st v) !! w).
Proof.
  intros Hw. destruct (process_var_cases v_group order_domain domains st v)
    as [->|(o & _ & _ & _ & ->)]; [done|].
  rewrite assigned_commit, lookup_insert. by case_decide.
Qed.

Lemma pass_keeps_assigned domains vs : ∀ (st : state V) w,
  is_Some (assigned st !! w) → is_Some (assigned (pass domains vs st) !! w).
Proof.
  induction vs as [|v vs IH]; intros st w Hw; [done|].
  cbn [run fold_left]. by apply IH, step_keeps_assigned.
Qed.

Lemma clears_untouched (st : state V) v o :
  untouched st → clears_v st v o = true.
Proof.
  intros (Hr & Hi & Hg). apply clears_true. rewrite Hr, Hi, Hg.
  repeat split; apply not_elem_of_empty.
Qed.

Hypothesis order_domain_perm : ∀ dom, order_domain dom ≡ₚ dom.

Lemma pass_progress domains vs : ∀ (st : state V),
  untouched st →
  (∃ v, v ∈ vs ∧ domain_of domains v ≠ []) →
  ∃ w, is_Some (assigned (pass domains vs st) !! w).
Proof.
  induction vs as [|v vs IH]; intros st Hst (w & Hw & Hdom).
  - by apply elem_of_nil in Hw.
  - cbn [run fold_left]. fold (pass domains vs (step domains st v)).
    destruct (domain_of domains v) as [|o0 dom] eqn:Hv.
    + rewrite (process_var_empty v_group order_domain) by done.
      apply IH; [done|]. exists w. split; [|done].
      apply elem_of_cons in Hw as [->|Hw]; [congruence|done].
    + exists v. apply pass_keeps_assigned.
      rewrite (process_var_find v_group order_domain) by (by rewrite Hv).
      rewrite Hv.
      destruct (order_domain (o0 :: dom)) as [|o1 l] eqn:Ho.
      * pose proof (order_domain_perm (o0 :: dom)) as Hp. rewrite Ho in Hp.
        by apply Permutation_nil_cons in Hp.
      * cbn [find]. rewrite clears_untouched by done.
        rewrite assigned_commit, lookup_insert_eq. by eexists.
Qed.

(** *** What blocks an option *)

Lemma process_var_outcome domains (st : state V) v :
  (step domains st v = record_failed st v
   ∧ ∀ o, o ∈ domain_of domains v → clears_v st v o = false)
  ∨ ∃ before o after,
      order_domain (domain_of domains v) = before ++ o :: after
      ∧ Forall (λ x, clears_v st v x = false) before
      ∧ clears_v st v o = true
      ∧ step domains st v = commit_v st v o.
Proof.
  destruct (domain_of domains v) as [|o0 dom] eqn:Hdom.
  - left. split; [by apply process_var_empty|].
    intros o Ho. by apply elem_of_nil in Ho.
  - rewrite (process_var_find v_group order_domain) by (by rewrite Hdom).
    rewrite Hdom.
    destruct (find _ _) as [o|] eqn:Hfind.
    + right. apply find_some_split in Hfind
        as (before & after & Hsplit & Hb & Ho).
      by exists before, o, after.
    + left. split; [done|]. intros o Ho.
      apply (List.find_none _ _ Hfind). apply list_elem_of_In.
      by rewrite order_domain_perm.
Qed.

Lemma unclear_blocked (st : state V) v o :
  tracked_v st → assigned st !! v = None → clears_v st v o = false →
  blocked_v (assigned st) v o.
Proof.
  intros (Hr & Hi & Hg) Hnone Hcl. unfold clears in Hcl.
  assert (∀ w o', assigned st !! w = Some o' → w ≠ v) as Hother
    by (intros w o' Hw ->; congruence).
  repeat (apply andb_false_iff in Hcl as [Hcl|Hcl]);
    apply negb_false_iff, bool_decide_eq_true in Hcl.
  - destruct (Hr _ _ Hcl) as (w & o' & Hw & Heq).
    exists w, o'. split; [by eapply Hother|]. split; [done|]. by left.
  - destruct (Hi _ _ Hcl) as (w & o' & Hw & Heq).
    exists w, o'. split; [by eapply Hother|]. split; [done|]. right. by left.
  - destruct (Hg _ _ Hcl) as (w & o' & Hw & Heq).
    exists w, o'. split; [by eapply Hother|]. split; [done|]. right. by right.
Qed.

Lemma blocked_insert (m : gmap V opt) v o w o' :
  m !! v = None → blocked_v m w o' → blocked_v (<[v := o]> m) w o'.
Proof.
  intros Hnone (w' & o'' & Hne & Hw' & Hclash). exists w', o''.
  split; [done|]. split; [|done].
  rewrite lookup_insert_ne; [done|]. intros ->. congruence.
Qed.

Lemma tracked_commit (st : state V) v o :
  assigned st !! v = None → tracked_v st → tracked_v (commit_v st v o).
Proof.
  intros Hnone (Hr & Hi & Hg).
  assert (∀ w o', assigned st !! w = Some o' →
                  assigned (commit_v st v o) !! w = Some o') as Hkeep.
  { intros w o' Hw. rewrite assigned_commit, lookup_insert_ne; [done|].
    intros ->. congruence. }
  assert (assigned (commit_v st v o) !! v = Some o) as Hv
    by (by rewrite assigned_commit, lookup_insert_eq).
  split; [|split].
  - intros t r. rewrite used_room_commit, elem_of_union, elem_of_singleton.
    intros [[= -> ->]|Hin]; [by exists v, o|].
    destruct (Hr _ _ Hin) as (w & o' & Hw & Heq). exists w, o'. auto.
  - intros t i. rewrite used_instr_commit, elem_of_union, elem_of_singleton.
    intros [[= -> ->]|Hin]; [by exists v, o|].
    destruct (Hi _ _ Hin) as (w & o' & Hw & Heq). exists w, o'. auto.
  - intros t g. rewrite used_section_commit, elem_of_union, elem_of_singleton.
    intros [[= -> ->]|Hin]; [by exists v, o|].
    destruct (Hg _ _ Hin) as (w & o' & Hw & Heq). exists w, o'. auto.
Qed.

Lemma settled_step domains (st : state V) v :
  assigned st !! v = None → v ∉ failed_assignments st →
  settled_v domains st → settled_v domains (step domains st v).
Proof.
  intros Hnone Hnf (Htr & Hfail & Htried).
  destruct (process_var_outcome domains st v)
    as [[-> Hall]|(before & o & after & Hsplit & Hb & Ho & ->)].
  - split; [done|]. split; [|done].
    intros w o' Hw Ho'. cbn [record_failed failed_assignments assigned] in *.
    apply elem_of_app in Hw as [Hw|Hw]; [by apply Hfail|].
    apply list_elem_of_singleton in Hw. subst w.
    apply unclear_blocked; [done..|]. by apply Hall.
  - split; [by apply tracked_commit|]. rewrite assigned_commit, failed_commit.
    split.
    + intros w o' Hw Ho'. apply blocked_insert; [done|]. by apply Hfail.
    + intros w ow before' after' Hw Hsplit' Hfirst o' Ho'.
      apply blocked_insert; [done|].
      rewrite lookup_insert in Hw. case_decide as Hvw.
      * subst w. injection Hw as <-.
        assert (before' = before) as ->.
        { apply (first_occurrence_unique o _ _ after' after);
            [congruence|done|].
          intros Hin. apply (proj1 (Forall_forall _ _) Hb) in Hin. congruence. }
        apply unclear_blocked; [done..|].
        by apply (proj1 (Forall_forall _ _) Hb).
      * by eapply Htried.
Qed.

Lemma settled_pass domains vs : ∀ (seen : list V) (st : state V),
  NoDup vs → (∀ v, v ∈ vs → v ∉ seen) →
  classified_once seen st → settled_v domains st →
  settled_v domains (pass domains vs st).
Proof.
  induction vs as [|v vs IH]; intros seen st Hnd Hfresh Hc Hs; [done|].
  apply NoDup_cons in Hnd as [Hv Hnd]. cbn [run fold_left].
  assert (v ∉ seen) as Hvs by (apply Hfresh; by apply elem_of_cons; left).
  apply (IH (v :: seen)); [done| | |].
  - intros w Hw Hin. apply elem_of_cons in Hin as [->|Hin]; [done|].
    eapply Hfresh; [|done]. by apply elem_of_cons; right.
  - by apply classified_once_step.
  - destruct Hc as (Hd & _ & _). apply settled_step; [| |done].
    + destruct (assigned st !! v) eqn:E; [|done].
      exfalso. apply Hvs, Hd. left. by eexists.
    + intros Hf. apply Hvs, Hd. by right.
Qed.

Lemma settled_initial domains : settled_v domains initial_state.
Proof.
  split; [|split].
  - repeat split; intros ? ? Hin; cbn in Hin; by apply not_elem_of_empty in Hin.
  - intros v o Hv. cbn in Hv. by apply elem_of_nil in Hv.
  - intros v o before after Hv. cbn in Hv. by rewrite lookup_empty in Hv.
Qed.
End MorePassFacts.

Lemma StronglySorted_sublist {A} (R : A → A → Prop) (l1 l2 : list A) :
  l1 `sublist_of` l2 → StronglySorted R l2 → StronglySorted R l1.
Proof.
  induction 1 as [|x l1 l2 Hsub IH|x l1 l2 Hsub IH]; intros Hs; [done| |].
  - apply StronglySorted_inv in Hs as [Hs Hx]. constructor; [by apply IH|].
    apply Forall_forall. intros y Hy.
    apply (proj1 (Forall_forall _ _) Hx). by apply (sublist_subseteq _ _ Hsub).
  - apply StronglySorted_inv in Hs as [Hs _]. by apply IH.
Qed.

Section MoreSolveFacts.
Context {V : Type} `{Countable V}.
Variable v_group : V → string.
Variable v_students : V → Z.
Variable order_domain : list opt → list opt.

Local Abbreviation solve := (solve_timetable v_group v_students order_domain).
Local Abbreviation solve_st := (solve_state v_group v_students order_domain).

Lemma solve_all_empty (variables : list V) domains :
  (∀ v, v ∈ variables → domain_of domains v = []) →
  solve variables domains = (∅, sorted_vars v_students variables domains).
Proof.
  intros Hempty. unfold solve_timetable, solve_state.
  rewrite pass_all_empty; [done|].
  intros v Hv. apply Hempty.
  by rewrite <- (sorted_vars_perm v_students variables domains).
Qed.

Lemma solve_failed_sublist (variables : list V) domains :
  (solve variables domains).2
  `sublist_of` sorted_vars v_students variables domains.
Proof.
  unfold solve_timetable, solve_state. cbn [snd].
  destruct (pass_failed_sublist v_group order_domain domains
              (sorted_vars v_students variables domains) initial_state)
    as (extra & -> & Hsub).
  done.
Qed.

Lemma solve_count (variables : list V) domains :
  NoDup variables →
  (size (solve variables domains).1 + length (solve variables domains).2
   = length variables)%nat.
Proof.
  intros Hnd. unfold solve_timetable, solve_state. cbn [fst snd].
  rewrite (pass_count v_group order_domain domains _ [] initial_state).
  - cbn [length]. rewrite Nat.add_0_r.
    by rewrite (sorted_vars_perm v_students variables domains).
  - by rewrite (sorted_vars_perm v_students variables domains).
  - intros v _ Hv. by apply elem_of_nil in Hv.
  - apply classified_once_initial.
  - cbn. by rewrite map_size_empty.
Qed.

Hypothesis order_domain_perm : ∀ dom, order_domain dom ≡ₚ dom.

Lemma solve_settled (variables : list V) domains :
  NoDup variables →
  settled v_group order_domain domains (solve_st variables domains).
Proof.
  intros Hnd. unfold solve_state.
  apply (settled_pass v_group order_domain order_domain_perm domains _ []).
  - by rewrite (sorted_vars_perm v_students variables domains).
  - intros v _ Hv. by apply elem_of_nil in Hv.
  - apply classified_once_initial.
  - apply settled_initial.
Qed.

Lemma solve_progress (variables : list V) domains v :
  v ∈ variables → domain_of domains v ≠ [] →
  ∃ w o, (solve variables domains).1 !! w = Some o.
Proof.
  intros Hv Hdom.
  destruct (pass_progress v_group order_domain order_domain_perm domains
              (sorted_vars v_students variables domains) initial_state)
    as (w & o & Hw).
  - done.
  - exists v. split; [|done].
    by rewrite (sorted_vars_perm v_students variables domains).
  - by exists w, o.
Qed.

Lemma solve_failed_blocked (variables : list V) domains v o :
  NoDup variables →
  v ∈ (solve variables domains).2 → o ∈ domain_of domains v →
  blocked v_group (solve variables domains).1 v o.
Proof.
  intros Hnd Hv Ho.
  destruct (solve_settled variables domains Hnd) as (_ & Hfail & _).
  by apply Hfail.
Qed.

Lemma solve_tried_before_blocked (variables : list V) domains v o before after :
  NoDup variables →
  (solve variables domains).1 !! v = Some o →
  order_domain (domain_of domains v) = before ++ o :: after → o ∉ before →
  ∀ o', o' ∈ before → blocked v_group (solve variables domains).1 v o'.
Proof.
  intros Hnd Hv Hsplit Hfirst.
  destruct (solve_settled variables domains Hnd) as (_ & _ & Htried).
  by eapply Htried.
Qed.
End MoreSolveFacts.

(** An option with larger flags comes before the first occurrence of
    another option in the sorted domain. *)
Lemma sorted_by_flags_before dom o o' :
  o ∈ dom → o' ∈ dom → flags_le (opt_key o') (opt_key o) = false →
  ∃ before after,
    sorted_by_flags dom = before ++ o :: after ∧ (o ∉ before) ∧ o' ∈ before.
Proof.
  intros Ho Ho' Hgt.
  rewrite <- (sorted_by_flags_perm dom) in Ho, Ho'.
  apply list_elem_of_split_l in Ho as (before & after & Hsplit & Hfirst).
  exists before, after. split; [done|]. split; [done|].
  rewrite Hsplit in Ho'. apply elem_of_app in Ho' as [Ho'|Ho']; [done|].
  exfalso. apply elem_of_cons in Ho' as [->|Ho'].
  - destruct (opt_key o) as [[] []]; discriminate.
  - pose proof (sorted_by_flags_sorted dom) as Hs. rewrite Hsplit in Hs.
    apply StronglySorted_app_1_r, StronglySorted_inv in Hs as [_ Hs].
    apply (proj1 (Forall_forall _ _) Hs) in Ho'.
    unfold flags_descending in Ho'. congruence.
Qed.

(** * Further properties of the engine *)

(** X8. [build_vars_domains] makes one variable for every (course id,
    group) pair whose course id the course map knows, in the order of the
    groups and of their course lists, the [n]-th variable being the [n]-th
    object made; a course id that is not in the map gives no variable. *)
Theorem variables_are_known_pairs :
  (∀ courses instructors rooms timeslots (groups : list Csp2.lecture_group),
     (Csp2.build_vars_domains courses instructors rooms timeslots groups).1
     = imap (λ n p, Csp2.new_var n p.1 p.2)
         (known_pairs Csp2.g_courses courses groups))
  ∧ (∀ shuffle courses instructors rooms timeslots
       (groups : list StreamlitApp.lecture_group),
       (StreamlitApp.build_vars_domains shuffle courses instructors rooms
          timeslots groups).1
       = imap (λ n p, StreamlitApp.new_var n p.1 p.2)
           (known_pairs StreamlitApp.g_courses courses groups)).
Proof.
  split; intros *; apply build_vars_domains_variables.
Qed.

(** X9. The variables that [build_vars_domains] returns are pairwise
    different objects, and the keys of [domains] are exactly these
    variables. *)
Theorem variables_distinct_with_domains :
  (∀ courses instructors rooms timeslots (groups : list Csp2.lecture_group),
     NoDup (Csp2.build_vars_domains courses instructors rooms timeslots
              groups).1
     ∧ ∀ v, is_Some
              ((Csp2.build_vars_domains courses instructors rooms timeslots
                  groups).2 !! v)
            ↔ v ∈ (Csp2.build_vars_domains courses instructors rooms
                     timeslots groups).1)
  ∧ (∀ shuffle courses instructors rooms timeslots
       (groups : list StreamlitApp.lecture_group),
       NoDup (StreamlitApp.build_vars_domains shuffle courses instructors
                rooms timeslots groups).1
       ∧ ∀ v, is_Some
                ((StreamlitApp.build_vars_domains shuffle courses instructors
                    rooms timeslots groups).2 !! v)
              ↔ v ∈ (StreamlitApp.build_vars_domains shuffle courses
                       instructors rooms timeslots groups).1).
Proof.
  split.
  - intros *. split.
    + apply build_vars_domains_NoDup, Csp2_new_var_fresh.
    + intros v. apply build_vars_domains_dom, Csp2_new_var_fresh.
  - intros *. split.
    + apply build_vars_domains_NoDup, StreamlitApp_new_var_fresh.
    + intros v. apply build_vars_domains_dom, StreamlitApp_new_var_fresh.
Qed.

(** X10. No domain has more options than there are triples of a timeslot,
    a room and an instructor. *)
Theorem domain_size_bounded :
  (∀ courses instructors rooms timeslots (groups : list Csp2.lecture_group) v,
     (length (domain_of (Csp2.build_vars_domains courses instructors rooms
                           timeslots groups).2 v)
      ≤ length timeslots * (length rooms * length instructors))%nat)
  ∧ (∀ shuffle courses instructors rooms timeslots
       (groups : list StreamlitApp.lecture_group) v,
       (∀ n dom, shuffle n dom ≡ₚ dom) →
       (length (domain_of (StreamlitApp.build_vars_domains shuffle courses
                             instructors rooms timeslots groups).2 v)
        ≤ length timeslots * (length rooms * length instructors))%nat).
Proof.
  split.
  - intros *. apply build_vars_domains_size; [apply Csp2_new_var_fresh|done].
  - intros * Hperm.
    by apply build_vars_domains_size; [apply StreamlitApp_new_var_fresh|].
Qed.

Lemma domain_size_bounded_witness :
  (length (domain_of (StreamlitApp.build_vars_domains Examples.S.shuffle
                        Examples.courses Examples.instructors Examples.rooms
                        Examples.timeslots Examples.S.groups).2 Examples.S.va)
   ≤ length Examples.timeslots
     * (length Examples.rooms * length Examples.instructors))%nat.
Proof.
  apply (proj2 domain_size_bounded). exact Examples_shuffle_perm.
Defined.

(** X11. With no timeslot, no room or no instructor, every domain is empty:
    nothing is assigned and the failed list is the sorted list of all
    variables. *)
Theorem empty_entities_fail_everything :
  (∀ courses instructors rooms timeslots (groups : list Csp2.lecture_group),
     timeslots = [] ∨ rooms = [] ∨ instructors = [] →
     Csp2.solve_timetable
       (Csp2.build_vars_domains courses instructors rooms timeslots groups).1
       (Csp2.build_vars_domains courses instructors rooms timeslots groups).2
     = (∅,
        sorted_vars Csp2.students
          (Csp2.build_vars_domains courses instructors rooms timeslots
             groups).1
          (Csp2.build_vars_domains courses instructors rooms timeslots
             groups).2))
  ∧ (∀ shuffle courses instructors rooms timeslots
       (groups : list StreamlitApp.lecture_group),
       (∀ n dom, shuffle n dom ≡ₚ dom) →
       timeslots = [] ∨ rooms = [] ∨ instructors = [] →
       StreamlitApp.solve_timetable
         (StreamlitApp.build_vars_domains shuffle courses instructors rooms
            timeslots groups).1
         (StreamlitApp.build_vars_domains shuffle courses instructors rooms
            timeslots groups).2
       = (∅,
          sorted_vars StreamlitApp.students
            (StreamlitApp.build_vars_domains shuffle courses instructors rooms
               timeslots groups).1
            (StreamlitApp.build_vars_domains shuffle courses instructors rooms
               timeslots groups).2)).
Proof.
  split.
  - intros courses instructors rooms timeslots groups Hempty.
    apply solve_all_empty. intros v _.
    pose proof (build_vars_domains_size Csp2.g_students Csp2.g_courses
                  Csp2.new_var (λ _ dom, dom) Csp2_new_var_fresh
                  (λ _ dom, reflexivity dom) courses instructors rooms
                  timeslots groups v) as Hlen.
    apply length_zero_iff_nil. fold Csp2.build_vars_domains in Hlen.
    destruct Hempty as [->|[->| ->]]; cbn [length] in Hlen; lia.
  - intros shuffle courses instructors rooms timeslots groups Hperm Hempty.
    apply solve_all_empty. intros v _.
    pose proof (build_vars_domains_size StreamlitApp.g_students
                  StreamlitApp.g_courses StreamlitApp.new_var shuffle
                  StreamlitApp_new_var_fresh Hperm courses instructors rooms
                  timeslots groups v) as Hlen.
    apply length_zero_iff_nil. fold (StreamlitApp.build_vars_domains shuffle) in Hlen.
    destruct Hempty as [->|[->| ->]]; cbn [length] in Hlen; lia.
Qed.

Lemma empty_entities_fail_everything_witness :
  Csp2.solve_timetable
    (Csp2.build_vars_domains Examples.courses Examples.instructors []
       Examples.timeslots Examples.C.groups).1
    (Csp2.build_vars_domains Examples.courses Examples.instructors []
       Examples.timeslots Examples.C.groups).2
  = (∅,
     sorted_vars Csp2.students
       (Csp2.build_vars_domains Examples.courses Examples.instructors []
          Examples.timeslots Examples.C.groups).1
       (Csp2.build_vars_domains Examples.courses Examples.instructors []
          Examples.timeslots Examples.C.groups).2).
Proof.
  apply (proj1 empty_entities_fail_everything). right. left. reflexivity.
Defined.

(** X12. Whatever the input, an assigned variable is one of the input
    variables and its option is one of the options of its own domain. *)
Theorem assignment_from_own_domain :
  (∀ (variables : list Csp2.LectureVar) domains v o,
     (Csp2.solve_timetable variables domains).1 !! v = Some o →
     v ∈ variables ∧ o ∈ domain_of domains v)
  ∧ (∀ (variables : list StreamlitApp.LectureVar) domains v o,
       (StreamlitApp.solve_timetable variables domains).1 !! v = Some o →
       v ∈ variables ∧ o ∈ domain_of domains v).
Proof.
  split; intros variables domains v o.
  - apply solve_assigned_in_domain, sorted_by_flags_perm.
  - by apply solve_assigned_in_domain.
Qed.

Lemma assignment_from_own_domain_witness :
  Examples.C.va ∈ [Examples.C.va; Examples.C.vb]
  ∧ Examples.o_T2 ∈ domain_of Examples.C.domains Examples.C.va.
Proof.
  apply (proj1 assignment_from_own_domain). reflexivity.
Defined.

(** X13. When no variable occurs twice in the input, the number of
    assignments plus the number of failures is the number of variables. *)
Theorem assigned_plus_failed_count :
  (∀ (variables : list Csp2.LectureVar) domains,
     NoDup variables →
     (size (Csp2.solve_timetable variables domains).1
      + length (Csp2.solve_timetable variables domains).2
      = length variables)%nat)
  ∧ (∀ (variables : list StreamlitApp.LectureVar) domains,
       NoDup variables →
       (size (StreamlitApp.solve_timetable variables domains).1
        + length (StreamlitApp.solve_timetable variables domains).2
        = length variables)%nat).
Proof.
  split; intros variables domains; apply solve_count.
Qed.

Lemma assigned_plus_failed_count_witness :
  (size (Csp2.solve_timetable [Examples.C.va; Examples.C.vb]
           Examples.C.domains2).1
   + length (Csp2.solve_timetable [Examples.C.va; Examples.C.vb]
               Examples.C.domains2).2
   = 2)%nat.
Proof.
  apply (proj1 assigned_plus_failed_count [Examples.C.va; Examples.C.vb]).
  apply (bool_decide_unpack _); vm_compute; exact I.
Defined.

(** X14. The failed list names the failed variables in the order in which
    the pass visits them: it is a sub-list of the sorted variables, so it
    is itself descending by student count and, among equal counts,
    ascending by domain size. *)
Theorem failures_in_processing_order :
  (∀ (variables : list Csp2.LectureVar) domains,
     (Csp2.solve_timetable variables domains).2
     `sublist_of` sorted_vars Csp2.students variables domains
     ∧ StronglySorted (before_as_sorted Csp2.students domains)
         (Csp2.solve_timetable variables domains).2)
  ∧ (∀ (variables : list StreamlitApp.LectureVar) domains,
       (StreamlitApp.solve_timetable variables domains).2
       `sublist_of` sorted_vars StreamlitApp.students variables domains
       ∧ StronglySorted (before_as_sorted StreamlitApp.students domains)
           (StreamlitApp.solve_timetable variables domains).2).
Proof.
  split; intros variables domains.
  - pose proof (solve_failed_sublist Csp2.section Csp2.students
                  sorted_by_flags variables domains) as Hsub.
    split; [exact Hsub|].
    eapply StronglySorted_sublist; [exact Hsub|apply sorted_vars_sorted].
  - pose proof (solve_failed_sublist StreamlitApp.group_name
                  StreamlitApp.students (λ dom, dom) variables domains)
      as Hsub.
    split; [exact Hsub|].
    eapply StronglySorted_sublist; [exact Hsub|apply sorted_vars_sorted].
Qed.

(** X15. When some input variable has an option, the pass does not fail
    everything: at least one variable is assigned. *)
Theorem some_variable_assigned :
  (∀ (variables : list Csp2.LectureVar) domains v,
     v ∈ variables → domain_of domains v ≠ [] →
     ∃ w o, (Csp2.solve_timetable variables domains).1 !! w = Some o)
  ∧ (∀ (variables : list StreamlitApp.LectureVar) domains v,
       v ∈ variables → domain_of domains v ≠ [] →
       ∃ w o, (StreamlitApp.solve_timetable variables domains).1 !! w = Some o).
Proof.
  split; intros variables domains v.
  - apply solve_progress, sorted_by_flags_perm.
  - by apply solve_progress.
Qed.

Lemma some_variable_assigned_witness :
  ∃ w o,
    (Csp2.solve_timetable [Examples.C.va; Examples.C.vb] Examples.C.domains2).1
      !! w = Some o.
Proof.
  apply (proj1 some_variable_assigned [Examples.C.va; Examples.C.vb]
           Examples.C.domains2 Examples.C.vb).
  - apply (bool_decide_unpack _); vm_compute; exact I.
  - vm_compute; discriminate.
Defined.

(** X16. When no variable occurs twice in the input, a failed variable
    cannot be added to the result: each option of its domain shares its
    timeslot and its room, its instructor or the group key with the
    assignment of another variable. *)
Theorem failed_variable_is_blocked :
  (∀ (variables : list Csp2.LectureVar) domains v o,
     NoDup variables →
     v ∈ (Csp2.solve_timetable variables domains).2 →
     o ∈ domain_of domains v →
     blocked Csp2.section (Csp2.solve_timetable variables domains).1 v o)
  ∧ (∀ (variables : list StreamlitApp.LectureVar) domains v o,
       NoDup variables →
       v ∈ (StreamlitApp.solve_timetable variables domains).2 →
       o ∈ domain_of domains v →
       blocked StreamlitApp.group_name
         (StreamlitApp.solve_timetable variables domains).1 v o).
Proof.
  split; intros variables domains v o.
  - apply solve_failed_blocked, sorted_by_flags_perm.
  - by apply solve_failed_blocked.
Qed.

Lemma failed_variable_is_blocked_witness :
  blocked Csp2.section
    (Csp2.solve_timetable [Examples.C.va; Examples.C.vb] Examples.C.domains2).1
    Examples.C.vb Examples.o_T1.
Proof.
  apply (proj1 failed_variable_is_blocked).
  - apply (bool_decide_unpack _); vm_compute; exact I.
  - apply (bool_decide_unpack _); vm_compute; exact I.
  - apply (bool_decide_unpack _); vm_compute; exact I.
Defined.

(** X17. When no variable occurs twice in the input, a variable gets a
    less preferred option only when the better ones are taken.  In
    [csp2.py], every option of its domain whose (qualification,
    preference) flags are larger than those of the option it got clashes
    with the assignment of another variable; in [streamlit_app_v4.py] the
    same holds for every option stored before the first occurrence of the
    option it got. *)
Theorem better_options_are_taken :
  (∀ (variables : list Csp2.LectureVar) domains v o o',
     NoDup variables →
     (Csp2.solve_timetable variables domains).1 !! v = Some o →
     o' ∈ domain_of domains v →
     flags_le (opt_key o') (opt_key o) = false →
     blocked Csp2.section (Csp2.solve_timetable variables domains).1 v o')
  ∧ (∀ (variables : list StreamlitApp.LectureVar) domains v o before after o',
       NoDup variables →
       (StreamlitApp.solve_timetable variables domains).1 !! v = Some o →
       domain_of domains v = before ++ o :: after → o ∉ before →
       o' ∈ before →
       blocked StreamlitApp.group_name
         (StreamlitApp.solve_timetable variables domains).1 v o').
Proof.
  split.
  - intros variables domains v o o' Hnd Hv Ho' Hgt.
    assert (o ∈ domain_of domains v) as Ho.
    { by apply (solve_assigned_in_domain Csp2.section Csp2.students
                  sorted_by_flags sorted_by_flags_perm variables). }
    destruct (sorted_by_flags_before _ _ _ Ho Ho' Hgt)
      as (before & after & Hsplit & Hfirst & Hin).
    by eapply (solve_tried_before_blocked Csp2.section Csp2.students
                 sorted_by_flags sorted_by_flags_perm).
  - intros variables domains v o before after o' Hnd Hv Hsplit Hfirst Hin.
    by eapply (solve_tried_before_blocked StreamlitApp.group_name
                 StreamlitApp.students (λ dom, dom) (λ dom, reflexivity dom)).
Qed.

Lemma better_options_are_taken_witness :
  blocked Csp2.section
    (Csp2.solve_timetable [Examples.C.va; Examples.C.vb]
       MoreExamples.C.domains3).1
    Examples.C.vb Examples.o_T2
  ∧ blocked StreamlitApp.group_name
      (StreamlitApp.solve_timetable [Examples.S.va; Examples.S.vb]
         MoreExamples.S.domains3).1
      Examples.S.vb Examples.o_T2.
Proof.
  split.
  - apply (proj1 better_options_are_taken [Examples.C.va; Examples.C.vb]
             MoreExamples.C.domains3 Examples.C.vb Examples.o_T1 Examples.o_T2).
    + apply (bool_decide_unpack _); vm_compute; exact I.
    + reflexivity.
    + apply (bool_decide_unpack _); vm_compute; exact I.
    + reflexivity.
  - apply (proj2 better_options_are_taken [Examples.S.va; Examples.S.vb]
             MoreExamples.S.domains3 Examples.S.vb Examples.o_T1
             [Examples.o_T2] []).
    + apply (bool_decide_unpack _); vm_compute; exact I.
    + reflexivity.
    + reflexivity.
    + apply (bool_decide_unpack _); vm_compute; exact I.
    + apply (bool_decide_unpack _); vm_compute; exact I.
Defined.

(** C3.  For every input the pass returns a result, the functions being
    structurally recursive.  Every input variable is in the assignment map
    or in the failed list, nothing else is, and a variable with an empty
    domain is failed and not assigned.  The list of variables holds
    distinct objects, one per pair of a course and a group: that is what
    [build_vars_domains] returns, for every input, and what every caller
    passes.  On such a list no variable is both assigned and failed and
    none is listed as failed twice, so each variable is classified exactly
    once. *)
Theorem every_variable_classified :
  (∀ (variables : list Csp2.LectureVar) domains,
     (∀ v, v ∈ variables →
        is_Some ((Csp2.solve_timetable variables domains).1 !! v)
        ∨ v ∈ (Csp2.solve_timetable variables domains).2)
     ∧ (∀ v, is_Some ((Csp2.solve_timetable variables domains).1 !! v)
             ∨ v ∈ (Csp2.solve_timetable variables domains).2 →
             v ∈ variables)
     ∧ (∀ v, v ∈ variables → domain_of domains v = [] →
             v ∈ (Csp2.solve_timetable variables domains).2
             ∧ (Csp2.solve_timetable variables domains).1 !! v = None)
     ∧ (NoDup variables →
        NoDup (Csp2.solve_timetable variables domains).2
        ∧ ∀ v, is_Some ((Csp2.solve_timetable variables domains).1 !! v) →
               v ∉ (Csp2.solve_timetable variables domains).2))
  ∧ (∀ (variables : list StreamlitApp.LectureVar) domains,
       (∀ v, v ∈ variables →
          is_Some ((StreamlitApp.solve_timetable variables domains).1 !! v)
          ∨ v ∈ (StreamlitApp.solve_timetable variables domains).2)
       ∧ (∀ v, is_Some ((StreamlitApp.solve_timetable variables domains).1 !! v)
               ∨ v ∈ (StreamlitApp.solve_timetable variables domains).2 →
               v ∈ variables)
       ∧ (∀ v, v ∈ variables → domain_of domains v = [] →
               v ∈ (StreamlitApp.solve_timetable variables domains).2
               ∧ (StreamlitApp.solve_timetable variables domains).1 !! v = None)
       ∧ (NoDup variables →
          NoDup (StreamlitApp.solve_timetable variables domains).2
          ∧ ∀ v, is_Some ((StreamlitApp.solve_timetable variables domains).1 !! v) →
                 v ∉ (StreamlitApp.solve_timetable variables domains).2))
  ∧ (∀ courses instructors rooms timeslots (groups : list Csp2.lecture_group),
       NoDup (Csp2.build_vars_domains courses instructors rooms timeslots
                groups).1)
  ∧ (∀ shuffle courses instructors rooms timeslots
       (groups : list StreamlitApp.lecture_group),
       NoDup (StreamlitApp.build_vars_domains shuffle courses instructors rooms
                timeslots groups).1).
Proof.
  split; [|split; [|split]]; [intros variables domains ..| |].
  - destruct (solve_covers Csp2.section Csp2.students sorted_by_flags
                variables domains) as (H1 & H2 & H3).
    split; [exact H1|]. split; [exact H2|]. split; [exact H3|].
    apply (solve_exactly_once Csp2.section Csp2.students sorted_by_flags).
  - destruct (solve_covers StreamlitApp.group_name StreamlitApp.students
                (λ dom, dom) variables domains) as (H1 & H2 & H3).
    split; [exact H1|]. split; [exact H2|]. split; [exact H3|].
    apply (solve_exactly_once StreamlitApp.group_name StreamlitApp.students
             (λ dom, dom)).
  - intros courses instructors rooms timeslots groups.
    apply build_vars_domains_NoDup, Csp2_new_var_fresh.
  - intros shuffle courses instructors rooms timeslots groups.
    apply build_vars_domains_NoDup, StreamlitApp_new_var_fresh.
Qed.

Lemma every_variable_classified_witness :
  (is_Some ((Csp2.solve_timetable [Examples.C.va; Examples.C.vb]
               Examples.C.domains2).1 !! Examples.C.va)
   ∨ Examples.C.va
     ∈ (Csp2.solve_timetable [Examples.C.va; Examples.C.vb]
          Examples.C.domains2).2)
  ∧ (Examples.C.vb
     ∈ (Csp2.solve_timetable [Examples.C.va; Examples.C.vb]
          Examples.C.domains1).2
     ∧ (Csp2.solve_timetable [Examples.C.va; Examples.C.vb]
          Examples.C.domains1).1 !! Examples.C.vb = None)
  ∧ (Examples.C.va
     ∉ (Csp2.solve_timetable [Examples.C.va; Examples.C.vb]
          Examples.C.domains1).2)
  ∧ NoDup (StreamlitApp.solve_timetable [Examples.S.va; Examples.S.vb]
             Examples.S.domains2).2.
Proof.
  destruct every_variable_classified as (Hcsp2 & Hweb & _ & _).
  destruct (Hcsp2 [Examples.C.va; Examples.C.vb] Examples.C.domains2)
    as (Hcover & _).
  destruct (Hcsp2 [Examples.C.va; Examples.C.vb] Examples.C.domains1)
    as (_ & _ & Hempty & Honce).
  destruct (Hweb [Examples.S.va; Examples.S.vb] Examples.S.domains2)
    as (_ & _ & _ & Honce').
  split; [|split; [|split]].
  - apply Hcover. apply (bool_decide_unpack _); vm_compute; exact I.
  - apply Hempty.
    + apply (bool_decide_unpack _); vm_compute; exact I.
    + reflexivity.
  - apply Honce.
    + apply (bool_decide_unpack _); vm_compute; exact I.
    + by eexists.
  - apply Honce'. apply (bool_decide_unpack _); vm_compute; exact I.
Defined.

(** X18. Run after [build_vars_domains], the solver classifies every
    variable exactly once: each variable of the builder is either assigned
    and not failed, or failed and not assigned, and the failed list names
    no variable twice. *)
Theorem pipeline_classifies_exactly_once :
  (∀ courses instructors rooms timeslots (groups : list Csp2.lecture_group) v,
     v ∈ (Csp2.build_vars_domains courses instructors rooms timeslots groups).1 →
     NoDup (Csp2.solve_timetable
              (Csp2.build_vars_domains courses instructors rooms timeslots
                 groups).1
              (Csp2.build_vars_domains courses instructors rooms timeslots
                 groups).2).2
     ∧ (is_Some
          ((Csp2.solve_timetable
              (Csp2.build_vars_domains courses instructors rooms timeslots
                 groups).1
              (Csp2.build_vars_domains courses instructors rooms timeslots
                 groups).2).1 !! v)
        ↔ v ∉ (Csp2.solve_timetable
                 (Csp2.build_vars_domains courses instructors rooms timeslots
                    groups).1
                 (Csp2.build_vars_domains courses instructors rooms timeslots
                    groups).2).2))
  ∧ (∀ shuffle courses instructors rooms timeslots
       (groups : list StreamlitApp.lecture_group) v,
       v ∈ (StreamlitApp.build_vars_domains shuffle courses instructors rooms
              timeslots groups).1 →
       NoDup (StreamlitApp.solve_timetable
                (StreamlitApp.build_vars_domains shuffle courses instructors
                   rooms timeslots groups).1
                (StreamlitApp.build_vars_domains shuffle courses instructors
                   rooms timeslots groups).2).2
       ∧ (is_Some
            ((StreamlitApp.solve_timetable
                (StreamlitApp.build_vars_domains shuffle courses instructors
                   rooms timeslots groups).1
                (StreamlitApp.build_vars_domains shuffle courses instructors
                   rooms timeslots groups).2).1 !! v)
          ↔ v ∉ (StreamlitApp.solve_timetable
                   (StreamlitApp.build_vars_domains shuffle courses
                      instructors rooms timeslots groups).1
                   (StreamlitApp.build_vars_domains shuffle courses
                      instructors rooms timeslots groups).2).2)).
Proof.
  split.
  - intros courses instructors rooms timeslots groups v Hv.
    pose proof (build_vars_domains_NoDup Csp2.g_students Csp2.g_courses
                  Csp2.new_var (λ _ dom, dom) Csp2_new_var_fresh courses
                  instructors rooms timeslots groups) as Hnd.
    fold Csp2.build_vars_domains in Hnd.
    destruct (solve_exactly_once Csp2.section Csp2.students sorted_by_flags
                _ (Csp2.build_vars_domains courses instructors rooms
                     timeslots groups).2 Hnd) as [Hf Hx].
    split; [exact Hf|]. split; [apply Hx|].
    intros Hnot.
    destruct (solve_covers Csp2.section Csp2.students sorted_by_flags
                (Csp2.build_vars_domains courses instructors rooms timeslots
                   groups).1
                (Csp2.build_vars_domains courses instructors rooms timeslots
                   groups).2) as (Hcov & _).
    by destruct (Hcov v Hv).
  - intros shuffle courses instructors rooms timeslots groups v Hv.
    pose proof (build_vars_domains_NoDup StreamlitApp.g_students
                  StreamlitApp.g_courses StreamlitApp.new_var shuffle
                  StreamlitApp_new_var_fresh courses
                  instructors rooms timeslots groups) as Hnd.
    fold (StreamlitApp.build_vars_domains shuffle) in Hnd.
    destruct (solve_exactly_once StreamlitApp.group_name StreamlitApp.students
                (λ dom, dom) _
                (StreamlitApp.build_vars_domains shuffle courses instructors
                   rooms timeslots groups).2 Hnd) as [Hf Hx].
    split; [exact Hf|]. split; [apply Hx|].
    intros Hnot.
    destruct (solve_covers StreamlitApp.group_name StreamlitApp.students
                (λ dom, dom)
                (StreamlitApp.build_vars_domains shuffle courses instructors
                   rooms timeslots groups).1
                (StreamlitApp.build_vars_domains shuffle courses instructors
                   rooms timeslots groups).2) as (Hcov & _).
    by destruct (Hcov v Hv).
Qed.

Lemma pipeline_classifies_exactly_once_witness :
  NoDup (Csp2.solve_timetable
           (Csp2.build_vars_domains Examples.courses Examples.instructors
              Examples.rooms Examples.timeslots Examples.C.groups).1
           (Csp2.build_vars_domains Examples.courses Examples.instructors
              Examples.rooms Examples.timeslots Examples.C.groups).2).2
  ∧ (is_Some
       ((Csp2.solve_timetable
           (Csp2.build_vars_domains Examples.courses Examples.instructors
              Examples.rooms Examples.timeslots Examples.C.groups).1
           (Csp2.build_vars_domains Examples.courses Examples.instructors
              Examples.rooms Examples.timeslots Examples.C.groups).2).1
          !! Examples.C.vc)
     ↔ Examples.C.vc
       ∉ (Csp2.solve_timetable
            (Csp2.build_vars_domains Examples.courses Examples.instructors
               Examples.rooms Examples.timeslots Examples.C.groups).1
            (Csp2.build_vars_domains Examples.courses Examples.instructors
               Examples.rooms Examples.timeslots Examples.C.groups).2).2).
Proof.
  apply (proj1 pipeline_classifies_exactly_once).
  apply (bool_decide_unpack _); vm_compute; exact I.
Defined.

(** * More of the code: the lecture groups *)

Lemma sum_Z_cons x l : sum_Z (x :: l) = x + sum_Z l.
Proof. reflexivity. Qed.

Lemma sum_Z_app l1 l2 : sum_Z (l1 ++ l2) = sum_Z l1 + sum_Z l2.
Proof.
  unfold sum_Z. induction l1 as [|x l1 IH]; cbn [app foldr]; [done|]. lia.
Qed.

Lemma sum_Z_pointwise {A} (f g : A → Z) (l : list A) :
  sum_Z ((λ x, f x + g x) <$> l) = sum_Z (f <$> l) + sum_Z (g <$> l).
Proof.
  unfold sum_Z. induction l as [|x l IH]; cbn [fmap list_fmap foldr]; [done|].
  change (list_fmap _ _ ?h l) with (h <$> l). lia.
Qed.

Lemma sum_Z_indicator {A} `{EqDecision A} (ks : list A) (k0 : A) (c : Z) :
  NoDup ks → k0 ∈ ks →
  sum_Z ((λ k, if decide (k0 = k) then c else 0) <$> ks) = c.
Proof.
  unfold sum_Z. induction ks as [|k ks IH]; intros Hnd Hin.
  - by apply elem_of_nil in Hin.
  - apply NoDup_cons in Hnd as [Hk Hnd]. cbn [fmap list_fmap foldr].
    change (list_fmap _ _ ?h ks) with (h <$> ks).
    destruct (decide (k0 = k)) as [->|Hne].
    + assert (foldr Z.add 0 ((λ k', if decide (k = k') then c else 0) <$> ks)
              = 0) as ->; [|lia].
      clear IH Hnd Hin. induction ks as [|k' ks IH]; [done|].
      cbn [fmap list_fmap foldr]. change (list_fmap _ _ ?h ks) with (h <$> ks).
      rewrite decide_False by (intros ->; apply Hk; by apply elem_of_cons; left).
      rewrite IH; [done|]. intros ?. apply Hk. by apply elem_of_cons; right.
    + apply elem_of_cons in Hin as [?|Hin]; [done|]. rewrite IH by done. lia.
Qed.

Lemma sum_Z_zero {A} (ks : list A) : sum_Z ((λ _, 0) <$> ks) = 0.
Proof. unfold sum_Z. induction ks as [|k ks IH]; [done|]. cbn. exact IH. Qed.

Lemma sum_Z_perm l1 l2 : l1 ≡ₚ l2 → sum_Z l1 = sum_Z l2.
Proof.
  unfold sum_Z. induction 1; cbn [foldr]; lia.
Qed.

Section GroupFacts.
Context {K : Type} `{EqDecision K}.
Variable key_text : K → string.

Lemma students_by_key (rows : list (section_row K)) (ks : list (Z * K)) :
  NoDup ks →
  (∀ r k, r ∈ rows → row_key r = Some k → k ∈ ks) →
  sum_Z ((λ k, sum_Z (StudentCount <$> group_data rows k)) <$> ks)
  = sum_Z (StudentCount <$> filter (λ r, is_Some (row_key r)) rows).
Proof.
  intros Hnd. induction rows as [|r rows IH]; intros Hks.
  - apply sum_Z_zero.
  - assert (∀ r k, r ∈ rows → row_key r = Some k → k ∈ ks) as Hks'
      by (intros r' k Hr'; apply Hks; by apply elem_of_cons; right).
    specialize (IH Hks').
    transitivity
      (sum_Z ((λ k, (if decide (row_key r = Some k) then StudentCount r else 0)
                    + sum_Z (StudentCount <$> group_data rows k)) <$> ks)).
    { f_equal. apply list_fmap_ext. intros _ k _. unfold group_data.
      rewrite filter_cons. by case_decide. }
    rewrite sum_Z_pointwise, IH. rewrite filter_cons.
    destruct (row_key r) as [k0|] eqn:Hr.
    + rewrite decide_True by (by eexists).
      rewrite fmap_cons, sum_Z_cons. f_equal.
      etransitivity;
        [|apply (sum_Z_indicator ks k0 (StudentCount r) Hnd);
          eapply Hks; [by apply elem_of_cons; left|done]].
      f_equal. apply list_fmap_ext. intros _ k _.
      destruct (decide (k0 = k)) as [->|Hne]; [by rewrite decide_True|].
      rewrite decide_False; [done|]. by intros [= ?].
    + rewrite decide_False by (by intros [? ?]).
      transitivity
        (sum_Z ((λ _, 0) <$> ks)
         + sum_Z (StudentCount <$> filter (λ r, is_Some (row_key r)) rows)).
      * f_equal.
      * by rewrite sum_Z_zero.
Qed.

Lemma group_keys_complete (rows : list (section_row K)) r k :
  r ∈ rows → row_key r = Some k → k ∈ group_keys rows.
Proof.
  intros Hr Hk. unfold group_keys. apply elem_of_remove_dups.
  apply list_elem_of_omap. by exists r.
Qed.

Lemma wrap64_int64 z : int64 (wrap64 z).
Proof.
  unfold int64, wrap64.
  pose proof (Z.mod_pos_bound (z + 2 ^ 63) (2 ^ 64)). lia.
Qed.

Lemma wrap64_congruent z : ((wrap64 z - z) mod 2 ^ 64 = 0)%Z.
Proof.
  unfold wrap64.
  replace ((z + 2 ^ 63) mod 2 ^ 64 - 2 ^ 63 - z)%Z
    with (- (2 ^ 64 * ((z + 2 ^ 63) / 2 ^ 64)))%Z
    by (pose proof (Z.div_mod (z + 2 ^ 63) (2 ^ 64)); lia).
  rewrite <- Z.mul_opp_r, Z.mul_comm. apply Z.mod_mul. lia.
Qed.

Lemma wrap64_id z : int64 z → wrap64 z = z.
Proof.
  unfold int64, wrap64. intros Hz. rewrite Z.mod_small; lia.
Qed.

Lemma sum_Z_filter_bounds (rows : list (section_row K))
    (P : section_row K → Prop) `{∀ r, Decision (P r)} :
  Forall (λ r, (0 ≤ StudentCount r)%Z) rows →
  (0 ≤ sum_Z (StudentCount <$> filter P rows)
     ≤ sum_Z (StudentCount <$> rows))%Z.
Proof.
  induction 1 as [|r rows Hr Hrows IH].
  - unfold sum_Z. cbn. lia.
  - rewrite filter_cons, fmap_cons. unfold sum_Z in *.
    destruct (decide (P r)); cbn [fmap list_fmap foldr];
      change (list_fmap _ _ ?h ?l) with (h <$> l); lia.
Qed.

Lemma total_students_exact (rows : list (section_row K)) k :
  Forall (λ r, (0 ≤ StudentCount r)%Z) rows →
  (sum_Z (StudentCount <$> rows) < 2 ^ 63)%Z →
  total_students (group_data rows k)
  = sum_Z (StudentCount <$> group_data rows k).
Proof.
  intros Hpos Hsum. unfold total_students. apply wrap64_id.
  pose proof (sum_Z_filter_bounds rows (λ r, row_key r = Some k) Hpos).
  unfold int64, group_data. lia.
Qed.

End GroupFacts.

(** X19. On a sheet whose student counts are 64-bit integers, the student
    count of a lecture group is the sum of the student counts of its rows
    in 64-bit arithmetic: a 64-bit value that differs from the sum by a
    multiple of 2^64.  When no student count is negative
    and the counts of the sheet add up to less than 2^63, grouping loses no
    student: every lecture group has the sum of its rows, and the counts
    of the groups add up to the counts of the rows that have a key.  There
    is one lecture group for each distinct pair of a level and a key. *)
Theorem lecture_groups_keep_students {K : Type} `{EqDecision K}
    (key_text : K → string) (arrange : list (Z * K) → list (Z * K))
    (sections_df : list (section_row K)) :
  (∀ keys, arrange keys ≡ₚ keys) →
  Forall (λ r, int64 (StudentCount r)) sections_df →
  (∀ k,
     int64 (Csp2.g_students (csp2_group key_text sections_df k))
     ∧ ((Csp2.g_students (csp2_group key_text sections_df k)
         - sum_Z (StudentCount <$> group_data sections_df k)) mod 2 ^ 64 = 0)%Z
     ∧ StreamlitApp.g_students (streamlit_group key_text sections_df k)
       = Csp2.g_students (csp2_group key_text sections_df k))
  ∧ (Forall (λ r, (0 ≤ StudentCount r)%Z) sections_df →
     (sum_Z (StudentCount <$> sections_df) < 2 ^ 63)%Z →
     (∀ k, Csp2.g_students (csp2_group key_text sections_df k)
           = sum_Z (StudentCount <$> group_data sections_df k))
     ∧ sum_Z (Csp2.g_students
                <$> csp2_lecture_groups key_text arrange sections_df)
       = sum_Z (StudentCount
                  <$> filter (λ r, is_Some (row_key r)) sections_df)
     ∧ sum_Z (StreamlitApp.g_students
                <$> streamlit_lecture_groups key_text arrange sections_df)
       = sum_Z (StudentCount
                  <$> filter (λ r, is_Some (row_key r)) sections_df))
  ∧ length (csp2_lecture_groups key_text arrange sections_df)
    = length (group_keys sections_df)
  ∧ length (streamlit_lecture_groups key_text arrange sections_df)
    = length (group_keys sections_df).
Proof.
  intros Hperm _. split; [|split].
  - intros k. cbn [csp2_group streamlit_group Csp2.g_students
                   StreamlitApp.g_students].
    unfold total_students.
    split; [apply wrap64_int64|]. split; [apply wrap64_congruent|done].
  - intros Hpos Hsum.
    assert (sum_Z ((λ k, total_students (group_data sections_df k))
                     <$> arrange (group_keys sections_df))
            = sum_Z (StudentCount
                       <$> filter (λ r, is_Some (row_key r)) sections_df))
      as Hgroups.
    { transitivity
        (sum_Z ((λ k, sum_Z (StudentCount <$> group_data sections_df k))
                  <$> arrange (group_keys sections_df))).
      - f_equal. apply list_fmap_ext. intros _ k _.
        by apply total_students_exact.
      - apply students_by_key.
        + rewrite Hperm. apply NoDup_remove_dups.
        + intros r k Hr Hk. rewrite Hperm. by eapply group_keys_complete. }
    split; [intros k; by apply total_students_exact|].
    unfold csp2_lecture_groups, streamlit_lecture_groups.
    rewrite <- !list_fmap_compose. by split.
  - unfold csp2_lecture_groups, streamlit_lecture_groups.
    rewrite !length_fmap. by rewrite Hperm.
Qed.

Lemma lecture_groups_keep_students_witness :
  sum_Z (Csp2.g_students
           <$> csp2_lecture_groups GroupExamples.key_text GroupExamples.arrange
                 GroupExamples.sections)
  = sum_Z (StudentCount
             <$> filter (λ r, is_Some (row_key r)) GroupExamples.sections)
  ∧ length (csp2_lecture_groups GroupExamples.key_text GroupExamples.arrange
              GroupExamples.sections)
    = length (group_keys GroupExamples.sections).
Proof.
  destruct (lecture_groups_keep_students GroupExamples.key_text
              GroupExamples.arrange GroupExamples.sections)
    as (_ & Hexact & Hlength & _).
  - intros keys. reflexivity.
  - repeat constructor; vm_compute; congruence.
  - split; [|exact Hlength]. apply Hexact.
    + repeat constructor; vm_compute; discriminate.
    + vm_compute. reflexivity.
Defined.

(** The groups of the example sheet, and a sum of 64-bit integers that
    wraps around. *)
Example lecture_groups_of_example_sheet :
  csp2_lecture_groups GroupExamples.key_text GroupExamples.arrange
    GroupExamples.sections
  = GroupExamples.lecture_groups.
Proof. vm_compute. reflexivity. Qed.

Example total_students_wraps :
  total_students
    [ {| Level := 1; GroupKey := Some 1%Z; SectionID := "1";
         StudentCount := 2 ^ 62; SectionCourses := None |};
      {| Level := 1; GroupKey := Some 1%Z; SectionID := "2";
         StudentCount := 2 ^ 62; SectionCourses := None |} ]
  = - 2 ^ 63.
Proof. reflexivity. Qed.

(** *** Group names *)

Lemma pretty_N_char_no_underscore n : Ascii.eqb (pretty_N_char n) "_" = false.
Proof. unfold pretty_N_char. by repeat case_match. Qed.

Lemma pretty_N_go_no_underscore x s :
  mentions "_" s = false → mentions "_" (pretty_N_go x s) = false.
Proof.
  revert s. induction (N.lt_wf_0 x) as [x _ IH]; intros s Hs.
  destruct (decide (x = 0)%N) as [->|Hx]; [by rewrite pretty_N_go_0|].
  rewrite pretty_N_go_step by lia. apply IH.
  - apply N.div_lt; lia.
  - cbn [mentions]. by rewrite pretty_N_char_no_underscore, Hs.
Qed.

Lemma pretty_Z_no_underscore (z : Z) : mentions "_" (pretty z) = false.
Proof.
  destruct z as [|p|p]; [done| |].
  - unfold pretty, pretty_Z, pretty, pretty_positive, pretty, pretty_N.
    rewrite decide_False by done. by apply pretty_N_go_no_underscore.
  - unfold pretty, pretty_Z.
    change (mentions "_" (String "-" (pretty p)) = false). cbn [mentions].
    unfold pretty, pretty_positive, pretty, pretty_N.
    rewrite decide_False by done. by apply pretty_N_go_no_underscore.
Qed.

Lemma split_at_first (c : ascii) (s1 s2 t1 t2 : string) :
  mentions c s1 = false → mentions c s2 = false →
  (s1 ++ String c t1 = s2 ++ String c t2)%string → s1 = s2 ∧ t1 = t2.
Proof.
  revert s2. induction s1 as [|a s1 IH]; intros [|b s2] H1 H2 Heq.
  - by injection Heq as ->.
  - injection Heq as <- _. cbn in H2. by rewrite Ascii.eqb_refl in H2.
  - injection Heq as -> _. cbn in H1. by rewrite Ascii.eqb_refl in H1.
  - injection Heq as -> Heq. cbn [mentions] in H1, H2.
    apply orb_false_iff in H1 as [_ H1]. apply orb_false_iff in H2 as [_ H2].
    destruct (IH s2 H1 H2 Heq) as [-> ->]. done.
Qed.

Lemma group_name_of_inj {K : Type} (key_text : K → string) (k1 k2 : Z * K) :
  group_name_of key_text k1 = group_name_of key_text k2 →
  k1.1 = k2.1 ∧ key_text k1.2 = key_text k2.2.
Proof.
  unfold group_name_of. intros Heq.
  apply split_at_first in Heq as [Hl Hg]; [|apply pretty_Z_no_underscore..].
  split; [by apply (inj pretty) in Hl|done].
Qed.

(** X20. When no two keys of the sheet have the same text, different
    lecture groups get different group names, so the clash check on
    (timeslot, group name) never takes two groups for one. *)
Theorem lecture_group_names_distinct {K : Type} `{EqDecision K}
    (key_text : K → string) (arrange : list (Z * K) → list (Z * K))
    (sections_df : list (section_row K)) :
  (∀ keys, arrange keys ≡ₚ keys) →
  (∀ k1 k2, k1 ∈ group_keys sections_df → k2 ∈ group_keys sections_df →
            key_text k1.2 = key_text k2.2 → k1.2 = k2.2) →
  NoDup (Csp2.g_group_name
           <$> csp2_lecture_groups key_text arrange sections_df)
  ∧ NoDup (StreamlitApp.g_group_name
             <$> streamlit_lecture_groups key_text arrange sections_df).
Proof.
  intros Hperm Htext.
  assert (NoDup (group_name_of key_text <$> arrange (group_keys sections_df)))
    as Hnd.
  { apply NoDup_fmap_2_strong.
    - intros [l1 g1] [l2 g2] H1 H2 Heq. rewrite Hperm in H1, H2.
      apply group_name_of_inj in Heq as [Hl Hg]. cbn [fst snd] in Hl, Hg.
      apply (Htext _ _ H1 H2) in Hg. cbn [snd] in Hg. by subst.
    - rewrite Hperm. apply NoDup_remove_dups. }
  unfold csp2_lecture_groups, streamlit_lecture_groups.
  by rewrite <- !list_fmap_compose.
Qed.

Lemma lecture_group_names_distinct_witness :
  NoDup (Csp2.g_group_name
           <$> csp2_lecture_groups GroupExamples.key_text GroupExamples.arrange
                 GroupExamples.sections).
Proof.
  apply (lecture_group_names_distinct GroupExamples.key_text
           GroupExamples.arrange GroupExamples.sections).
  - intros keys. reflexivity.
  - intros k1 k2 _ _. apply (inj pretty).
Defined.

(** * More of the code: the result rows *)

Lemma preprocess_timeslots_has_info rows t :
  t ∈ (preprocess_timeslots rows).1 →
  is_Some (dict_get (preprocess_timeslots rows).2 t).
Proof.
  rewrite preprocess_timeslots_parts. cbn [fst snd].
  rewrite load_rows_lookup, list_elem_of_filter, list_elem_of_fmap.
  intros (Ht & r & Hkey & Hr). rewrite decide_False by done.
  rewrite fmap_is_Some, last_is_Some. intros Hnil.
  exact (filter_nil_not_elem_of _ rows r Hnil (eq_sym Hkey) Hr).
Qed.

Lemma preprocess_rooms_wf rows : dict_wf (preprocess_rooms rows).
Proof. rewrite preprocess_rooms_load. apply load_rows_wf, NoDup_nil_2. Qed.

Lemma preprocess_instructors_wf rows : dict_wf (preprocess_instructors rows).
Proof. rewrite preprocess_instructors_load. apply load_rows_wf, NoDup_nil_2. Qed.

(** X21. On a run from the sheets, whatever the lecture groups, the rows
    written for the
    assignments never fall back on "N/A" or "unknown": the timeslot of an
    assignment has its entry in [timeslot_info], its instructor and room
    are in their dictionaries, the row carries the day, start and end of
    that entry and the name of that instructor, its qualification flag is
    true and its preference flag says whether the timeslot is in the
    instructor's preferred set. *)
Theorem result_rows_need_no_default :
  (∀ courses_df instructors_df rooms_df timeslots_df lecture_groups v val,
     (csp2_run courses_df instructors_df rooms_df timeslots_df
        lecture_groups).1 !! v = Some val →
     ∃ entry i_info r_info,
       dict_get (preprocess_timeslots timeslots_df).2 (opt_t val) = Some entry
       ∧ dict_get (preprocess_instructors instructors_df) (opt_instr val)
         = Some i_info
       ∧ dict_get (preprocess_rooms rooms_df) (opt_r val) = Some r_info
       ∧ export_row (preprocess_timeslots timeslots_df).2
           (preprocess_instructors instructors_df) v val
         = {| out_Course := Csp2.course v; out_Group := Csp2.section v;
              out_Year := Csp2.year v; out_Students := Csp2.students v;
              out_Day := ts_day entry; out_Start := ts_start entry;
              out_End := ts_end entry; out_Room := opt_r val;
              out_Instructor := i_name i_info;
              out_InstructorQualified := true;
              out_TimeslotIsPreferred := bool_decide (opt_t val ∈ prefs i_info);
              out_Type := None |})
  ∧ (∀ shuffle courses_df instructors_df rooms_df timeslots_df
       lecture_groups v val,
       (∀ n dom, shuffle n dom ≡ₚ dom) →
       (streamlit_run shuffle courses_df instructors_df rooms_df
          timeslots_df lecture_groups).1 !! v = Some val →
       ∃ entry i_info r_info info,
         dict_get (preprocess_timeslots timeslots_df).2 (opt_t val) = Some entry
         ∧ dict_get (preprocess_instructors instructors_df) (opt_instr val)
           = Some i_info
         ∧ dict_get (preprocess_rooms rooms_df) (opt_r val) = Some r_info
         ∧ preprocess_courses courses_df !! StreamlitApp.course v = Some info
         ∧ format_row (preprocess_timeslots timeslots_df).2
             (preprocess_instructors instructors_df)
             (preprocess_courses courses_df) v val
           = {| out_Course := StreamlitApp.course v;
                out_Group := StreamlitApp.section_display_name v;
                out_Year := StreamlitApp.year v;
                out_Students := StreamlitApp.students v;
                out_Day := ts_day entry; out_Start := ts_start entry;
                out_End := ts_end entry; out_Room := opt_r val;
                out_Instructor := i_name i_info;
                out_InstructorQualified := true;
                out_TimeslotIsPreferred :=
                  bool_decide (opt_t val ∈ prefs i_info);
                out_Type := Some (c_type info) |}).
Proof.
  split.
  - intros courses_df instructors_df rooms_df timeslots_df lecture_groups
      v val Hv. unfold csp2_run in Hv. cbv zeta in Hv.
    apply (pipeline_assigned Csp2.g_students Csp2.g_courses Csp2.new_var
             (λ _ dom, dom) Csp2_new_var_fresh (λ _ dom, reflexivity dom)
             Csp2.section Csp2.students sorted_by_flags sorted_by_flags_perm)
      in Hv as (n & group & cid & info & Hg & Hc & Hi & -> & Ho).
    destruct val as [[[[t r] i] q] p].
    apply elem_of_build_domain_wf in Ho
      as [(Ht & r_info & i_info & Hr & Hii & _) [-> Hp]];
      [|apply preprocess_rooms_wf|apply preprocess_instructors_wf].
    apply preprocess_timeslots_has_info in Ht as [entry Hentry].
    exists entry, i_info, r_info. cbn [opt_t opt_r opt_instr].
    repeat (split; [done|]).
    unfold export_row, timeslot_or_NA, instructor_name_or_NA.
    rewrite Hentry, Hii. cbn [default]. f_equal.
    rewrite Hp. unfold prefers. by rewrite Hii.
  - intros shuffle courses_df instructors_df rooms_df timeslots_df
      lecture_groups v val Hperm Hv. unfold streamlit_run in Hv. cbv zeta in Hv.
    apply (pipeline_assigned StreamlitApp.g_students StreamlitApp.g_courses
             StreamlitApp.new_var shuffle StreamlitApp_new_var_fresh Hperm
             StreamlitApp.group_name StreamlitApp.students (λ dom, dom)
             (λ dom, reflexivity dom))
      in Hv as (n & group & cid & info & Hg & Hc & Hi & -> & Ho).
    destruct val as [[[[t r] i] q] p].
    apply elem_of_build_domain_wf in Ho
      as [(Ht & r_info & i_info & Hr & Hii & _) [-> Hp]];
      [|apply preprocess_rooms_wf|apply preprocess_instructors_wf].
    apply preprocess_timeslots_has_info in Ht as [entry Hentry].
    exists entry, i_info, r_info, info. cbn [opt_t opt_r opt_instr].
    repeat (split; [done|]).
    unfold format_row, timeslot_or_NA, instructor_name_or_NA.
    cbn [StreamlitApp.new_var StreamlitApp.new_LectureVar StreamlitApp.course].
    rewrite Hentry, Hii, Hi. cbn [default]. f_equal.
    rewrite Hp. unfold prefers. by rewrite Hii.
Qed.

Lemma result_rows_need_no_default_witness :
  ∃ entry i_info r_info,
    dict_get (preprocess_timeslots RunExamples.timeslots_df).2
      (opt_t RunExamples.val0) = Some entry
    ∧ dict_get (preprocess_instructors RunExamples.instructors_df)
        (opt_instr RunExamples.val0) = Some i_info
    ∧ dict_get (preprocess_rooms RunExamples.rooms_df)
        (opt_r RunExamples.val0) = Some r_info
    ∧ export_row (preprocess_timeslots RunExamples.timeslots_df).2
        (preprocess_instructors RunExamples.instructors_df)
        RunExamples.v0 RunExamples.val0
      = {| out_Course := Csp2.course RunExamples.v0;
           out_Group := Csp2.section RunExamples.v0;
           out_Year := Csp2.year RunExamples.v0;
           out_Students := Csp2.students RunExamples.v0;
           out_Day := ts_day entry; out_Start := ts_start entry;
           out_End := ts_end entry; out_Room := opt_r RunExamples.val0;
           out_Instructor := i_name i_info;
           out_InstructorQualified := true;
           out_TimeslotIsPreferred :=
             bool_decide (opt_t RunExamples.val0 ∈ prefs i_info);
           out_Type := None |}.
Proof.
  apply (proj1 result_rows_need_no_default
           RunExamples.courses_df RunExamples.instructors_df
           RunExamples.rooms_df RunExamples.timeslots_df
           GroupExamples.lecture_groups).
  reflexivity.
Defined.

Lemma StronglySorted_fmap_2 {A B} (R : B → B → Prop) (f : A → B) (l : list A) :
  StronglySorted (λ a b, R (f a) (f b)) l → StronglySorted R (f <$> l).
Proof.
  induction 1 as [|x l Hl IH Hx]; cbn [fmap list_fmap]; constructor; [done|].
  apply Forall_fmap. exact Hx.
Qed.

(** X22. The rows of the failed assignments come one per entry of the
    failed list and in its order, which is the order of the pass: their
    student counts never increase. *)
Theorem failed_rows_descending :
  (∀ (variables : list Csp2.LectureVar) domains,
     length (export_failed_rows (Csp2.solve_timetable variables domains).2)
     = length (Csp2.solve_timetable variables domains).2
     ∧ StronglySorted (λ a b, (fail_Students b ≤ fail_Students a)%Z)
         (export_failed_rows (Csp2.solve_timetable variables domains).2))
  ∧ (∀ (variables : list StreamlitApp.LectureVar) domains,
       length (format_failed_rows
                 (StreamlitApp.solve_timetable variables domains).2)
       = length (StreamlitApp.solve_timetable variables domains).2
       ∧ StronglySorted (λ a b, (fail_Students b ≤ fail_Students a)%Z)
           (format_failed_rows
              (StreamlitApp.solve_timetable variables domains).2)).
Proof.
  split; intros variables domains.
  - split; [apply length_fmap|]. apply StronglySorted_fmap_2. cbn [fail_Students].
    eapply StronglySorted_mono;
      [|eapply StronglySorted_sublist;
         [apply (solve_failed_sublist Csp2.section Csp2.students
                   sorted_by_flags)
         |apply sorted_vars_sorted]].
    intros a b. unfold before_as_sorted. lia.
  - split; [apply length_fmap|]. apply StronglySorted_fmap_2. cbn [fail_Students].
    eapply StronglySorted_mono;
      [|eapply StronglySorted_sublist;
         [apply (solve_failed_sublist StreamlitApp.group_name
                   StreamlitApp.students (λ dom, dom))
         |apply sorted_vars_sorted]].
    intros a b. unfold before_as_sorted. lia.
Qed.

(** * More of the code: [compatible_room] by kind of room *)

(** X23. The cascade comes down to the kind of room.  A room that signals
    classroom or hall takes every course, also one without a category; a
    room that signals neither, but theater, takes the courses whose
    category holds "lec" or signals lab; a room that signals none of the three but lab takes the
    courses that signal lab; a room that signals none of the four takes no
    course. *)
Theorem compatible_room_by_room (c : option string) (r : string) :
  (signals_classroom r || signals_hall r = true →
   compatible_room c (Some r) = true)
  ∧ (signals_classroom r = false → signals_hall r = false →
     signals_theater r = true →
     compatible_room c (Some r)
     = signals_lec (or_empty c) || signals_lab (or_empty c))
  ∧ (signals_classroom r = false → signals_hall r = false →
     signals_theater r = false → signals_lab r = true →
     compatible_room c (Some r) = signals_lab (or_empty c))
  ∧ (signals_classroom r = false → signals_hall r = false →
     signals_theater r = false → signals_lab r = false →
     compatible_room c (Some r) = false).
Proof.
  unfold compatible_room, signals_lab, signals_lec, signals_classroom,
    signals_hall, signals_theater, signals.
  rewrite or_empty_Some.
  destruct (contains "lab" (lower (or_empty c))),
    (contains "lec" (lower (or_empty c))),
    (contains "lab" (lower r)), (contains "classroom" (lower r)),
    (contains "hall" (lower r)), (contains "theater" (lower r));
    cbn; repeat split; done.
Qed.

Lemma compatible_room_by_room_witness :
  compatible_room None (Some "Lecture Hall A") = true
  ∧ compatible_room (Some "Tutorial") (Some "Theater")
    = signals_lec (or_empty (Some "Tutorial"))
      || signals_lab (or_empty (Some "Tutorial")).
Proof.
  split.
  - apply (proj1 (compatible_room_by_room None "Lecture Hall A")). reflexivity.
  - apply (proj1 (proj2 (compatible_room_by_room (Some "Tutorial") "Theater")));
      reflexivity.
Defined.
